(** * A segregated-fit allocator with boundary tags (mm.c)

    The heap is an array of 4-byte words.  Every block starts with a header
    word holding its size in words and two flag bits; free blocks carry two
    links and a footer.  The model below follows mm.c function by function:
    the globals become the fields of a record that is threaded through the
    calls, the heap words live in a finite map keyed by byte address, and
    the bucket table is the list of its ten entries. *)

From Stdlib Require Import ZArith Lia List Bool.
From stdpp Require Import base option list gmap.
Import ListNotations.

Local Open Scope Z_scope.

(** ** Machine integers *)

(** [word_t] is [int32_t]: conversion to it keeps the low 32 bits, read as a
    signed number. *)
Definition to_word (z : Z) : Z := (z + 2 ^ 31) mod 2 ^ 32 - 2 ^ 31.

(** [size_t] is 64 bits wide and unsigned. *)
Definition to_size (z : Z) : Z := z mod 2 ^ 64.

(** ** Constants of mm.c *)

Definition WSIZE : Z := 4.
Definition N_BUCKETS : Z := 10.

(** Modelled from the spec: [ALIGNMENT] comes from mm.h, which is not among
    the sources.  The spec fixes the alignment quantum at 16 bytes, and the
    opening comment of mm.c says that the block size is a multiple of
    16 bytes (ALIGNMENT). *)
Definition ALIGNMENT : Z := 16.

(** [sizeof(heap_start)]: a pointer takes 8 bytes. *)
Definition PTR_SIZE : Z := 8.

(** [bt_flags] *)
Definition FREE : Z := 0.
Definition USED : Z := 1.
Definition PREVFREE : Z := 2.

Definition NULL : Z := 0.

(** ** The allocator state

    Pointers are byte addresses.  [mem] holds the heap words; a word that
    was never written reads as whatever the map holds, 0 where it holds
    nothing.  [segregated_list] is the content of the bucket table and
    [table_addr] its address.  [past_table] is the pointer-sized value that
    lies directly behind the table: it is what [segregated_list[N_BUCKETS]]
    yields.  (When the table ends on a 16-byte boundary these eight bytes
    belong to the alignment padding, which the allocator never writes.)
    [mem_brk] and [mem_max_addr] belong to the memory provider. *)
Record heap : Type := mkHeap {
  mem : gmap Z Z;
  mem_brk : Z;
  mem_max_addr : Z;
  heap_start : Z;
  heap_epilogue : Z;
  last : Z;
  segregated_list : list Z;
  table_addr : Z;
  past_table : Z
}.

Definition set_mem (h : heap) (m : gmap Z Z) : heap :=
  mkHeap m (mem_brk h) (mem_max_addr h) (heap_start h) (heap_epilogue h)
         (last h) (segregated_list h) (table_addr h) (past_table h).

Definition set_brk (h : heap) (b : Z) : heap :=
  mkHeap (mem h) b (mem_max_addr h) (heap_start h) (heap_epilogue h)
         (last h) (segregated_list h) (table_addr h) (past_table h).

Definition set_heap_start (h : heap) (p : Z) : heap :=
  mkHeap (mem h) (mem_brk h) (mem_max_addr h) p (heap_epilogue h)
         (last h) (segregated_list h) (table_addr h) (past_table h).

Definition set_heap_epilogue (h : heap) (p : Z) : heap :=
  mkHeap (mem h) (mem_brk h) (mem_max_addr h) (heap_start h) p
         (last h) (segregated_list h) (table_addr h) (past_table h).

Definition set_last (h : heap) (p : Z) : heap :=
  mkHeap (mem h) (mem_brk h) (mem_max_addr h) (heap_start h) (heap_epilogue h)
         p (segregated_list h) (table_addr h) (past_table h).

Definition set_segregated_list (h : heap) (l : list Z) : heap :=
  mkHeap (mem h) (mem_brk h) (mem_max_addr h) (heap_start h) (heap_epilogue h)
         (last h) l (table_addr h) (past_table h).

Definition set_table_addr (h : heap) (p : Z) : heap :=
  mkHeap (mem h) (mem_brk h) (mem_max_addr h) (heap_start h) (heap_epilogue h)
         (last h) (segregated_list h) p (past_table h).

(** Reading the word a [word_t] pointer [p] points at. *)
Definition load (h : heap) (p : Z) : Z := default 0 (mem h !! p).

(** [PUT(p, val)] *)
Definition PUT (h : heap) (p val : Z) : heap :=
  set_mem h (<[p := to_word val]> (mem h)).

(** [PACK(size, alloc)] *)
Definition PACK (size alloc : Z) : Z := Z.lor size alloc.

(** [p - q] for two [word_t] pointers: the distance in words. *)
Definition ptr_diff (p q : Z) : Z := (p - q) / WSIZE.

(** [segregated_list[index]] as an rvalue.  An index outside the table
    reads the memory behind it. *)
Definition read_bucket (h : heap) (index : Z) : Z :=
  if (0 <=? index) && (index <? N_BUCKETS)
  then default NULL (segregated_list h !! Z.to_nat index)
  else past_table h.

(** [segregated_list[index] = p] *)
Definition write_bucket (h : heap) (index p : Z) : heap :=
  set_segregated_list h (<[Z.to_nat index := p]> (segregated_list h)).

(** ** Outcomes

    A call either returns, trips an [assert], or (in the model only) runs
    out of the fuel that bounds the walk along a free list. *)
Inductive outcome (A : Type) : Type :=
| Done (a : A) (h : heap)
| AssertFailed
| OutOfFuel.

Arguments Done {A} a h.
Arguments AssertFailed {A}.
Arguments OutOfFuel {A}.

Definition bind {A B : Type} (m : outcome A) (k : A -> heap -> outcome B)
  : outcome B :=
  match m with
  | Done a h => k a h
  | AssertFailed => AssertFailed
  | OutOfFuel => OutOfFuel
  end.

Notation "'do' '(' x ',' h ')' '<-' m ';' k" :=
  (bind m (fun x h => k))
  (at level 10, x name, h name, m at level 100, k at level 200).

(** ** Block layer *)

Definition round_up (size : Z) : Z :=
  Z.land (to_size (size + ALIGNMENT - 1)) (to_size (- ALIGNMENT)).

Definition bt_size (h : heap) (bt : Z) : Z :=
  Z.land (load h bt) (Z.lnot (Z.lor USED PREVFREE)).

Definition bt_used (h : heap) (bt : Z) : Z := Z.land (load h bt) USED.

Definition bt_get_prevfree (h : heap) (bt : Z) : Z :=
  Z.land (load h bt) PREVFREE.

Definition bt_clr_prevfree (h : heap) (bt : Z) : heap :=
  if bt =? NULL then h
  else PUT h bt (Z.land (load h bt) (Z.lnot PREVFREE)).

Definition bt_set_prevfree (h : heap) (bt : Z) : heap :=
  PUT h bt (Z.lor (load h bt) PREVFREE).

Definition bt_payload (bt : Z) : Z := bt + WSIZE.

Definition bt_footer (h : heap) (bt : Z) : Z :=
  bt + WSIZE * bt_size h bt - WSIZE.

Definition bt_next (h : heap) (bt : Z) : Z :=
  let next := bt_footer h bt + WSIZE in
  if next =? heap_epilogue h then NULL else next.

Definition bt_prev (h : heap) (bt : Z) : Z :=
  if negb (bt_get_prevfree h bt =? 0)
  then bt - WSIZE * bt_size h (bt - WSIZE)
  else NULL.

Definition bt_make (h : heap) (bt words flags : Z) : heap :=
  let h1 := PUT h bt (PACK words flags) in
  if negb (bt_next h1 bt =? NULL) then
    if negb (bt_used h1 bt =? 0) then
      bt_clr_prevfree h1 (bt_next h1 bt)
    else
      let h2 := bt_set_prevfree h1 (bt_next h1 bt) in
      PUT h2 (bt_footer h2 bt) (PACK words flags)
  else
    PUT h1 (bt_footer h1 bt) (PACK words flags).

(** ** The memory provider *)

(** The all-ones pointer, -1 cast to a pointer, that [extend_heap] tests
    for. *)
Definition SBRK_FAILED : Z := 2 ^ 64 - 1.

(** Modelled from the spec: [mem_sbrk] is declared in memlib.h, which is
    not among the sources.  By the spec's contract, [sbrk(delta)] extends
    the region by [delta] bytes and returns the address at which the new
    bytes begin, [sbrk(0)] returns the current break, and a request that
    the provider cannot serve fails; a failure is reported as the all-ones
    pointer, the value [extend_heap] compares with. *)
Definition mem_sbrk (h : heap) (incr : Z) : Z * heap :=
  if (incr <? 0) || (mem_max_addr h <? mem_brk h + incr)
  then (SBRK_FAILED, h)
  else (mem_brk h, set_brk h (mem_brk h + incr)).

(** ** Initialisation *)

(** The padding [mm_init] asks for, from [remainder = break % 16]. *)
Definition init_padding (remainder : Z) : Z :=
  if 12 <? remainder then to_size (16 - remainder - 12)
  else to_size (12 - remainder).

Definition mm_init (h : heap) : Z * heap :=
  let (table, h1) := mem_sbrk h (N_BUCKETS * PTR_SIZE) in
  let h1 := set_table_addr h1 table in
  if table =? NULL then (-1, h1) else
  let (temp, h2) := mem_sbrk h1 0 in
  if temp =? NULL then (-1, h2) else
  let remainder := temp mod 16 in
  let size := init_padding remainder in
  let (pad, h3) := mem_sbrk h2 size in
  if pad =? NULL then (-1, h3) else
  let (epilogue, h4) := mem_sbrk h3 WSIZE in
  let h5 := set_heap_epilogue (set_heap_start h4 epilogue) epilogue in
  let h6 := PUT h5 (heap_epilogue h5) USED in
  let h7 := set_last h6 NULL in
  (0, set_segregated_list h7
        (replicate (Z.to_nat N_BUCKETS) (heap_start h7 - WSIZE))).

(** ** Free list API *)

(** The [do ... while] of [find_bucket]; [n] bounds the number of rounds,
    which the loop condition keeps below [N_BUCKETS].  [None] is the failed
    assertion. *)
Fixpoint find_bucket_loop (n : nat) (size boundary index : Z) : option Z :=
  match n with
  | O => Some (N_BUCKETS - 1)
  | S n' =>
      if size <=? boundary then
        if (size <=? boundary) && (Z.shiftr boundary 1 <? size)
        then Some index else None
      else
        let index := index + 1 in
        let boundary := to_size (Z.shiftl boundary 1) in
        if index <? N_BUCKETS - 1
        then find_bucket_loop n' size boundary index
        else Some (N_BUCKETS - 1)
  end.

Definition find_bucket (words : Z) : option Z :=
  find_bucket_loop (Z.to_nat (N_BUCKETS - 1)) (to_size (words * WSIZE)) 16 0.

(** Lifting the assertion of [find_bucket] into an outcome. *)
Definition bucket_index (h : heap) (words : Z) : outcome Z :=
  match find_bucket words with
  | Some index => Done index h
  | None => AssertFailed
  end.

Definition set_free_list_prev (h : heap) (bt free_prev : Z) : heap :=
  PUT h (bt + 2 * WSIZE) (ptr_diff free_prev (heap_start h)).

Definition set_free_list_next (h : heap) (bt free_next : Z) : heap :=
  PUT h (bt + WSIZE) (ptr_diff free_next (heap_start h)).

Definition get_free_list_prev (h : heap) (bt : Z) : Z :=
  if load h (bt + 2 * WSIZE) <? 0 then NULL
  else heap_start h + WSIZE * load h (bt + 2 * WSIZE).

Definition get_free_list_next (h : heap) (bt : Z) : Z :=
  if load h (bt + WSIZE) <? 0 then NULL
  else heap_start h + WSIZE * load h (bt + WSIZE).

Definition free_list_append (h : heap) (bt : Z) : outcome unit :=
  do (index, h) <- bucket_index h (bt_size h bt);
  let h := set_free_list_prev h bt (heap_start h - WSIZE) in
  let h := set_free_list_next h bt (read_bucket h index) in
  let h := write_bucket h index bt in
  if negb (get_free_list_next h bt =? NULL)
  then Done tt (set_free_list_prev h (get_free_list_next h bt) bt)
  else Done tt h.

Definition free_list_delete (h : heap) (bt : Z) : outcome unit :=
  do (index, h) <- bucket_index h (bt_size h bt);
  if (read_bucket h index =? bt) && (get_free_list_next h bt =? NULL) then
    (* block is the only one in the list *)
    Done tt (write_bucket h index (heap_start h - WSIZE))
  else if read_bucket h index =? bt then
    (* block is the first one but not the last *)
    let h := write_bucket h index (get_free_list_next h bt) in
    Done tt (set_free_list_prev h (read_bucket h index) (heap_start h - WSIZE))
  else if negb (get_free_list_next h bt =? NULL) then
    (* block is somewhere in the middle of the list *)
    let h := set_free_list_next h (get_free_list_prev h bt)
                                (get_free_list_next h bt) in
    Done tt (set_free_list_prev h (get_free_list_next h bt)
                                (get_free_list_prev h bt))
  else
    (* block is the last one in the list *)
    Done tt (set_free_list_next h (get_free_list_prev h bt)
                                (heap_start h - WSIZE)).

(** ** Coalescing, extension, placement *)

Definition coalesce (h : heap) (bt : Z) : outcome Z :=
  let prev := bt_prev h bt in
  let next := bt_next h bt in
  let prev_used := if negb (prev =? NULL) then bt_used h prev else 1 in
  let next_used := if negb (next =? NULL) then bt_used h next else 1 in
  let words := bt_size h bt in
  let is_change := (bt =? last h) || ((next =? last h) && (next_used =? 0)) in
  do (words, h) <-
     (if next_used =? 0 then
        let words := to_word (words + bt_size h next) in
        do (_, h) <- free_list_delete h next; Done words h
      else Done words h);
  do (r, h) <-
     (if prev_used =? 0 then
        let words := to_word (words + bt_size h prev) in
        do (_, h) <- free_list_delete h prev; Done (words, prev) h
      else Done (words, bt) h);
  let words := fst r in
  let bt := snd r in
  let h := bt_make h bt words FREE in
  do (_, h) <- free_list_append h bt;
  let h := set_last h (if is_change then bt else last h) in
  Done bt h.

Definition extend_heap (h : heap) (size : Z) : outcome Z :=
  let (p, h) := mem_sbrk h size in
  if p =? SBRK_FAILED then Done NULL h else
  (* old epilogue becomes begining of the new block *)
  let bt := heap_epilogue h in
  (* checking if old last block is free *)
  let flags := if negb (last h =? NULL) && (bt_used h (last h) =? 0)
               then Z.lor 0 PREVFREE else 0 in
  let flags := Z.lor flags FREE in
  let h := bt_make h bt (to_word (size / WSIZE)) flags in
  let h := set_last h bt in
  (* epilogue *)
  let h := set_heap_epilogue h (bt_footer h bt + WSIZE) in
  let h := PUT h (heap_epilogue h) (PACK 0 USED) in
  if negb (heap_epilogue h mod 16 =? 12) then AssertFailed else
  (* coalescing with old last block in case it is free *)
  coalesce h bt.

Definition place (h : heap) (bt words_needed : Z) : outcome unit :=
  let free_block_words := bt_size h bt in
  do (_, h) <- free_list_delete h bt;
  if ALIGNMENT <=? to_word (free_block_words - words_needed) then
    let h := bt_make h bt words_needed (Z.lor USED (bt_get_prevfree h bt)) in
    let remaining_block := bt_next h bt in
    let h := bt_make h remaining_block
                     (to_word (free_block_words - words_needed)) FREE in
    do (_, h) <- free_list_append h remaining_block;
    Done tt (set_last h (if last h =? bt then remaining_block else last h))
  else
    Done tt (bt_make h bt free_block_words USED).

(** ** Searching the buckets

    [find_fit] also reports the indices at which it read the bucket table,
    in the order of the reads. *)

(** The loop that skips empty buckets.  Every round reads
    [segregated_list[index]] and only then compares [index] with
    [N_BUCKETS]; [n] bounds the rounds. *)
Fixpoint skip_empty (n : nat) (h : heap) (index : Z) (reads : list Z)
  : Z * list Z :=
  match n with
  | O => (index, reads)
  | S n' =>
      if (ptr_diff (read_bucket h index) (heap_start h) =? -1)
         && (index <? N_BUCKETS)
      then skip_empty n' h (index + 1) (reads ++ [index])
      else (index, reads ++ [index])
  end.

(** The walk along one list: [Some bt] for the first block that fits,
    [Some NULL] at the end of the list, [None] when the fuel is spent. *)
Fixpoint first_fit (fuel : nat) (h : heap) (bt words : Z) : option Z :=
  match fuel with
  | O => None
  | S fuel' =>
      if bt =? NULL then Some NULL
      else if words <=? bt_size h bt then Some bt
      else first_fit fuel' h (get_free_list_next h bt) words
  end.

(** The outer [do ... while (index < N_BUCKETS)]; [n] bounds its rounds. *)
Fixpoint find_fit_loop (n fuel : nat) (h : heap) (index words : Z)
         (reads : list Z) : outcome (Z * list Z) :=
  match n with
  | O => Done (NULL, reads) h
  | S n' =>
      let (index, reads) :=
        skip_empty (Z.to_nat (N_BUCKETS - index) + 1) h index reads in
      let bt := read_bucket h index in
      let reads := reads ++ [index] in
      match first_fit fuel h bt words with
      | None => OutOfFuel
      | Some bt =>
          if negb (bt =? NULL) then Done (bt, reads) h
          else
            let index := index + 1 in
            if index <? N_BUCKETS
            then find_fit_loop n' fuel h index words reads
            else Done (NULL, reads) h
      end
  end.

Definition find_fit (fuel : nat) (h : heap) (words : Z)
  : outcome (Z * list Z) :=
  do (index, h) <- bucket_index h words;
  find_fit_loop (Z.to_nat N_BUCKETS) fuel h index words [].

(** ** The public operations *)

Definition malloc (fuel : nat) (h : heap) (size : Z) : outcome Z :=
  if size =? 0 then Done NULL h else
  (* headr + playoad + padding (in bytes) *)
  let size := round_up (to_size (WSIZE + size)) in
  (* headr + playoad + padding (in words) *)
  let words := to_word (size / WSIZE) in
  do (fit, h) <- find_fit fuel h words;
  let bt := fst fit in
  if negb (bt =? NULL) then
    do (_, h) <- place h bt words;
    Done (bt + WSIZE) h
  else
    let needed :=
      if negb (last h =? NULL) && (bt_used h (last h) =? 0)
      then to_size (size - to_size (bt_size h (last h)) * WSIZE)
      else size in
    do (bt, h) <- extend_heap h needed;
    if bt =? NULL then Done NULL h else
    do (_, h) <- place h bt words;
    Done (bt + WSIZE) h.

Definition free (h : heap) (ptr : Z) : outcome unit :=
  if ptr =? NULL then Done tt h else
  let bt := ptr - WSIZE in
  let flags := Z.lor FREE (bt_get_prevfree h bt) in
  let h := bt_make h bt (bt_size h bt) flags in
  (* coalescing free neighbors *)
  if negb (bt_get_prevfree h bt =? 0)
     || (negb (bt_next h bt =? NULL) && negb (bt_used h (bt_next h bt) =? 0))
  then do (_, h) <- coalesce h bt; Done tt h
  else free_list_append h bt.

(** [memcpy(dst, src, n)] for a byte count [n] that is a multiple of the
    word size: word [i] of the destination receives word [i] of the source
    as it was before the call.  [realloc] only passes such counts, and never
    overlapping regions. *)
Definition memcpy (h : heap) (dst src n : Z) : heap :=
  fold_left
    (fun h' i => PUT h' (dst + WSIZE * Z.of_nat i) (load h (src + WSIZE * Z.of_nat i)))
    (seq 0 (Z.to_nat (n / WSIZE))) h.

(** [memset(dst, 0, n)]: the whole words are cleared; of the word the
    count ends in, the [n % 4] low-order bytes are (little-endian). *)
Definition memset0 (h : heap) (dst n : Z) : heap :=
  let h1 :=
    fold_left (fun h' i => PUT h' (dst + WSIZE * Z.of_nat i) 0)
              (seq 0 (Z.to_nat (n / WSIZE))) h in
  if n mod WSIZE =? 0 then h1
  else
    let p := dst + WSIZE * (n / WSIZE) in
    PUT h1 p (Z.land (load h1 p) (Z.lnot (2 ^ (8 * (n mod WSIZE)) - 1))).

Definition realloc (fuel : nat) (h : heap) (old_ptr size : Z) : outcome Z :=
  if size =? 0 then
    do (_, h) <- free h old_ptr; Done NULL h
  else if old_ptr =? NULL then malloc fuel h size
  else
    let bt := old_ptr - WSIZE in
    do (new_ptr, h) <- malloc fuel h size;
    if new_ptr =? NULL then Done NULL h else
    let free_size := to_size (to_size (bt_size h (new_ptr - WSIZE)) * WSIZE) in
    let old_size := to_size (to_size (bt_size h bt) * WSIZE) in
    (* Copy the old data. *)
    let h := if old_size <? free_size
             then memcpy h new_ptr old_ptr (to_size (old_size - WSIZE))
             else memcpy h new_ptr old_ptr (to_size (free_size - WSIZE)) in
    (* Free the old block. *)
    do (_, h) <- free h old_ptr;
    Done new_ptr h.

Definition calloc (fuel : nat) (h : heap) (nmemb size : Z) : outcome Z :=
  let bytes := to_size (nmemb * size) in
  do (new_ptr, h) <- malloc fuel h bytes;
  (* If malloc() fails, skip zeroing out the memory. *)
  if negb (new_ptr =? NULL) then Done new_ptr (memset0 h new_ptr bytes)
  else Done new_ptr h.

(** ** Reachable states

    [reachable live h]: [h] is a state at the entry or exit of a public
    operation in some run that started with [mm_init], and [live] lists the
    payloads handed out and not yet given back. *)
Inductive reachable : list Z -> heap -> Prop :=
| reach_init h0 h :
    mm_init h0 = (0, h) -> reachable [] h
| reach_malloc fuel live h n p h' :
    reachable live h -> malloc fuel h n = Done p h' ->
    reachable (if p =? NULL then live else p :: live) h'
| reach_calloc fuel live h k n p h' :
    reachable live h -> calloc fuel h k n = Done p h' ->
    reachable (if p =? NULL then live else p :: live) h'
| reach_free live h p h' :
    reachable live h -> In p live -> free h p = Done tt h' ->
    reachable (remove Z.eq_dec p live) h'
| reach_realloc fuel live h p n q h' :
    reachable live h -> p = NULL \/ In p live ->
    realloc fuel h p n = Done q h' ->
    reachable (if n =? 0 then remove Z.eq_dec p live
               else if q =? NULL then live
               else q :: remove Z.eq_dec p live) h'.

(** A provider that has handed out nothing yet: its region starts at
    [base] and ends at [limit], and all of it reads as zero. *)
Definition fresh_heap (base limit : Z) : heap :=
  mkHeap ∅ base limit NULL NULL NULL [] NULL NULL.

(** The result of an outcome, for statements about concrete runs. *)
Definition returned {A : Type} (o : outcome A) : option A :=
  match o with Done a _ => Some a | _ => None end.

Definition state_after {A : Type} (o : outcome A) (h : heap) : heap :=
  match o with Done _ h' => h' | _ => h end.

(** The bucket of a size as the design document words it: convert to
    bytes; start with boundary 16 at index 0; while the size exceeds the
    boundary and the index is below N-1, double the boundary and increment
    the index. *)
Fixpoint bucket_of_loop (n : nat) (size boundary index : Z) : Z :=
  match n with
  | O => index
  | S n' =>
      if (boundary <? size) && (index <? N_BUCKETS - 1)
      then bucket_of_loop n' size (2 * boundary) (index + 1)
      else index
  end.

Definition bucket_of (words : Z) : Z :=
  bucket_of_loop (Z.to_nat N_BUCKETS) (words * WSIZE) 16 0.

(** The bucket of a block size, as a closed formula. *)
Definition size_class (words : Z) : Z :=
  if words <=? 4 then 0
  else if words <=? 8 then 1
  else if words <=? 16 then 2
  else if words <=? 32 then 3
  else if words <=? 64 then 4
  else if words <=? 128 then 5
  else if words <=? 256 then 6
  else if words <=? 512 then 7
  else if words <=? 1024 then 8
  else 9.

(** ** Concrete runs

    The provider's region starts at 4096 and is all zero; the table takes
    80 bytes, the padding 12, and the first block header lands at 4188. *)

Definition h_init : heap := snd (mm_init (fresh_heap 4096 65536)).

(** [a = malloc(8); b = malloc(8); c = malloc(8); free(b)] *)
Definition h_a : heap := state_after (malloc 8 h_init 8) h_init.
Definition h_ab : heap := state_after (malloc 8 h_a 8) h_a.
Definition h_abc : heap := state_after (malloc 8 h_ab 8) h_ab.
Definition h_ac : heap := state_after (free h_abc 4208) h_abc.
(** ... and then [free(a)] *)
Definition h_c : heap := state_after (free h_ac 4192) h_ac.

(** Two blocks that are adjacent in [h], both with USED clear. *)
Definition adjacent_free (h : heap) (a b : Z) : Prop :=
  b <> NULL /\ bt_next h a = b /\ bt_used h a = 0 /\ bt_used h b = 0.

(** [p = malloc(24); free(p)]: one free block of 8 words at 4188. *)
Definition h_p : heap := state_after (malloc 8 h_init 24) h_init.
Definition h_free8 : heap := state_after (free h_p 4192) h_p.

(** ** Well-formed heaps

    The layout is described by a finite map from block addresses to the
    size (in words) and the status of the block there.  A free block is
    [Listed] when it sits in the list of its bucket and [Loose] while an
    operation has it in hand; between operations no block is loose. *)

Inductive status : Type := Used | Listed | Loose.

Definition used_bit (st : status) : Z :=
  match st with Used => USED | _ => 0 end.

(** The value that marks an empty bucket and the ends of a list. *)
Definition sentinel (h : heap) : Z := heap_start h - WSIZE.

(** The blocks lie in the block region without overlap.  The region ends
    one word before the break and stays within reach of 32-bit word
    offsets. *)
Record geometry (h : heap) (B : gmap Z (Z * status)) : Prop := {
  geo_start : 12 <= heap_start h /\ heap_start h mod 16 = 12;
  geo_epilogue :
    heap_start h <= heap_epilogue h /\ heap_epilogue h mod 16 = 12;
  geo_brk :
    mem_brk h = heap_epilogue h + WSIZE /\ mem_brk h <= mem_max_addr h
    /\ mem_max_addr h - heap_start h < 2 ^ 33;
  geo_past : past_table h = NULL;
  geo_block : forall a sz st, B !! a = Some (sz, st) ->
    heap_start h <= a /\ a + WSIZE * sz <= heap_epilogue h
    /\ 4 <= sz /\ sz mod 4 = 0 /\ a mod 4 = 0;
  geo_disjoint : forall a sza sta b szb stb,
    B !! a = Some (sza, sta) -> B !! b = Some (szb, stb) ->
    a = b \/ a + WSIZE * sza <= b \/ b + WSIZE * szb <= a
}.

(** Every block is followed by a block or by the epilogue. *)
Definition covered (h : heap) (B : gmap Z (Z * status)) : Prop :=
  forall a sz st, B !! a = Some (sz, st) ->
    a + WSIZE * sz = heap_epilogue h \/ is_Some (B !! (a + WSIZE * sz)).

(** [last] is the block before the epilogue, if it is set at all. *)
Definition last_ok (h : heap) (B : gmap Z (Z * status)) : Prop :=
  last h = NULL
  \/ exists sz st, B !! last h = Some (sz, st)
                  /\ last h + WSIZE * sz = heap_epilogue h.

(** What the words of a block say: the header holds the size and the USED
    bit, a free block repeats its size in the footer, and a header with
    PREVFREE set is preceded by a free block.  Between the two [bt_make]
    of a split the last part does not hold for the block at [x]. *)
Definition headers_but (x : Z) (h : heap) (B : gmap Z (Z * status)) : Prop :=
  forall a sz st, B !! a = Some (sz, st) ->
    bt_size h a = sz
    /\ bt_used h a = used_bit st
    /\ (st <> Used -> bt_size h (a + WSIZE * sz - WSIZE) = sz)
    /\ (a <> x -> bt_get_prevfree h a <> 0 ->
        exists p szp stp, B !! p = Some (szp, stp) /\ stp <> Used
                          /\ p + WSIZE * szp = a).

Definition headers (h : heap) (B : gmap Z (Z * status)) : Prop :=
  forall a sz st, B !! a = Some (sz, st) ->
    bt_size h a = sz
    /\ bt_used h a = used_bit st
    /\ (st <> Used -> bt_size h (a + WSIZE * sz - WSIZE) = sz)
    /\ (bt_get_prevfree h a <> 0 ->
        exists p szp stp, B !! p = Some (szp, stp) /\ stp <> Used
                          /\ p + WSIZE * szp = a).

(** The links of a list segment [L] that is preceded by [prev] and followed
    by [nxt]: every element points back at its predecessor and forward at
    its successor. *)
Fixpoint dseg (h : heap) (prev : Z) (L : list Z) (nxt : Z) : Prop :=
  match L with
  | [] => True
  | a :: L' =>
      load h (a + 2 * WSIZE) = ptr_diff prev (heap_start h)
      /\ load h (a + WSIZE) = ptr_diff (hd nxt L') (heap_start h)
      /\ dseg h a L' nxt
  end.

(** Bucket [j] heads the list [F j]; the lists hold exactly the listed
    blocks, each in the bucket of its size. *)
Definition lists (h : heap) (B : gmap Z (Z * status)) (F : Z -> list Z)
  : Prop :=
  length (segregated_list h) = Z.to_nat N_BUCKETS
  /\ (forall j, 0 <= j < N_BUCKETS ->
        read_bucket h j = hd (sentinel h) (F j)
        /\ dseg h (sentinel h) (F j) (sentinel h)
        /\ List.NoDup (F j)
        /\ forall a, In a (F j) ->
             exists sz, B !! a = Some (sz, Listed) /\ size_class sz = j)
  /\ (forall a sz, B !! a = Some (sz, Listed) -> In a (F (size_class sz))).

Definition Inv (h : heap) (B : gmap Z (Z * status)) (F : Z -> list Z)
  : Prop :=
  geometry h B /\ headers h B /\ lists h B F.

(** The state between two operations. *)
Definition well_formed (h : heap) (B : gmap Z (Z * status)) : Prop :=
  (exists F, Inv h B F) /\ covered h B /\ last_ok h B
  /\ forall a sz st, B !! a = Some (sz, st) -> st <> Loose.

(** The payload words of the blocks in use are the same in [h] and [h']. *)
Definition payload_frame (B : gmap Z (Z * status)) (h h' : heap) : Prop :=
  forall a sz x, B !! a = Some (sz, Used) ->
    a < x < a + WSIZE * sz -> load h' x = load h x.

(** Replacing the list of one bucket. *)
Definition set_list (F : Z -> list Z) (j : Z) (L : list Z) : Z -> list Z :=
  fun i => if i =? j then L else F i.

(** The three parts of a header word. *)
Definition hdr_size (w : Z) : Z := Z.land w (Z.lnot (Z.lor USED PREVFREE)).
Definition hdr_used (w : Z) : Z := Z.land w USED.
Definition hdr_pf (w : Z) : Z := Z.land w PREVFREE.

(** Two states with the same globals. *)
Definition same_globals (h h' : heap) : Prop :=
  heap_start h' = heap_start h /\ heap_epilogue h' = heap_epilogue h
  /\ mem_brk h' = mem_brk h /\ mem_max_addr h' = mem_max_addr h
  /\ past_table h' = past_table h.

(** ** Quantities of the proofs

    The values [malloc] and [extend_heap] compute on their way, and the
    layouts that the intermediate states of an operation have. *)

(** The rounded request of [malloc], in bytes and in words, and the amount
    it asks [extend_heap] for after a miss. *)
Definition request_size (n : Z) : Z := round_up (to_size (WSIZE + n)).

Definition request_words (n : Z) : Z := to_word (request_size n / WSIZE).

Definition needed_bytes (h : heap) (n : Z) : Z :=
  if negb (last h =? NULL) && (bt_used h (last h) =? 0)
  then to_size (request_size n - to_size (bt_size h (last h)) * WSIZE)
  else request_size n.

(** The flags [extend_heap] gives the new block. *)
Definition extend_flags (h : heap) : Z :=
  Z.lor (if negb (last h =? NULL) && (bt_used h (last h) =? 0)
         then Z.lor 0 PREVFREE else 0) FREE.

(** The state [extend_heap] would start from if the epilogue had been moved
    at once. *)
Definition grown (h : heap) (size : Z) : heap :=
  set_heap_epilogue (set_brk h (mem_brk h + size)) (heap_epilogue h + size).

(** No block is in the hands of an operation. *)
Definition no_loose (B : gmap Z (Z * status)) : Prop :=
  forall c s t, B !! c = Some (s, t) -> t <> Loose.

(** Words that hold the allocator's own data: the header of a block, the
    inside of a free block, and everything from the epilogue on. *)
Definition meta (h : heap) (B : gmap Z (Z * status)) (p : Z) : Prop :=
  (exists a sz st, B !! a = Some (sz, st)
                   /\ (p = a \/ st <> Used /\ a < p < a + WSIZE * sz))
  \/ heap_epilogue h <= p.

(** The layout after the words from [bt] to [bt + 4 * words] have become
    one block: the blocks that started there are gone. *)
Definition rewrite_block (B : gmap Z (Z * status)) (bt words : Z)
           (st' : status) : gmap Z (Z * status) :=
  <[bt := (words, st')]>
    (filter (fun kv => kv.1 < bt \/ bt + 4 * words <= kv.1) B).

(** [run_ok B B2 bt sz a total]: in [B2] the blocks of [B] that start
    between [a] and [a + 4 * total] are loose; the stretch contains the
    block [bt], starts at a block and ends with one; outside it [B2] is
    [B]. *)
Record run_ok (B B2 : gmap Z (Z * status)) (bt sz a total : Z) : Prop := {
  ro_tot : total mod 4 = 0;
  ro_in : a <= bt /\ bt + 4 * sz <= a + 4 * total;
  ro_run : forall c szc stc, B2 !! c = Some (szc, stc) ->
    c + 4 * szc <= a \/ a + 4 * total <= c
    \/ (a <= c /\ c + 4 * szc <= a + 4 * total /\ stc = Loose);
  ro_out : forall c, c < a \/ a + 4 * total <= c -> B2 !! c = B !! c;
  ro_used : forall c szc,
    B !! c = Some (szc, Used) -> B2 !! c = Some (szc, Used);
  ro_start : is_Some (B !! a);
  ro_end : exists x szx stx,
    B !! x = Some (szx, stx) /\ a <= x /\ x + 4 * szx = a + 4 * total
}.

(** The layouts of two of the concrete states: [h_a] has one block in use,
    [h_free8] one free block in the list of bucket 1. *)
Definition B_a : gmap Z (Z * status) := {[ 4188 := (4, Used) ]}.
Definition B_free8 : gmap Z (Z * status) := {[ 4188 := (8, Listed) ]}.
Definition F_free8 (j : Z) : list Z := if j =? 1 then [4188] else [].

(** [h_loose] is [h_a] in the middle of [free(a)], after the header of the
    block has been rewritten and before the block is on a list. *)
Definition h_loose : heap := bt_make h_a 4188 4 FREE.
Definition B_loose : gmap Z (Z * status) := {[ 4188 := (4, Loose) ]}.
Definition F_none (j : Z) : list Z := [].

(** ** Served runs

    [served live h]: [h] is a state between two calls in a run that a
    client drives within the limits of the allocator.  The provider starts
    fresh, with room for what [mm_init] takes and a break that leaves at
    least eight bytes of padding behind the bucket table (a residue of at
    most 4 modulo 16), so that the pointer-sized value behind the table
    lies in the padding; every request is below [2^33 - 19] bytes; [free]
    and [realloc] receive NULL or a live payload; and the client stores
    only into the words of its live payloads.  [live] lists the payloads
    handed out and not yet given back. *)
Inductive served : list Z -> heap -> Prop :=
| served_init base limit h :
    0 < base -> (base + 80) mod 16 <= 4 -> base + 96 <= limit ->
    limit - base < 2 ^ 33 ->
    mm_init (fresh_heap base limit) = (0, h) -> served [] h
| served_malloc fuel live h n p h' :
    served live h -> 0 <= n < 2 ^ 33 - 19 ->
    malloc fuel h n = Done p h' ->
    served (if p =? NULL then live else p :: live) h'
| served_calloc fuel live h k n p h' :
    served live h -> 0 <= k * n < 2 ^ 33 - 19 ->
    calloc fuel h k n = Done p h' ->
    served (if p =? NULL then live else p :: live) h'
| served_free live h p h' :
    served live h -> p = NULL \/ In p live -> free h p = Done tt h' ->
    served (remove Z.eq_dec p live) h'
| served_realloc fuel live h p n q h' :
    served live h -> p = NULL \/ In p live -> 0 <= n < 2 ^ 33 - 19 ->
    realloc fuel h p n = Done q h' ->
    served (if n =? 0 then remove Z.eq_dec p live
            else if q =? NULL then live
            else q :: remove Z.eq_dec p live) h'
| served_store live h p i v :
    served live h -> In p live -> 0 <= i < bt_size h (p - WSIZE) - 1 ->
    served live (PUT h (p + WSIZE * i) v).

(** * Properties *)

(** ** The degenerate arguments of the public operations *)

(** C6: [malloc(0)] returns NULL; [free(NULL)] returns at once and leaves
    the whole state as it was; [realloc(ptr, 0)] is [free(ptr)] followed by
    returning NULL; [realloc(NULL, n)] is [malloc(n)]. *)
Theorem degenerate_arguments (fuel : nat) (h : heap) (ptr n : Z) :
  malloc fuel h 0 = Done NULL h
  /\ free h NULL = Done tt h
  /\ realloc fuel h ptr 0 = (do (_, h') <- free h ptr; Done NULL h')
  /\ realloc fuel h NULL n = malloc fuel h n.
Proof.
  repeat split.
  unfold realloc. destruct (n =? 0) eqn:E; [|reflexivity].
  apply Z.eqb_eq in E. subst n. reflexivity.
Qed.

(** ** The size classes *)

Lemma to_size_small (z : Z) : 0 <= z < 2 ^ 64 -> to_size z = z.
Proof. intros H. unfold to_size. apply Z.mod_small. exact H. Qed.

Lemma to_word_small (z : Z) : - 2 ^ 31 <= z < 2 ^ 31 -> to_word z = z.
Proof. intros H. unfold to_word. rewrite Z.mod_small; lia. Qed.

Section FindBucketRounds.
Variables (n : nat) (size boundary index : Z).

Lemma find_bucket_loop_next :
  boundary < size -> 0 <= boundary < 2 ^ 63 -> index + 1 < N_BUCKETS - 1 ->
  find_bucket_loop (S n) size boundary index
  = find_bucket_loop n size (2 * boundary) (index + 1).
Proof.
  intros Hb Hr Hi. cbn [find_bucket_loop].
  rewrite (proj2 (Z.leb_gt size boundary)) by lia.
  rewrite (proj2 (Z.ltb_lt (index + 1) (N_BUCKETS - 1))) by lia.
  rewrite Z.shiftl_mul_pow2 by lia. change (2 ^ 1) with 2.
  rewrite to_size_small by lia. f_equal. lia.
Qed.

Lemma find_bucket_loop_hit :
  boundary / 2 < size <= boundary ->
  find_bucket_loop (S n) size boundary index = Some index.
Proof.
  intros Hb. cbn [find_bucket_loop].
  rewrite (proj2 (Z.leb_le size boundary)) by lia. cbn [andb].
  rewrite Z.shiftr_div_pow2 by lia. change (2 ^ 1) with 2.
  rewrite (proj2 (Z.ltb_lt (boundary / 2) size)) by lia. reflexivity.
Qed.

Lemma find_bucket_loop_end :
  boundary < size -> N_BUCKETS - 1 <= index + 1 ->
  find_bucket_loop (S n) size boundary index = Some (N_BUCKETS - 1).
Proof.
  intros Hb Hi. cbn [find_bucket_loop].
  rewrite (proj2 (Z.leb_gt size boundary)) by lia.
  rewrite (proj2 (Z.ltb_ge (index + 1) (N_BUCKETS - 1))) by lia.
  reflexivity.
Qed.

Lemma bucket_of_loop_next :
  boundary < size -> index < N_BUCKETS - 1 ->
  bucket_of_loop (S n) size boundary index
  = bucket_of_loop n size (2 * boundary) (index + 1).
Proof.
  intros Hb Hi. cbn [bucket_of_loop].
  rewrite (proj2 (Z.ltb_lt boundary size)) by lia.
  rewrite (proj2 (Z.ltb_lt index (N_BUCKETS - 1))) by lia. reflexivity.
Qed.

Lemma bucket_of_loop_stop :
  size <= boundary \/ N_BUCKETS - 1 <= index ->
  bucket_of_loop (S n) size boundary index = index.
Proof.
  intros H. cbn [bucket_of_loop].
  destruct (Z.ltb_spec boundary size), (Z.ltb_spec index (N_BUCKETS - 1));
    cbn [andb]; try reflexivity; lia.
Qed.
End FindBucketRounds.

Ltac split_size_class :=
  unfold size_class;
  repeat match goal with
  | |- context [?a <=? ?b] => destruct (Z.leb_spec a b)
  end.

Lemma find_bucket_size_class (words : Z) :
  3 <= words < 2 ^ 31 -> find_bucket words = Some (size_class words).
Proof.
  intros H. unfold find_bucket.
  rewrite to_size_small by (unfold WSIZE; lia).
  change (Z.to_nat (N_BUCKETS - 1)) with 9%nat.
  unfold WSIZE. split_size_class;
    repeat (rewrite find_bucket_loop_next by (unfold N_BUCKETS; lia));
    first [ rewrite find_bucket_loop_hit
              by (split; [apply Z.div_lt_upper_bound|]; lia)
          | rewrite find_bucket_loop_end by (unfold N_BUCKETS; lia) ];
    reflexivity.
Qed.

Lemma bucket_of_size_class (words : Z) :
  0 <= words -> bucket_of words = size_class words.
Proof.
  intros H. unfold bucket_of.
  change (Z.to_nat N_BUCKETS) with 10%nat.
  unfold WSIZE. split_size_class;
    repeat (rewrite bucket_of_loop_next by (unfold N_BUCKETS; lia));
    rewrite bucket_of_loop_stop by (unfold N_BUCKETS; lia);
    reflexivity.
Qed.

(** C8: for a block of [s] words, [find_bucket] returns the index that the
    documented loop computes, which is 0 for 16 bytes, [i] for sizes in
    (2^(i+3), 2^(i+4)] bytes with 1 <= i <= 8, and 9 above 4096 bytes. *)
Theorem find_bucket_is_bucket_of (s : Z) :
  4 <= s < 2 ^ 31 ->
  find_bucket s = Some (bucket_of s)
  /\ (s * WSIZE = 16 -> bucket_of s = 0)
  /\ (forall i, 1 <= i <= 8 ->
        2 ^ (i + 3) < s * WSIZE <= 2 ^ (i + 4) -> bucket_of s = i)
  /\ (4096 < s * WSIZE -> bucket_of s = 9).
Proof.
  intros H.
  rewrite find_bucket_size_class by lia.
  rewrite bucket_of_size_class by lia.
  unfold WSIZE.
  split; [reflexivity|]. split; [|split].
  - intros E. split_size_class; lia.
  - intros i Hi Hr.
    assert (i = 1 \/ i = 2 \/ i = 3 \/ i = 4 \/ i = 5 \/ i = 6 \/ i = 7 \/ i = 8)
      as Hc by lia.
    repeat (destruct Hc as [Hc | Hc]); subst i; simpl in Hr;
      split_size_class; lia.
  - intros Hr. split_size_class; lia.
Qed.

Lemma find_bucket_is_bucket_of_witness :
  4 <= 12 < 2 ^ 31
  /\ find_bucket 12 = Some (bucket_of 12)
  /\ (12 * WSIZE = 16 -> bucket_of 12 = 0)
  /\ (forall i, 1 <= i <= 8 ->
        2 ^ (i + 3) < 12 * WSIZE <= 2 ^ (i + 4) -> bucket_of 12 = i)
  /\ (4096 < 12 * WSIZE -> bucket_of 12 = 9).
Proof.
  split; [lia | apply (find_bucket_is_bucket_of 12); lia].
Defined.

Lemma reachable_h_init : reachable [] h_init.
Proof. apply (reach_init (fresh_heap 4096 65536)). vm_compute. reflexivity. Qed.

Lemma reachable_h_abc : reachable [4224; 4208; 4192] h_abc.
Proof.
  assert (reachable [4192] h_a) as Ha.
  { apply (reach_malloc 8 [] h_init 8 4192 h_a reachable_h_init).
    vm_compute. reflexivity. }
  assert (reachable [4208; 4192] h_ab) as Hab.
  { apply (reach_malloc 8 [4192] h_a 8 4208 h_ab Ha). vm_compute. reflexivity. }
  apply (reach_malloc 8 [4208; 4192] h_ab 8 4224 h_abc Hab).
  vm_compute. reflexivity.
Qed.

Lemma reachable_h_ac : reachable [4224; 4192] h_ac.
Proof.
  apply (reach_free [4224; 4208; 4192] h_abc 4208 h_ac reachable_h_abc).
  - simpl. tauto.
  - vm_compute. reflexivity.
Qed.

Lemma reachable_h_c : reachable [4224] h_c.
Proof.
  apply (reach_free [4224; 4192] h_ac 4192 h_c reachable_h_ac).
  - simpl. tauto.
  - vm_compute. reflexivity.
Qed.

(** ** Freeing a block *)

(** C1, at a state where it fails: after [a = malloc(8); b = malloc(8);
    c = malloc(8); free(b)], the block of [a] has PREVFREE clear and its
    next adjacent block (that of [b]) exists and is free, yet [free(a)]
    does not coalesce: it is exactly the direct insertion of the block into
    its bucket, and the two blocks stay separate, 4 words each. *)
Theorem free_skips_coalescing_before_a_free_block :
  exists live h a,
    reachable live h /\ In a live /\
    let bt := a - WSIZE in
    let h1 := bt_make h bt (bt_size h bt) (Z.lor FREE (bt_get_prevfree h bt)) in
    bt_get_prevfree h1 bt = 0
    /\ bt_next h1 bt <> NULL
    /\ bt_used h1 (bt_next h1 bt) = 0
    /\ free h a = free_list_append h1 bt
    /\ bt_size (state_after (free h a) h) bt = 4
    /\ bt_size (state_after (free h a) h) (bt + 16) = 4.
Proof.
  exists [4224; 4192], h_ac, 4192.
  split; [exact reachable_h_ac|]. split; [simpl; tauto|].
  vm_compute. repeat split; discriminate.
Qed.

(** ** The coalescing invariant *)

(** C2, the state that breaks it: the run [a = malloc(8); b = malloc(8);
    c = malloc(8); free(b); free(a)] ends, at the exit of [free], with the
    blocks at 4188 and 4204 adjacent and both free. *)
Theorem adjacent_free_blocks_reachable :
  exists live h a b, reachable live h /\ adjacent_free h a b.
Proof.
  exists [4224], h_c, 4188, 4204.
  split; [exact reachable_h_c|].
  vm_compute. repeat split; discriminate.
Qed.

(** ** Placement *)

Lemma reachable_h_free8 : reachable [] h_free8.
Proof.
  assert (reachable [4192] h_p) as Hp.
  { apply (reach_malloc 8 [] h_init 24 4192 h_p reachable_h_init).
    vm_compute. reflexivity. }
  apply (reach_free [4192] h_p 4192 h_free8 Hp).
  - simpl. tauto.
  - vm_compute. reflexivity.
Qed.

(** The test [place] branches on: the leftover, in words, against
    [ALIGNMENT]. *)
Lemma place_split_test (h : heap) (bt words_needed : Z) :
  (ALIGNMENT <=? to_word (bt_size h bt - words_needed)) = true
  <-> 16 <= to_word (bt_size h bt - words_needed).
Proof. unfold ALIGNMENT. apply Z.leb_le. Qed.

(** C3, at a request where it fails: [find_fit] returns the free block of
    8 words for a request needing 4 words, so the leftover is 4 words
    (16 bytes); [place] does not split: the block is rewritten USED at its
    full 8 words and no remainder enters any bucket. *)
Theorem place_keeps_16_byte_leftover :
  exists h bt reads h',
    reachable [] h
    /\ find_fit 8 h 4 = Done (bt, reads) h
    /\ bt_size h bt - 4 = 4
    /\ place h bt 4 = Done tt h'
    /\ bt_size h' bt = 8
    /\ bt_used h' bt = USED
    /\ bt_next h' bt = NULL
    /\ segregated_list h' = replicate 10 (heap_start h' - WSIZE).
Proof.
  exists h_free8, 4188, [0; 1; 1].
  eexists. split; [exact reachable_h_free8|].
  split; [vm_compute; reflexivity|].
  split; [vm_compute; reflexivity|].
  split; [vm_compute; reflexivity|].
  vm_compute. repeat split.
Qed.

(** ** Initial alignment *)

Lemma init_padding_aligns (brk : Z) :
  brk mod 16 <= 12 ->
  0 <= init_padding (brk mod 16) < 16
  /\ (brk + init_padding (brk mod 16)) mod 16 = 12.
Proof.
  intros H. unfold init_padding.
  pose proof (Z.mod_pos_bound brk 16 ltac:(lia)) as Hb.
  rewrite (proj2 (Z.ltb_ge 12 (brk mod 16))) by lia.
  rewrite to_size_small by lia.
  split; [lia|].
  rewrite (Z.div_mod brk 16) at 1 by lia.
  replace (16 * (brk / 16) + brk mod 16 + (12 - brk mod 16))
    with (12 + (brk / 16) * 16) by lia.
  rewrite Z.mod_add by lia. reflexivity.
Qed.

(** C4, at a residue where it fails: when the break behind the bucket
    table is 13 modulo 16, the padding [mm_init] computes is 2^64 - 9, not
    a value below 16; [mm_init] still returns 0, and the epilogue, hence
    every later block header, sits at an address that is 13 modulo 16. *)
Theorem init_padding_wrong_above_12 :
  let h0 := fresh_heap 4109 65536 in
  (mem_brk h0 + N_BUCKETS * PTR_SIZE) mod 16 = 13
  /\ init_padding 13 = 2 ^ 64 - 9
  /\ ~ (0 <= init_padding 13 < 16)
  /\ (4189 + init_padding 13) mod 16 <> 12
  /\ fst (mm_init h0) = 0
  /\ heap_epilogue (snd (mm_init h0)) mod 16 = 13.
Proof.
  vm_compute. repeat split; try discriminate.
  intros [_ H]. discriminate H.
Qed.

(** ** Zero-initialised allocation *)

(** C5 fails here: [(2^63 + 4) * 2] is [2^64 + 8], which does not fit in
    [size_t]; [calloc] nevertheless returns a block, of 16 bytes. *)
Lemma calloc_overflow_allocates :
  2 ^ 64 <= (2 ^ 63 + 4) * 2
  /\ exists p h',
       calloc 8 h_init (2 ^ 63 + 4) 2 = Done p h'
       /\ p <> NULL
       /\ bt_size h' (p - WSIZE) * WSIZE = 16.
Proof.
  split; [vm_compute; discriminate|].
  exists 4192. eexists.
  split; [vm_compute; reflexivity|].
  vm_compute. split; [discriminate | reflexivity].
Qed.

(** C5 as the code has it: the byte count is the product reduced modulo
    2^64; that count goes to [malloc], whose result [calloc] returns, so
    [calloc] returns NULL exactly when [malloc] of the reduced count does,
    as it does when the reduced count is 0. *)
Theorem calloc_reduces_product (fuel : nat) (h : heap) (k n : Z) :
  returned (calloc fuel h k n) = returned (malloc fuel h ((k * n) mod 2 ^ 64))
  /\ ((k * n) mod 2 ^ 64 = 0 -> calloc fuel h k n = Done NULL h).
Proof.
  unfold calloc, to_size. split.
  - destruct (malloc fuel h ((k * n) mod 2 ^ 64)) as [p h'| |]; cbn [bind returned];
      try reflexivity.
    destruct (negb (p =? NULL)); reflexivity.
  - intros E. rewrite E. reflexivity.
Qed.

Lemma calloc_reduces_product_witness :
  (2 ^ 63 * 2) mod 2 ^ 64 = 0
  /\ calloc 8 h_init (2 ^ 63) 2 = Done NULL h_init.
Proof.
  split; [reflexivity|].
  apply (proj2 (calloc_reduces_product 8 h_init (2 ^ 63) 2)). reflexivity.
Defined.

(** ** Reads of the bucket table *)

(** C7, at a state where it fails: right after [mm_init] every bucket is
    empty, and [find_fit] for a 4-word request reads the table at the
    indices 0, 1, ..., 9 and then at [N_BUCKETS] itself, twice. *)
Theorem find_fit_reads_past_the_table :
  reachable [] h_init
  /\ find_fit 8 h_init 4
     = Done (NULL, [0; 1; 2; 3; 4; 5; 6; 7; 8; 9; N_BUCKETS; N_BUCKETS]) h_init
  /\ ~ (0 <= N_BUCKETS < N_BUCKETS).
Proof.
  split; [exact reachable_h_init|].
  split; [vm_compute; reflexivity | lia].
Qed.

(** * The operations on well-formed heaps

    The rest of the development follows the operations through a heap
    that satisfies [well_formed]: each of them keeps the invariant and
    leaves the payloads of the blocks in use alone.  The statements about
    [malloc] after a miss and about [realloc] come at the end. *)

(** ** Words as a size and two flag bits *)

Lemma testbit_word (q r n : Z) :
  0 <= r < 4 -> 0 <= n ->
  Z.testbit (4 * q + r) n
  = if n <? 2 then Z.testbit r n else Z.testbit q (n - 2).
Proof.
  intros Hr Hn. destruct (Z.ltb_spec n 2).
  - rewrite <- (Z.mod_pow2_bits_low (4 * q + r) 2 n) by lia.
    change (2 ^ 2) with 4.
    replace ((4 * q + r) mod 4) with r; [reflexivity|].
    rewrite Z.add_comm, Z.mul_comm, Z.mod_add by lia.
    symmetry. apply Z.mod_small. lia.
  - replace n with ((n - 2) + 2) at 1 by lia.
    rewrite <- Z.div_pow2_bits by lia.
    change (2 ^ 2) with 4. f_equal.
    rewrite Z.add_comm, Z.mul_comm, Z.div_add by lia.
    rewrite Z.div_small; lia.
Qed.

(** Evaluates the applications of a binary function to two numerals. *)
Ltac eval_closed f :=
  repeat match goal with
  | |- context [f ?a ?b] =>
      lazymatch a with
      | Z0 => idtac | Zpos _ => idtac | Zneg _ => idtac
      end;
      lazymatch b with
      | Z0 => idtac | Zpos _ => idtac | Zneg _ => idtac
      end;
      let v := eval vm_compute in (f a b) in
      progress change (f a b) with v
  end.

Lemma small_cases (r : Z) : 0 <= r < 4 -> r = 0 \/ r = 1 \/ r = 2 \/ r = 3.
Proof. lia. Qed.

Lemma land_word (q r mq mr : Z) :
  0 <= r < 4 -> 0 <= mr < 4 ->
  Z.land (4 * q + r) (4 * mq + mr) = 4 * Z.land q mq + Z.land r mr.
Proof.
  intros Hr Hm.
  assert (0 <= Z.land r mr < 4) as Hl.
  { destruct (small_cases r Hr) as [-> | [-> | [-> | ->]]];
    destruct (small_cases mr Hm) as [-> | [-> | [-> | ->]]];
    vm_compute; (split; [discriminate | reflexivity]). }
  apply Z.bits_inj'. intros n Hn.
  rewrite Z.land_spec, !testbit_word by lia.
  destruct (n <? 2); rewrite Z.land_spec; reflexivity.
Qed.

Lemma lor_word (q r mq mr : Z) :
  0 <= r < 4 -> 0 <= mr < 4 ->
  Z.lor (4 * q + r) (4 * mq + mr) = 4 * Z.lor q mq + Z.lor r mr.
Proof.
  intros Hr Hm.
  assert (0 <= Z.lor r mr < 4) as Hl.
  { destruct (small_cases r Hr) as [-> | [-> | [-> | ->]]];
    destruct (small_cases mr Hm) as [-> | [-> | [-> | ->]]];
    vm_compute; (split; [discriminate | reflexivity]). }
  apply Z.bits_inj'. intros n Hn.
  rewrite Z.lor_spec, !testbit_word by lia.
  destruct (n <? 2); rewrite Z.lor_spec; reflexivity.
Qed.

Lemma word_split (w : Z) : w = 4 * (w / 4) + w mod 4 /\ 0 <= w mod 4 < 4.
Proof.
  split; [apply Z.div_mod; lia | apply Z.mod_pos_bound; lia].
Qed.

Lemma hdr_parts (q r : Z) :
  0 <= r < 4 ->
  hdr_size (4 * q + r) = 4 * q
  /\ hdr_used (4 * q + r) = r mod 2
  /\ hdr_pf (4 * q + r) = 2 * (r / 2)
  /\ Z.lor (4 * q + r) PREVFREE = 4 * q + r mod 2 + 2
  /\ Z.land (4 * q + r) (Z.lnot PREVFREE) = 4 * q + r mod 2.
Proof.
  intros Hr. unfold hdr_size, hdr_used, hdr_pf.
  pose proof (land_word q r (-1) 0 Hr ltac:(lia)) as H1.
  change (4 * -1 + 0) with (Z.lnot (Z.lor USED PREVFREE)) in H1.
  pose proof (land_word q r 0 1 Hr ltac:(lia)) as H2.
  change (4 * 0 + 1) with USED in H2.
  pose proof (land_word q r 0 2 Hr ltac:(lia)) as H3.
  change (4 * 0 + 2) with PREVFREE in H3.
  pose proof (lor_word q r 0 2 Hr ltac:(lia)) as H4.
  change (4 * 0 + 2) with PREVFREE in H4.
  pose proof (land_word q r (-1) 1 Hr ltac:(lia)) as H5.
  change (4 * -1 + 1) with (Z.lnot PREVFREE) in H5.
  rewrite H1, H2, H3, H4, H5.
  rewrite Z.land_m1_r, !Z.land_0_r, Z.lor_0_r.
  destruct (small_cases r Hr) as [-> | [-> | [-> | ->]]];
    eval_closed Z.land; eval_closed Z.lor; eval_closed Z.modulo;
    eval_closed Z.div; repeat split; lia.
Qed.

Lemma hdr_decompose (w : Z) :
  w = hdr_size w + hdr_used w + hdr_pf w
  /\ hdr_size w mod 4 = 0
  /\ (hdr_used w = 0 \/ hdr_used w = 1)
  /\ (hdr_pf w = 0 \/ hdr_pf w = 2).
Proof.
  destruct (word_split w) as [E Hr].
  destruct (hdr_parts (w / 4) (w mod 4) Hr) as (Hs & Hu & Hp & _).
  rewrite <- E in Hs, Hu, Hp. rewrite Hs, Hu, Hp.
  split; [|split; [|split]].
  - rewrite E at 1.
    destruct (small_cases _ Hr) as [-> | [-> | [-> | ->]]];
      eval_closed Z.modulo; eval_closed Z.div; lia.
  - rewrite Z.mul_comm. apply Z.mod_mul. lia.
  - destruct (small_cases _ Hr) as [-> | [-> | [-> | ->]]];
      eval_closed Z.modulo; lia.
  - destruct (small_cases _ Hr) as [-> | [-> | [-> | ->]]];
      eval_closed Z.div; lia.
Qed.

(** Packing a size that is a multiple of 4 with flags below 4. *)
Lemma pack_parts (sz f : Z) :
  sz mod 4 = 0 -> 0 <= f < 4 ->
  PACK sz f = sz + f
  /\ hdr_size (sz + f) = sz
  /\ hdr_used (sz + f) = f mod 2
  /\ hdr_pf (sz + f) = 2 * (f / 2).
Proof.
  intros Hs Hf.
  assert (sz = 4 * (sz / 4)) as E.
  { pose proof (Z.div_mod sz 4 ltac:(lia)). lia. }
  destruct (hdr_parts (sz / 4) f Hf) as (H1 & H2 & H3 & _).
  rewrite <- E in H1, H2, H3.
  repeat split; try assumption.
  unfold PACK. rewrite E at 1.
  replace (4 * (sz / 4)) with (4 * (sz / 4) + 0) at 1 by lia.
  replace f with (4 * 0 + f) at 1 by lia.
  rewrite lor_word by lia. rewrite Z.lor_0_r, Z.lor_0_l. lia.
Qed.

Lemma set_pf_parts (w : Z) :
  Z.lor w PREVFREE = hdr_size w + hdr_used w + 2.
Proof.
  destruct (word_split w) as [E Hr].
  destruct (hdr_parts (w / 4) (w mod 4) Hr) as (Hs & Hu & _ & Hl & _).
  rewrite <- E in Hs, Hu, Hl. lia.
Qed.

Lemma clr_pf_parts (w : Z) :
  Z.land w (Z.lnot PREVFREE) = hdr_size w + hdr_used w.
Proof.
  destruct (word_split w) as [E Hr].
  destruct (hdr_parts (w / 4) (w mod 4) Hr) as (Hs & Hu & _ & _ & Hl).
  rewrite <- E in Hs, Hu, Hl. lia.
Qed.

(** ** Reading a heap after a write *)

Lemma load_PUT_eq (h : heap) (p v : Z) : load (PUT h p v) p = to_word v.
Proof. unfold load, PUT. cbn. rewrite lookup_insert_eq. reflexivity. Qed.

Lemma load_PUT_ne (h : heap) (p v x : Z) :
  x <> p -> load (PUT h p v) x = load h x.
Proof.
  intros H. unfold load, PUT. cbn. rewrite lookup_insert_ne by congruence.
  reflexivity.
Qed.

Lemma load_write_bucket (h : heap) (i v x : Z) :
  load (write_bucket h i v) x = load h x.
Proof. reflexivity. Qed.

Lemma load_set_last (h : heap) (p x : Z) : load (set_last h p) x = load h x.
Proof. reflexivity. Qed.

Lemma load_set_heap_epilogue (h : heap) (p x : Z) :
  load (set_heap_epilogue h p) x = load h x.
Proof. reflexivity. Qed.

Lemma load_set_brk (h : heap) (p x : Z) : load (set_brk h p) x = load h x.
Proof. reflexivity. Qed.

Lemma read_bucket_PUT (h : heap) (p v j : Z) :
  read_bucket (PUT h p v) j = read_bucket h j.
Proof. reflexivity. Qed.

Lemma read_bucket_set_last (h : heap) (p j : Z) :
  read_bucket (set_last h p) j = read_bucket h j.
Proof. reflexivity. Qed.

Lemma read_bucket_write_eq (h : heap) (j v : Z) :
  length (segregated_list h) = Z.to_nat N_BUCKETS ->
  0 <= j < N_BUCKETS ->
  read_bucket (write_bucket h j v) j = v.
Proof.
  intros Hl Hj. unfold read_bucket, write_bucket. cbn.
  rewrite (proj2 (Z.leb_le 0 j)), (proj2 (Z.ltb_lt j N_BUCKETS)) by lia.
  cbn. rewrite list_lookup_insert_eq by lia. reflexivity.
Qed.

Lemma read_bucket_write_ne (h : heap) (i j v : Z) :
  0 <= i -> 0 <= j -> i <> j ->
  read_bucket (write_bucket h i v) j = read_bucket h j.
Proof.
  intros Hi Hj Hn. unfold read_bucket, write_bucket. cbn.
  rewrite list_lookup_insert_ne by lia. reflexivity.
Qed.

Lemma length_write_bucket (h : heap) (i v : Z) :
  length (segregated_list (write_bucket h i v)) = length (segregated_list h).
Proof. unfold write_bucket. cbn. apply length_insert. Qed.

(** The header accessors read one word. *)
Lemma bt_size_load (h : heap) (a : Z) : bt_size h a = hdr_size (load h a).
Proof. reflexivity. Qed.

Lemma bt_used_load (h : heap) (a : Z) : bt_used h a = hdr_used (load h a).
Proof. reflexivity. Qed.

Lemma bt_get_prevfree_load (h : heap) (a : Z) :
  bt_get_prevfree h a = hdr_pf (load h a).
Proof. reflexivity. Qed.

(** Two heaps that agree on a word agree on what the accessors say of it. *)
Lemma accessors_same (h h' : heap) (a : Z) :
  load h' a = load h a ->
  bt_size h' a = bt_size h a
  /\ bt_used h' a = bt_used h a
  /\ bt_get_prevfree h' a = bt_get_prevfree h a.
Proof.
  intros E. rewrite !bt_size_load, !bt_used_load, !bt_get_prevfree_load, E.
  repeat split.
Qed.

(** ** Facts about the layout *)

Section Layout.
Variables (h : heap) (B : gmap Z (Z * status)).
Hypothesis G : geometry h B.

Lemma block_bounds (a sz : Z) (st : status) :
  B !! a = Some (sz, st) ->
  12 <= heap_start h <= a /\ a + 4 * sz <= heap_epilogue h
  /\ 4 <= sz <= 2 ^ 31 - 4 /\ sz mod 4 = 0 /\ a mod 4 = 0
  /\ heap_start h mod 4 = 0
  /\ heap_epilogue h - heap_start h < 2 ^ 33 - 4.
Proof.
  intros Hb.
  destruct (geo_block h B G a sz st Hb) as (H1 & H2 & H3 & H4 & H5).
  destruct (geo_start h B G) as [H6 H7].
  destruct (geo_brk h B G) as (H8 & H9 & H10).
  unfold WSIZE in *.
  assert (heap_start h mod 4 = 0) as H11.
  { pose proof (Z.div_mod (heap_start h) 16 ltac:(lia)).
    pose proof (Z.div_mod (heap_start h) 4 ltac:(lia)).
    pose proof (Z.mod_pos_bound (heap_start h) 4 ltac:(lia)). lia. }
  pose proof (Z.div_mod sz 4 ltac:(lia)).
  repeat split; lia.
Qed.

(** An address inside one block is not an address inside another. *)
Lemma blocks_apart (a sza : Z) (sta : status) (b szb : Z) (stb : status)
      (x y : Z) :
  B !! a = Some (sza, sta) -> B !! b = Some (szb, stb) -> a <> b ->
  a <= x < a + 4 * sza -> b <= y < b + 4 * szb -> x <> y.
Proof.
  intros Ha Hb Hn Hx Hy.
  destruct (geo_disjoint h B G a sza sta b szb stb Ha Hb) as [E | [E | E]];
    unfold WSIZE in *; lia.
Qed.

(** A block start is not strictly inside a block. *)
Lemma start_not_inside (a sza : Z) (sta : status) (b szb : Z) (stb : status)
      (x : Z) :
  B !! a = Some (sza, sta) -> B !! b = Some (szb, stb) ->
  a < x < a + 4 * sza -> x <> b.
Proof.
  intros Ha Hb Hx.
  destruct (geo_disjoint h B G a sza sta b szb stb Ha Hb) as [E | [E | E]];
    unfold WSIZE in *; try lia.
  pose proof (block_bounds b szb stb Hb). lia.
Qed.

(** The link stored for a block is its word offset, and reads back as its
    address. *)
Lemma link_of_block (a sz : Z) (st : status) :
  B !! a = Some (sz, st) ->
  0 <= ptr_diff a (heap_start h) < 2 ^ 31
  /\ heap_start h + WSIZE * ptr_diff a (heap_start h) = a
  /\ to_word (ptr_diff a (heap_start h)) = ptr_diff a (heap_start h).
Proof.
  intros Hb. pose proof (block_bounds a sz st Hb) as Hbb.
  unfold ptr_diff, WSIZE.
  assert ((a - heap_start h) mod 4 = 0) as Hm.
  { rewrite Zminus_mod. replace (a mod 4) with 0 by lia.
    replace (heap_start h mod 4) with 0 by lia. reflexivity. }
  pose proof (Z.div_mod (a - heap_start h) 4 ltac:(lia)) as Hd.
  assert (0 <= (a - heap_start h) / 4 < 2 ^ 31) as Hr by lia.
  split; [exact Hr|]. split; [lia|].
  apply to_word_small. lia.
Qed.

Lemma link_of_sentinel :
  ptr_diff (sentinel h) (heap_start h) = -1
  /\ to_word (ptr_diff (sentinel h) (heap_start h)) = -1.
Proof.
  unfold ptr_diff, sentinel, WSIZE.
  replace (heap_start h - 4 - heap_start h) with (-4) by lia.
  split; reflexivity.
Qed.

Lemma link_of_sentinel_word :
  to_word (ptr_diff (sentinel h) (heap_start h))
  = ptr_diff (sentinel h) (heap_start h).
Proof. destruct link_of_sentinel as [E1 E2]. rewrite E2, E1. reflexivity. Qed.

Lemma sentinel_not_block (a sz : Z) (st : status) :
  B !! a = Some (sz, st) -> a <> sentinel h /\ a <> NULL /\ sentinel h <> NULL.
Proof.
  intros Hb. pose proof (block_bounds a sz st Hb).
  unfold sentinel, WSIZE, NULL. lia.
Qed.

End Layout.

(** ** Frames: what a write leaves alone *)

Lemma geometry_same (h h' : heap) (B : gmap Z (Z * status)) :
  same_globals h h' -> geometry h B -> geometry h' B.
Proof.
  intros (E1 & E2 & E3 & E4 & E5) [G1 G2 G3 G4 G5 G6].
  constructor; rewrite ?E1, ?E2, ?E3, ?E4, ?E5; assumption.
Qed.

Lemma covered_same (h h' : heap) (B : gmap Z (Z * status)) :
  heap_epilogue h' = heap_epilogue h -> covered h B -> covered h' B.
Proof. intros E Hc a sz st Ha. rewrite E. exact (Hc a sz st Ha). Qed.

Lemma last_ok_same (h h' : heap) (B : gmap Z (Z * status)) :
  heap_epilogue h' = heap_epilogue h -> last h' = last h ->
  last_ok h B -> last_ok h' B.
Proof. intros E1 E2 Hl. unfold last_ok. rewrite E1, E2. exact Hl. Qed.

Lemma same_globals_refl (h : heap) : same_globals h h.
Proof. repeat split. Qed.

Lemma same_globals_trans (h1 h2 h3 : heap) :
  same_globals h1 h2 -> same_globals h2 h3 -> same_globals h1 h3.
Proof.
  intros (A1 & A2 & A3 & A4 & A5) (B1 & B2 & B3 & B4 & B5).
  repeat split; congruence.
Qed.

Lemma same_globals_PUT (h : heap) (p v : Z) : same_globals h (PUT h p v).
Proof. repeat split. Qed.

Lemma same_globals_write_bucket (h : heap) (i v : Z) :
  same_globals h (write_bucket h i v).
Proof. repeat split. Qed.

Lemma same_globals_set_last (h : heap) (p : Z) : same_globals h (set_last h p).
Proof. repeat split. Qed.

Lemma geometry_PUT (h : heap) (B : gmap Z (Z * status)) (p v : Z) :
  geometry h B -> geometry (PUT h p v) B.
Proof. apply geometry_same. repeat split. Qed.

Lemma geometry_write_bucket (h : heap) (B : gmap Z (Z * status)) (i v : Z) :
  geometry h B -> geometry (write_bucket h i v) B.
Proof. apply geometry_same. repeat split. Qed.

Lemma headers_same (h h' : heap) (B : gmap Z (Z * status)) :
  (forall a sz st, B !! a = Some (sz, st) ->
     load h' a = load h a
     /\ (st <> Used ->
         load h' (a + WSIZE * sz - WSIZE) = load h (a + WSIZE * sz - WSIZE))) ->
  headers h B -> headers h' B.
Proof.
  intros Hs Hh a sz st Hb.
  destruct (Hs a sz st Hb) as [E1 E2].
  destruct (Hh a sz st Hb) as (H1 & H2 & H3 & H4).
  destruct (accessors_same h h' a E1) as (A1 & A2 & A3).
  rewrite A1, A2, A3. repeat split; try assumption.
  intros Hst. destruct (accessors_same h h' _ (E2 Hst)) as (A4 & _).
  rewrite A4. auto.
Qed.

Lemma headers_write_bucket (h : heap) (B : gmap Z (Z * status)) (i v : Z) :
  headers h B -> headers (write_bucket h i v) B.
Proof. apply headers_same. intros a sz st _. split; reflexivity. Qed.

Lemma dseg_same (h h' : heap) (L : list Z) :
  heap_start h' = heap_start h ->
  forall prev nxt,
  (forall a, In a L ->
     load h' (a + WSIZE) = load h (a + WSIZE)
     /\ load h' (a + 2 * WSIZE) = load h (a + 2 * WSIZE)) ->
  dseg h prev L nxt -> dseg h' prev L nxt.
Proof.
  intros Es. induction L as [|a L IH]; intros prev nxt Hs Hd; [exact I|].
  cbn [dseg] in *. destruct Hd as (H1 & H2 & H3).
  destruct (Hs a (or_introl eq_refl)) as [E1 E2].
  rewrite E1, E2, Es. repeat split; try assumption.
  apply IH; [|assumption]. intros b Hb. apply Hs. right. exact Hb.
Qed.

Lemma dseg_app (h : heap) (L1 L2 : list Z) :
  forall prev nxt,
  dseg h prev (L1 ++ L2) nxt
  <-> dseg h prev L1 (hd nxt L2) /\ dseg h (List.last L1 prev) L2 nxt.
Proof.
  induction L1 as [|a L1 IH]; intros prev nxt.
  - cbn. tauto.
  - cbn [app dseg]. rewrite IH.
    assert (hd nxt (L1 ++ L2) = hd (hd nxt L2) L1) as ->.
    { destruct L1; reflexivity. }
    assert (List.last (a :: L1) prev = List.last L1 a) as ->.
    { clear. revert a. induction L1 as [|b L1 IH]; intros a; [reflexivity|].
      cbn [List.last] in *. destruct L1; [reflexivity|]. apply IH. }
    tauto.
Qed.

Lemma payload_frame_refl (B : gmap Z (Z * status)) (h : heap) :
  payload_frame B h h.
Proof. intros a sz x _ _. reflexivity. Qed.

Lemma payload_frame_trans (B : gmap Z (Z * status)) (h1 h2 h3 : heap) :
  payload_frame B h1 h2 -> payload_frame B h2 h3 -> payload_frame B h1 h3.
Proof.
  intros H12 H23 a sz x Hb Hx.
  rewrite (H23 a sz x Hb Hx). apply (H12 a sz x Hb Hx).
Qed.

Lemma payload_frame_sub (B B' : gmap Z (Z * status)) (h h' : heap) :
  (forall a sz, B !! a = Some (sz, Used) -> B' !! a = Some (sz, Used)) ->
  payload_frame B' h h' -> payload_frame B h h'.
Proof. intros Hs Hf a sz x Hb Hx. apply (Hf a sz x (Hs a sz Hb) Hx). Qed.

Lemma payload_frame_PUT (h : heap) (B : gmap Z (Z * status)) (p v : Z) :
  geometry h B -> meta h B p -> payload_frame B h (PUT h p v).
Proof.
  intros G Hm c szc x Hc Hx. apply load_PUT_ne.
  destruct Hm as [(a & sz & st & Ha & [-> | [Hst Hp]]) | Hp].
  - apply (start_not_inside h B G c szc Used a sz st x Hc Ha).
    unfold WSIZE in *. lia.
  - assert (c <> a) as Hn by (intros ->; congruence).
    apply (blocks_apart h B G c szc Used a sz st x p Hc Ha Hn);
      unfold WSIZE in *; lia.
  - pose proof (block_bounds h B G c szc Used Hc).
    unfold WSIZE in *. lia.
Qed.

Lemma payload_frame_write_bucket (h : heap) (B : gmap Z (Z * status))
      (i v : Z) :
  payload_frame B h (write_bucket h i v).
Proof. intros a sz x _ _. reflexivity. Qed.

Lemma payload_frame_other (h : heap) (B : gmap Z (Z * status)) (h' : heap) :
  (forall x, load h' x = load h x) -> payload_frame B h h'.
Proof. intros E a sz x _ _. apply E. Qed.

(** ** Changing the status of a free block *)

Section Restatus.
Variables (h : heap) (B : gmap Z (Z * status)).
Variables (bt sz : Z) (st st' : status).
Hypothesis Hbt : B !! bt = Some (sz, st).

Lemma restatus_lookup (a sza : Z) (sta : status) :
  <[bt := (sz, st')]> B !! a = Some (sza, sta) ->
  exists sta0, B !! a = Some (sza, sta0)
               /\ (a = bt /\ sta = st' \/ a <> bt /\ sta = sta0).
Proof.
  intros H. apply lookup_insert_Some in H.
  destruct H as [[<- E] | [Hn H]].
  - inversion E; subst. exists st. auto.
  - exists sta. split; [assumption|]. right. split; congruence.
Qed.

Lemma geometry_restatus : geometry h B -> geometry h (<[bt := (sz, st')]> B).
Proof.
  intros [G1 G2 G3 G4 G5 G6]. constructor; try assumption.
  - intros a sza sta Ha.
    destruct (restatus_lookup a sza sta Ha) as (s0 & H0 & _). eauto.
  - intros a sza sta b szb stb Ha Hb.
    destruct (restatus_lookup a sza sta Ha) as (s0 & H0 & _).
    destruct (restatus_lookup b szb stb Hb) as (s1 & H1 & _). eauto.
Qed.

Lemma covered_restatus : covered h B -> covered h (<[bt := (sz, st')]> B).
Proof.
  intros Hc a sza sta Ha.
  destruct (restatus_lookup a sza sta Ha) as (s0 & H0 & _).
  destruct (Hc a sza s0 H0) as [E | [[s2 t2] H2]]; [left; exact E|].
  right. destruct (decide (a + WSIZE * sza = bt)) as [E | N].
  - rewrite E, lookup_insert_eq. eauto.
  - rewrite lookup_insert_ne by congruence. eauto.
Qed.

Lemma last_ok_restatus : last_ok h B -> last_ok h (<[bt := (sz, st')]> B).
Proof.
  intros [E | (s0 & t0 & H0 & E)]; [left; exact E|].
  right. destruct (decide (last h = bt)) as [El | N].
  - rewrite El in *. rewrite lookup_insert_eq.
    assert (s0 = sz) by congruence. subst. eauto.
  - rewrite lookup_insert_ne by congruence. eauto.
Qed.

Lemma headers_restatus :
  st <> Used -> st' <> Used ->
  headers h B -> headers h (<[bt := (sz, st')]> B).
Proof.
  intros Hs Hs' Hh a sza sta Ha.
  destruct (restatus_lookup a sza sta Ha) as (s0 & H0 & Hc).
  destruct (Hh a sza s0 H0) as (H1 & H2 & H3 & H4).
  assert (used_bit sta = used_bit s0 /\ (sta <> Used -> s0 <> Used)) as [Eu Hu].
  { destruct Hc as [[-> ->] | [_ ->]]; [|tauto].
    assert (s0 = st) by congruence. subst.
    destruct st, st'; try congruence; split; try reflexivity; congruence. }
  rewrite Eu. repeat split; try assumption; [auto|].
  intros Hp. destruct (H4 Hp) as (p & szp & stp & Hpb & Hps & Hpe).
  destruct (decide (p = bt)) as [-> | N].
  - exists bt, sz, st'. rewrite lookup_insert_eq.
    assert (szp = sz) by congruence. subst. auto.
  - exists p, szp, stp. rewrite lookup_insert_ne by congruence. auto.
Qed.

Lemma payload_frame_restatus (h1 h2 : heap) :
  st' <> Used ->
  payload_frame B h1 h2 -> payload_frame (<[bt := (sz, st')]> B) h1 h2.
Proof.
  intros Hs Hf a sza x Ha Hx.
  destruct (restatus_lookup a sza Used Ha) as (s0 & H0 & Hc).
  destruct Hc as [[-> E] | [_ <-]]; [congruence|].
  apply (Hf a sza x H0 Hx).
Qed.

End Restatus.

(** ** Writing a link of a free block *)

Lemma size_class_range (w : Z) : 0 <= size_class w < N_BUCKETS.
Proof. unfold N_BUCKETS. split_size_class; lia. Qed.

Section LinkWrite.
Variables (h : heap) (B : gmap Z (Z * status)).
Variables (a sz : Z) (st : status) (k v : Z).
Hypothesis G : geometry h B.
Hypothesis Ha : B !! a = Some (sz, st).
Hypothesis Hst : st <> Used.
Hypothesis Hk : 0 < k < 12.

Lemma PUT_link_headers : headers h B -> headers (PUT h (a + k) v) B.
Proof.
  apply headers_same. intros c szc stc Hc.
  pose proof (block_bounds h B G a sz st Ha) as Hba.
  pose proof (block_bounds h B G c szc stc Hc) as Hbc.
  split.
  - apply load_PUT_ne. apply not_eq_sym.
    apply (start_not_inside h B G a sz st c szc stc (a + k) Ha Hc). lia.
  - intros Hs. apply load_PUT_ne. unfold WSIZE.
    destruct (decide (c = a)) as [-> | N].
    + assert (szc = sz) by congruence. subst. lia.
    + apply (blocks_apart h B G c szc stc a sz st _ _ Hc Ha N); lia.
Qed.

Lemma PUT_link_other (c szc : Z) (stc : status) (k' : Z) :
  B !! c = Some (szc, stc) -> c <> a -> 0 <= k' < 16 ->
  load (PUT h (a + k) v) (c + k') = load h (c + k').
Proof.
  intros Hc N Hk'. apply load_PUT_ne.
  pose proof (block_bounds h B G a sz st Ha) as Hba.
  pose proof (block_bounds h B G c szc stc Hc) as Hbc.
  apply (blocks_apart h B G c szc stc a sz st _ _ Hc Ha N); lia.
Qed.

Lemma PUT_link_payload : payload_frame B h (PUT h (a + k) v).
Proof.
  apply payload_frame_PUT; [exact G|].
  left. exists a, sz, st. split; [exact Ha|]. right.
  pose proof (block_bounds h B G a sz st Ha). unfold WSIZE. split; [exact Hst|lia].
Qed.

End LinkWrite.

(** ** The buckets of a well-formed heap *)

Section Buckets.
Variables (h : heap) (B : gmap Z (Z * status)) (F : Z -> list Z).
Hypothesis HI : Inv h B F.

Lemma Inv_geometry : geometry h B.
Proof. exact (proj1 HI). Qed.

Lemma Inv_headers : headers h B.
Proof. exact (proj1 (proj2 HI)). Qed.

Lemma Inv_lists : lists h B F.
Proof. exact (proj2 (proj2 HI)). Qed.

Lemma listed_block (j a : Z) :
  0 <= j < N_BUCKETS -> In a (F j) ->
  exists sz, B !! a = Some (sz, Listed) /\ size_class sz = j.
Proof.
  intros Hj Hin. destruct Inv_lists as (_ & Hb & _).
  destruct (Hb j Hj) as (_ & _ & _ & He). exact (He a Hin).
Qed.

Lemma block_bucket (a sz : Z) (st : status) :
  B !! a = Some (sz, st) ->
  bucket_index h (bt_size h a) = Done (size_class sz) h.
Proof.
  intros Ha. destruct (Inv_headers a sz st Ha) as (Hs & _).
  pose proof (block_bounds h B Inv_geometry a sz st Ha).
  unfold bucket_index. rewrite Hs, find_bucket_size_class by lia.
  reflexivity.
Qed.

(** Blocks in the lists of two different buckets are different. *)
Lemma buckets_apart (i j a b : Z) :
  0 <= i < N_BUCKETS -> 0 <= j < N_BUCKETS -> i <> j ->
  In a (F i) -> In b (F j) -> a <> b.
Proof.
  intros Hi Hj N Ha Hb E. subst b.
  destruct (listed_block i a Hi Ha) as (s1 & H1 & E1).
  destruct (listed_block j a Hj Hb) as (s2 & H2 & E2).
  congruence.
Qed.

(** What the head link of a list reads back as. *)
Lemma head_link (L : list Z) (p : Z) :
  (forall a, In a L -> exists sz st, B !! a = Some (sz, st)) ->
  load h p = ptr_diff (hd (sentinel h) L) (heap_start h) ->
  (if load h p <? 0 then NULL else heap_start h + WSIZE * load h p)
  = match L with [] => NULL | a :: _ => a end.
Proof.
  intros Hb E. rewrite E. destruct L as [|a L]; cbn [hd].
  - rewrite (proj1 (link_of_sentinel h)). reflexivity.
  - destruct (Hb a (or_introl eq_refl)) as (sz & st & Ha).
    destruct (link_of_block h B Inv_geometry a sz st Ha) as (Hr & Hv & _).
    rewrite (proj2 (Z.ltb_ge _ 0)) by lia. exact Hv.
Qed.

End Buckets.

(** ** Inserting a block into its bucket *)

Lemma link_decode (h : heap) (B : gmap Z (Z * status)) (L : list Z) (v : Z) :
  geometry h B ->
  (forall a, In a L -> exists sz st, B !! a = Some (sz, st)) ->
  v = ptr_diff (hd (sentinel h) L) (heap_start h) ->
  (if v <? 0 then NULL else heap_start h + WSIZE * v)
  = match L with [] => NULL | a :: _ => a end.
Proof.
  intros G Hb ->. destruct L as [|a L]; cbn [hd].
  - rewrite (proj1 (link_of_sentinel h)). reflexivity.
  - destruct (Hb a (or_introl eq_refl)) as (sz & st & Ha).
    destruct (link_of_block h B G a sz st Ha) as (Hr & Hv & _).
    rewrite (proj2 (Z.ltb_ge _ 0)) by lia. exact Hv.
Qed.

(** Separation of two different blocks, with their bounds. *)
Lemma sep (h : heap) (B : gmap Z (Z * status))
      (a sza : Z) (sta : status) (b szb : Z) (stb : status) :
  geometry h B ->
  B !! a = Some (sza, sta) -> B !! b = Some (szb, stb) -> a <> b ->
  (a + 4 * sza <= b \/ b + 4 * szb <= a) /\ 4 <= sza /\ 4 <= szb.
Proof.
  intros G Ha Hb N.
  pose proof (block_bounds h B G a sza sta Ha).
  pose proof (block_bounds h B G b szb stb Hb).
  destruct (geo_disjoint h B G a sza sta b szb stb Ha Hb) as [E | E];
    unfold WSIZE in *; [congruence | lia].
Qed.

Ltac loads :=
  repeat first
    [ rewrite load_PUT_eq
    | rewrite load_write_bucket
    | rewrite load_set_last
    | rewrite load_PUT_ne by (unfold WSIZE in *; lia) ].

Lemma free_list_append_spec (h : heap) (B : gmap Z (Z * status))
      (F : Z -> list Z) (bt sz : Z) :
  Inv h B F -> B !! bt = Some (sz, Loose) ->
  exists h',
    free_list_append h bt = Done tt h'
    /\ Inv h' (<[bt := (sz, Listed)]> B)
              (set_list F (size_class sz) (bt :: F (size_class sz)))
    /\ same_globals h h' /\ last h' = last h
    /\ payload_frame B h h'.
Proof.
  intros HI Hbt.
  pose proof (Inv_geometry h B F HI) as G.
  pose proof (Inv_headers h B F HI) as HH.
  destruct (Inv_lists h B F HI) as (Hlen & Hbk & Hcomp).
  set (j := size_class sz).
  pose proof (size_class_range sz) as Hj. fold j in Hj.
  destruct (Hbk j Hj) as (Hhd & Hds & Hnd & Hel).
  pose proof (block_bounds h B G bt sz Loose Hbt) as Hbb.
  assert (forall a, In a (F j) -> a <> bt) as Hnbt.
  { intros a Hin ->. destruct (Hel bt Hin) as (s & Hs & _). congruence. }
  set (B' := <[bt := (sz, Listed)]> B).
  assert (geometry h B') as G' by (apply (geometry_restatus h B bt sz Loose); assumption).
  assert (headers h B') as HH'
    by (apply (headers_restatus h B bt sz Loose); auto; discriminate).
  assert (B' !! bt = Some (sz, Listed)) as Hbt' by apply lookup_insert_eq.
  assert (forall a s t, a <> bt -> B !! a = Some (s, t) -> B' !! a = Some (s, t))
    as Hkeep.
  { intros a s t N Ha. unfold B'. rewrite lookup_insert_ne by congruence.
    exact Ha. }
  unfold free_list_append.
  rewrite (block_bucket h B F HI bt sz Loose Hbt). cbn [bind]. fold j.
  unfold set_free_list_prev, set_free_list_next.
  set (h1 := PUT h (bt + 2 * WSIZE) _).
  set (h2 := PUT h1 (bt + WSIZE) _).
  set (h3 := write_bucket h2 j bt).
  assert (load h3 (bt + 2 * WSIZE) = -1) as E8.
  { unfold h3, h2, h1. loads.
    change (heap_start h - WSIZE) with (sentinel h).
    apply (proj2 (link_of_sentinel h)). }
  assert (load h3 (bt + WSIZE)
          = ptr_diff (hd (sentinel h) (F j)) (heap_start h)) as E4.
  { unfold h3, h2. loads. change (read_bucket h1 j) with (read_bucket h j).
    change (heap_start h1) with (heap_start h). rewrite Hhd.
    destruct (F j) as [|a0 L0] eqn:EF; cbn [hd].
    - destruct (link_of_sentinel h) as [Ea Eb]. rewrite Eb, Ea. reflexivity.
    - destruct (Hel a0 (or_introl eq_refl)) as (s0 & H0 & _).
      apply (link_of_block h B G a0 s0 Listed H0). }
  assert (get_free_list_next h3 bt
          = match F j with [] => NULL | a :: _ => a end) as En.
  { unfold get_free_list_next. change (heap_start h3) with (heap_start h).
    apply (link_decode h B (F j) _ G); [|exact E4].
    intros a Hin. destruct (Hel a Hin) as (s & Hs & _). eauto. }
  assert (geometry h3 B') as G3
    by (apply (geometry_same h h3); [repeat split | exact G']).
  assert (headers h3 B') as HH3.
  { unfold h3. change (headers h2 B'). unfold h2.
    apply (PUT_link_headers h1 B' bt sz Listed);
      [apply geometry_PUT; exact G' | exact Hbt' | unfold WSIZE; lia |].
    unfold h1.
    apply (PUT_link_headers h B' bt sz Listed);
      [exact G' | exact Hbt' | unfold WSIZE; lia | exact HH']. }
  assert (payload_frame B h h3) as PF3.
  { apply (payload_frame_trans B h h1 h3).
    - apply (PUT_link_payload h B bt sz Loose);
        [exact G | exact Hbt | discriminate | unfold WSIZE; lia].
    - change (payload_frame B h1 h2).
      apply (PUT_link_payload h1 B bt sz Loose);
        [apply geometry_PUT; exact G | exact Hbt | discriminate
        | unfold WSIZE; lia]. }
  (* the other blocks keep their links up to [h3] *)
  assert (forall c s t, B !! c = Some (s, t) -> c <> bt ->
            load h3 (c + WSIZE) = load h (c + WSIZE)
            /\ load h3 (c + 2 * WSIZE) = load h (c + 2 * WSIZE)) as Hoth.
  { intros c s t Hc N.
    destruct (sep h B c s t bt sz Loose G Hc Hbt N) as (Hd & ? & ?).
    unfold h3, h2, h1. split; loads; reflexivity. }
  rewrite En.
  destruct (F j) as [|a0 L0] eqn:EF.
  - (* the bucket was empty *)
    cbn [Z.eqb NULL negb]. exists h3.
    split; [reflexivity|]. split; [|split; [|split]]; try assumption.
    + split; [|split]; [exact G3 | exact HH3 |].
      split; [|split].
      * unfold h3. rewrite length_write_bucket. exact Hlen.
      * intros i Hi. unfold set_list.
        destruct (Z.eqb_spec i j) as [-> | N].
        -- split; [|split; [|split]].
           ++ unfold h3. apply read_bucket_write_eq; assumption.
           ++ cbn [dseg hd]. change (heap_start h3) with (heap_start h).
              change (sentinel h3) with (sentinel h).
              rewrite E8, E4. cbn [hd].
              rewrite (proj1 (link_of_sentinel h)). auto.
           ++ constructor; [intros []|constructor].
           ++ intros a [<- | []]. exists sz. auto.
        -- destruct (Hbk i Hi) as (Hhd' & Hds' & Hnd' & Hel').
           split; [|split; [|split]]; try assumption.
           ++ unfold h3. rewrite read_bucket_write_ne by lia. exact Hhd'.
           ++ apply (dseg_same h h3); [reflexivity| |exact Hds'].
              intros c Hin. destruct (Hel' c Hin) as (s & Hs & Ec).
              apply (Hoth c s Listed Hs). intros ->. congruence.
           ++ intros c Hin. destruct (Hel' c Hin) as (s & Hs & Ec).
              exists s. split; [|exact Ec]. apply Hkeep; [|exact Hs].
              intros ->. congruence.
      * intros a s Ha. unfold set_list.
        apply lookup_insert_Some in Ha. destruct Ha as [[<- E] | [N Ha]].
        -- inversion E; subst. fold j. rewrite Z.eqb_refl. left. reflexivity.
        -- destruct (Z.eqb_spec (size_class s) j) as [E | N'].
           ++ pose proof (Hcomp a s Ha) as Hin. rewrite E, EF in Hin.
              destruct Hin.
           ++ apply (Hcomp a s Ha).
    + repeat split.
    + reflexivity.
  - (* the bucket had a head [a0] *)
    destruct (Hel a0 (or_introl eq_refl)) as (s0 & H0 & Ec0).
    pose proof (block_bounds h B G a0 s0 Listed H0) as Hb0.
    assert (a0 <> bt) as N0 by (apply Hnbt; left; reflexivity).
    destruct (sep h B a0 s0 Listed bt sz Loose G H0 Hbt N0) as (Hd0 & _ & _).
    rewrite (proj2 (Z.eqb_neq a0 NULL)) by (unfold NULL; lia). cbn [negb].
    set (h4 := PUT h3 (a0 + 2 * WSIZE) _). exists h4.
    split; [reflexivity|].
    apply List.NoDup_cons_iff in Hnd. destruct Hnd as [Hn0 Hnd0].
    assert (forall c s t, B !! c = Some (s, t) -> c <> bt -> c <> a0 ->
              load h4 (c + WSIZE) = load h (c + WSIZE)
              /\ load h4 (c + 2 * WSIZE) = load h (c + 2 * WSIZE)) as Hoth4.
    { intros c s t Hc N1 N2.
      destruct (Hoth c s t Hc N1) as [E1 E2].
      destruct (sep h B c s t a0 s0 Listed G Hc H0 N2) as (Hd & ? & ?).
      unfold h4. split; loads; assumption. }
    split; [|split; [|split]].
    + split; [|split].
      * apply (geometry_same h3 h4); [repeat split | exact G3].
      * unfold h4.
        apply (PUT_link_headers h3 B' a0 s0 Listed);
          [exact G3 | apply Hkeep; assumption | unfold WSIZE; lia | exact HH3].
      * split; [|split].
        -- unfold h4, h3. change (length (segregated_list (write_bucket h2 j bt))
                                  = Z.to_nat N_BUCKETS).
           rewrite length_write_bucket. exact Hlen.
        -- intros i Hi. unfold set_list.
           destruct (Z.eqb_spec i j) as [-> | N].
           ++ split; [|split; [|split]].
              ** unfold h4. rewrite read_bucket_PUT. unfold h3.
                 apply read_bucket_write_eq; assumption.
              ** cbn [dseg hd]. change (heap_start h4) with (heap_start h).
                 change (sentinel h4) with (sentinel h).
                 split; [|split; [|split; [|split]]].
                 --- unfold h4. loads. rewrite E8.
                     symmetry. apply (proj1 (link_of_sentinel h)).
                 --- unfold h4. loads. exact E4.
                 --- unfold h4. loads.
                     apply (link_of_block h B G bt sz Loose Hbt).
                 --- cbn [dseg] in Hds. destruct Hds as (_ & Hd4 & _).
                     unfold h4. loads. unfold h3, h2, h1. loads. exact Hd4.
                 --- cbn [dseg] in Hds. destruct Hds as (_ & _ & Hdr).
                     apply (dseg_same h h4); [reflexivity| |exact Hdr].
                     intros c Hin.
                     destruct (Hel c (or_intror Hin)) as (s & Hs & _).
                     apply (Hoth4 c s Listed Hs).
                     +++ apply Hnbt. right. exact Hin.
                     +++ intros ->. contradiction.
              ** constructor; [|constructor; assumption].
                 intros Hin. apply (Hnbt bt Hin). reflexivity.
              ** intros a [<- | Hin]; [exists sz; auto|].
                 destruct (Hel a Hin) as (s & Hs & Ec). exists s.
                 split; [|exact Ec]. apply Hkeep; [|exact Hs].
                 apply Hnbt. exact Hin.
           ++ destruct (Hbk i Hi) as (Hhd' & Hds' & Hnd' & Hel').
              split; [|split; [|split]]; try assumption.
              ** unfold h4. rewrite read_bucket_PUT. unfold h3.
                 rewrite read_bucket_write_ne by lia. exact Hhd'.
              ** apply (dseg_same h h4); [reflexivity| |exact Hds'].
                 intros c Hin. destruct (Hel' c Hin) as (s & Hs & Ec).
                 apply (Hoth4 c s Listed Hs); intros ->; congruence.
              ** intros c Hin. destruct (Hel' c Hin) as (s & Hs & Ec).
                 exists s. split; [|exact Ec]. apply Hkeep; [|exact Hs].
                 intros ->. congruence.
        -- intros a s Ha. unfold set_list.
           apply lookup_insert_Some in Ha. destruct Ha as [[<- E] | [N Ha]].
           ++ inversion E; subst. fold j. rewrite Z.eqb_refl. left. reflexivity.
           ++ destruct (Z.eqb_spec (size_class s) j) as [E | N'].
              ** right. pose proof (Hcomp a s Ha) as Hin.
                 rewrite E, EF in Hin. exact Hin.
              ** apply (Hcomp a s Ha).
    + repeat split.
    + reflexivity.
    + apply (payload_frame_trans B h h3 h4); [exact PF3|].
      unfold h4.
      apply (PUT_link_payload h3 B a0 s0 Listed);
        [apply (geometry_same h h3); [repeat split | exact G]
        | exact H0 | discriminate | unfold WSIZE; lia].
Qed.

(** ** Removing a block from its bucket *)

Lemma link_decode_ptr (h : heap) (B : gmap Z (Z * status)) (q v : Z) :
  geometry h B ->
  q = sentinel h \/ (exists sz st, B !! q = Some (sz, st)) ->
  v = ptr_diff q (heap_start h) ->
  (if v <? 0 then NULL else heap_start h + WSIZE * v)
  = (if decide (q = sentinel h) then NULL else q).
Proof.
  intros G Hq ->. destruct Hq as [-> | (sz & st & Hb)].
  - rewrite (proj1 (link_of_sentinel h)).
    destruct (decide (sentinel h = sentinel h)); [reflexivity | congruence].
  - destruct (link_of_block h B G q sz st Hb) as (Hr & Hv & _).
    rewrite (proj2 (Z.ltb_ge _ 0)) by lia.
    destruct (sentinel_not_block h B G q sz st Hb) as (N & _).
    destruct (decide (q = sentinel h)); [congruence | exact Hv].
Qed.

Lemma last_cons_cons {A : Type} (a b : A) (L : list A) (d : A) :
  List.last (a :: b :: L) d = List.last (b :: L) d.
Proof. reflexivity. Qed.

Lemma last_cons_default {A : Type} (a : A) (L : list A) (d : A) :
  List.last (a :: L) d = List.last L a.
Proof.
  revert a d. induction L as [|b L IH]; intros a d; [reflexivity|].
  rewrite last_cons_cons. rewrite (IH b d), (IH b a). reflexivity.
Qed.

Lemma last_in_or_default {A : Type} (L : list A) (d : A) :
  List.last L d = d /\ L = [] \/ In (List.last L d) L.
Proof.
  revert d. induction L as [|a L IH]; intros d; [left; auto|]. right.
  rewrite last_cons_default.
  destruct (IH a) as [[E1 E2] | Hin].
  - rewrite E1. left. reflexivity.
  - right. exact Hin.
Qed.

(** Unlinking [bt] from a segment: the predecessor's next link and the
    successor's previous link are redirected, every other link stays. *)
Lemma dseg_remove (h h' : heap) (bt : Z) :
  heap_start h' = heap_start h ->
  forall L1 prev L2 nxt,
  List.NoDup (L1 ++ bt :: L2) ->
  ~ In prev (L1 ++ L2) -> ~ In nxt (L1 ++ L2) ->
  (forall c, In c (L1 ++ L2) ->
     load h' (c + WSIZE)
     = (if decide (c = List.last L1 prev)
        then ptr_diff (hd nxt L2) (heap_start h) else load h (c + WSIZE))
     /\ load h' (c + 2 * WSIZE)
        = (if decide (c = hd nxt L2)
           then ptr_diff (List.last L1 prev) (heap_start h)
           else load h (c + 2 * WSIZE))) ->
  dseg h prev (L1 ++ bt :: L2) nxt -> dseg h' prev (L1 ++ L2) nxt.
Proof.
  intros Es. induction L1 as [|a L1 IH]; intros prev L2 nxt Hnd Hp Hn Hl Hd.
  - cbn [app] in *. cbn [dseg] in Hd. destruct Hd as (_ & _ & Hd).
    destruct L2 as [|n L2]; [exact I|].
    apply List.NoDup_cons_iff in Hnd. destruct Hnd as [Hbt Hnd].
    apply List.NoDup_cons_iff in Hnd. destruct Hnd as [Hn2 Hnd].
    cbn [dseg] in *. destruct Hd as (_ & Hd4 & Hd).
    destruct (Hl n (or_introl eq_refl)) as [E4 E8]. cbn [hd List.last] in *.
    rewrite Es.
    destruct (decide (n = prev)) as [-> | _]; [exfalso; apply Hp; left; reflexivity|].
    destruct (decide (n = n)) as [_ | N]; [|congruence].
    rewrite E4, E8. repeat split; try assumption.
    apply (dseg_same h h'); [exact Es| |exact Hd].
    intros c Hc. destruct (Hl c (or_intror Hc)) as [F4 F8].
    cbn [hd List.last] in *.
    destruct (decide (c = prev)) as [-> | _];
      [exfalso; apply Hp; right; exact Hc|].
    destruct (decide (c = n)) as [-> | _]; [contradiction|].
    split; assumption.
  - cbn [app] in *. cbn [dseg] in Hd. destruct Hd as (Hd8 & Hd4 & Hd).
    apply List.NoDup_cons_iff in Hnd. destruct Hnd as [Ha Hnd].
    assert (~ In a (L1 ++ L2)) as Ha'.
    { intros Hin. apply Ha. apply in_app_or in Hin. apply in_or_app.
      destruct Hin; [left; assumption | right; right; assumption]. }
    cbn [dseg]. rewrite Es.
    destruct (Hl a (or_introl eq_refl)) as [E4 E8].
    assert (a <> hd nxt L2) as Nh.
    { intros E. destruct L2 as [|n L2]; cbn [hd] in E.
      - apply Hn. left. congruence.
      - apply Ha'. apply in_or_app. right. left. congruence. }
    destruct (decide (a = hd nxt L2)) as [? | _]; [contradiction|].
    rewrite E8. split; [exact Hd8|].
    rewrite last_cons_default in E4.
    split.
    + rewrite E4. destruct L1 as [|b L1].
      * cbn [List.last app] in *.
        destruct (decide (a = a)); [reflexivity | congruence].
      * assert (a <> List.last (b :: L1) a) as Nl.
        { destruct (last_in_or_default (b :: L1) a) as [[_ E] | Hin];
            [discriminate|].
          intros E. apply Ha'. apply in_or_app. left. rewrite E. exact Hin. }
        destruct (decide (a = List.last (b :: L1) a)); [contradiction|].
        exact Hd4.
    + apply IH; try assumption.
      * intros Hin. apply Hn. right. exact Hin.
      * intros c Hc. destruct (Hl c (or_intror Hc)) as [F4 F8].
        rewrite last_cons_default in F4, F8. split; assumption.
Qed.

Lemma hd_app_cons {A : Type} (L1 L2 : list A) (b d : A) :
  hd d (L1 ++ b :: L2) = hd b L1.
Proof. destruct L1; reflexivity. Qed.

Section Delete.
Variables (h : heap) (B : gmap Z (Z * status)) (F : Z -> list Z).
Variables (bt sz : Z) (L1 L2 : list Z).
Hypothesis HI : Inv h B F.
Hypothesis Hbt : B !! bt = Some (sz, Listed).
Hypothesis EF : F (size_class sz) = L1 ++ bt :: L2.


Lemma delete_facts :
  let j := size_class sz in
  let p := List.last L1 (sentinel h) in
  let n := hd (sentinel h) L2 in
  0 <= j < N_BUCKETS
  /\ List.NoDup (L1 ++ bt :: L2)
  /\ (forall a, In a (L1 ++ bt :: L2) ->
        exists s, B !! a = Some (s, Listed) /\ size_class s = j)
  /\ read_bucket h j = hd bt L1
  /\ load h (bt + 2 * WSIZE) = ptr_diff p (heap_start h)
  /\ load h (bt + WSIZE) = ptr_diff n (heap_start h)
  /\ (L1 = [] /\ p = sentinel h
      \/ L1 <> [] /\ In p L1 /\ hd bt L1 <> bt /\ p <> bt
         /\ exists s, B !! p = Some (s, Listed))
  /\ (L2 = [] /\ n = sentinel h
      \/ In n L2 /\ n <> bt /\ exists s, B !! n = Some (s, Listed)).
Proof.
  intros j p n.
  pose proof (size_class_range sz) as Hj. fold j in Hj.
  destruct (Inv_lists h B F HI) as (Hlen & Hbk & Hcomp).
  destruct (Hbk j Hj) as (Hhd & Hds & Hnd & Hel).
  unfold j in Hhd, Hds, Hnd, Hel. rewrite EF in Hhd, Hds, Hnd, Hel.
  split; [exact Hj|]. split; [exact Hnd|]. split; [exact Hel|].
  split; [unfold j; rewrite Hhd; apply hd_app_cons|].
  apply dseg_app in Hds. destruct Hds as [_ Hds]. cbn [dseg] in Hds.
  destruct Hds as (E8 & E4 & _).
  split; [exact E8|]. split; [exact E4|].
  pose proof (List.NoDup_remove_2 _ _ _ Hnd) as Hnot.
  split.
  - destruct (last_in_or_default L1 (sentinel h)) as [[E1 E2] | Hin].
    + left. auto.
    + right. fold p in Hin.
      assert (L1 <> []) as Hne by (intros ->; destruct Hin).
      split; [exact Hne|]. split; [exact Hin|].
      split; [|split].
      * destruct L1 as [|a L]; [congruence|]. cbn [hd]. intros ->.
        apply Hnot. apply in_or_app. left. left. reflexivity.
      * intros E. apply Hnot. apply in_or_app. left. rewrite <- E. exact Hin.
      * destruct (Hel p) as (s & Hs & _); [|eauto].
        apply in_or_app. left. exact Hin.
  - destruct L2 as [|n0 L2']; [left; auto|]. right.
    unfold n. cbn [hd]. split; [left; reflexivity|]. split.
    + intros ->. apply Hnot. apply in_or_app. right. left. reflexivity.
    + destruct (Hel n0) as (s & Hs & _); [|eauto].
      apply in_or_app. right. right. left. reflexivity.
Qed.

Lemma delete_next :
  let j := size_class sz in
  let p := List.last L1 (sentinel h) in
  let n := hd (sentinel h) L2 in get_free_list_next h bt
                    = if decide (n = sentinel h) then NULL else n.
Proof.
  intros j p n.
  destruct delete_facts as (_ & _ & _ & _ & _ & E4 & _ & Hn).
  unfold get_free_list_next.
  apply (link_decode_ptr h B n _ (Inv_geometry h B F HI)); [|exact E4].
  destruct Hn as [[_ E] | (_ & _ & s & Hs)]; [left; exact E | right; eauto].
Qed.

Lemma delete_prev :
  let j := size_class sz in
  let p := List.last L1 (sentinel h) in
  let n := hd (sentinel h) L2 in get_free_list_prev h bt
                    = if decide (p = sentinel h) then NULL else p.
Proof.
  intros j p n.
  destruct delete_facts as (_ & _ & _ & _ & E8 & _ & Hp & _).
  unfold get_free_list_prev.
  apply (link_decode_ptr h B p _ (Inv_geometry h B F HI)); [|exact E8].
  destruct Hp as [[_ E] | (_ & _ & _ & _ & s & Hs)];
    [left; exact E | right; eauto].
Qed.

End Delete.

Lemma free_list_delete_raw (h : heap) (B : gmap Z (Z * status))
      (F : Z -> list Z) (bt sz : Z) (L1 L2 : list Z) :
  Inv h B F -> B !! bt = Some (sz, Listed) ->
  F (size_class sz) = L1 ++ bt :: L2 ->
  exists h',
    free_list_delete h bt = Done tt h'
    /\ same_globals h h' /\ last h' = last h
    /\ length (segregated_list h') = length (segregated_list h)
    /\ headers h' B /\ payload_frame B h h'
    /\ read_bucket h' (size_class sz) = hd (sentinel h) (L1 ++ L2)
    /\ (forall i, 0 <= i < N_BUCKETS -> i <> size_class sz ->
          read_bucket h' i = read_bucket h i)
    /\ (forall c s t, B !! c = Some (s, t) -> c <> bt ->
          load h' (c + WSIZE)
          = (if decide (c = List.last L1 (sentinel h))
             then ptr_diff (hd (sentinel h) L2) (heap_start h)
             else load h (c + WSIZE))
          /\ load h' (c + 2 * WSIZE)
             = (if decide (c = hd (sentinel h) L2)
                then ptr_diff (List.last L1 (sentinel h)) (heap_start h)
                else load h (c + 2 * WSIZE))).
Proof.
  intros HI Hbt EF.
  pose proof (Inv_geometry h B F HI) as G.
  pose proof (Inv_headers h B F HI) as HH.
  destruct (Inv_lists h B F HI) as (Hlen & _ & _).
  destruct (delete_facts h B F bt sz L1 L2 HI EF)
    as (Hj & Hnd & Hel & Hrd & E8 & E4 & Hp & Hn).
  pose proof (delete_next h B F bt sz L1 L2 HI EF) as Enx.
  pose proof (delete_prev h B F bt sz L1 L2 HI EF) as Epv.
  set (j := size_class sz) in *.
  set (p := List.last L1 (sentinel h)) in *.
  set (n := hd (sentinel h) L2) in *.
  assert (forall c s t, B !! c = Some (s, t) -> c <> sentinel h) as Hns.
  { intros c s t Hc. apply (sentinel_not_block h B G c s t Hc). }
  unfold free_list_delete.
  rewrite (block_bucket h B F HI bt sz Listed Hbt). cbn [bind]. fold j.
  rewrite Hrd, Enx.
  destruct Hp as [[E1 Ep] | (Hne & Hpin & Hhd & Npb & sp & Hsp)].
  - (* [bt] is the head *)
    rewrite E1. cbn [hd app]. rewrite Z.eqb_refl.
    destruct Hn as [[E2 En] | (Hnin & Nnb & sn & Hsn)].
    + (* and the only element *)
      rewrite decide_True by exact En. cbn [Z.eqb NULL andb].
      eexists. split; [reflexivity|].
      split; [repeat split|]. split; [reflexivity|].
      split; [apply length_write_bucket|].
      split; [apply headers_write_bucket; exact HH|].
      split; [apply payload_frame_write_bucket|].
      split; [rewrite E2; apply read_bucket_write_eq; assumption|].
      split; [intros i Hi N; apply read_bucket_write_ne; lia|].
      intros c s t Hc N. rewrite load_write_bucket.
      rewrite !decide_False; [auto | |];
        rewrite ?En, ?Ep; apply (Hns c s t Hc).
    + (* with a successor *)
      pose proof (block_bounds h B G n sn Listed Hsn) as Hbn.
      rewrite decide_False by (apply (Hns n sn Listed Hsn)).
      rewrite (proj2 (Z.eqb_neq n NULL)) by (unfold NULL; lia).
      cbn [andb]. unfold set_free_list_prev.
      rewrite read_bucket_write_eq by assumption.
      set (h1 := write_bucket h j n).
      eexists. split; [reflexivity|].
      split; [repeat split|]. split; [reflexivity|].
      split; [apply length_write_bucket|].
      split.
      { apply (PUT_link_headers h1 B n sn Listed);
          [apply geometry_write_bucket; exact G | exact Hsn
          | unfold WSIZE; lia | apply headers_write_bucket; exact HH]. }
      split.
      { apply (payload_frame_trans B h h1);
          [apply payload_frame_write_bucket|].
        apply (PUT_link_payload h1 B n sn Listed);
          [apply geometry_write_bucket; exact G | exact Hsn | discriminate
          | unfold WSIZE; lia]. }
      split.
      { rewrite read_bucket_PUT. unfold h1.
        rewrite read_bucket_write_eq by assumption.
        destruct L2; [destruct Hnin|]. reflexivity. }
      split.
      { intros i Hi N. rewrite read_bucket_PUT. unfold h1.
        apply read_bucket_write_ne; lia. }
      intros c s t Hc N.
      rewrite (decide_False (P := c = p))
        by (rewrite Ep; apply (Hns c s t Hc)).
      change (heap_start h1) with (heap_start h).
      change (heap_start h - WSIZE) with (sentinel h). rewrite <- Ep.
      destruct (decide (c = n)) as [-> | Ncn].
      * unfold h1. split; loads; [reflexivity|].
        rewrite Ep. apply link_of_sentinel_word.
      * destruct (sep h B c s t n sn Listed G Hc Hsn Ncn) as (Hd & ? & ?).
        unfold h1. split; loads; reflexivity.
  - (* [bt] has a predecessor [p] *)
    pose proof (block_bounds h B G p sp Listed Hsp) as Hbp.
    pose proof (block_bounds h B G bt sz Listed Hbt) as Hbb.
    destruct (sep h B p sp Listed bt sz Listed G Hsp Hbt Npb) as (Hdp & _ & _).
    rewrite (proj2 (Z.eqb_neq (hd bt L1) bt)) by exact Hhd. cbn [andb].
    rewrite Epv. rewrite (decide_False (P := p = sentinel h))
      by (apply (Hns p sp Listed Hsp)).
    destruct Hn as [[E2 En] | (Hnin & Nnb & sn & Hsn)].
    + (* and no successor *)
      rewrite decide_True by exact En. cbn [Z.eqb NULL negb].
      unfold set_free_list_next.
      eexists. split; [reflexivity|].
      split; [repeat split|]. split; [reflexivity|].
      split; [reflexivity|].
      split.
      { apply (PUT_link_headers h B p sp Listed);
          [exact G | exact Hsp | unfold WSIZE; lia | exact HH]. }
      split.
      { apply (PUT_link_payload h B p sp Listed);
          [exact G | exact Hsp | discriminate | unfold WSIZE; lia]. }
      split.
      { rewrite read_bucket_PUT, Hrd, E2, app_nil_r.
        destruct L1; [congruence | reflexivity]. }
      split; [intros i Hi N; apply read_bucket_PUT|].
      intros c s t Hc N.
      rewrite (decide_False (P := c = n))
        by (rewrite En; apply (Hns c s t Hc)).
      change (heap_start h - WSIZE) with (sentinel h). rewrite <- En.
      destruct (decide (c = p)) as [-> | Ncp].
      * split; loads; [|reflexivity].
        rewrite En. apply link_of_sentinel_word.
      * destruct (sep h B c s t p sp Listed G Hc Hsp Ncp) as (Hd & ? & ?).
        split; loads; reflexivity.
    + (* and a successor [n] *)
      pose proof (block_bounds h B G n sn Listed Hsn) as Hbn.
      destruct (sep h B n sn Listed bt sz Listed G Hsn Hbt Nnb) as (Hdn & _ & _).
      assert (p <> n) as Npn.
      { intros E. apply (List.NoDup_remove_2 _ _ _ Hnd).
        pose proof Hnd as Hnd'. apply NoDup_app_remove_l in Hnd'.
        clear Hnd'. revert Hnd. rewrite E in Hpin. clear - Hpin Hnin.
        intros Hnd. exfalso.
        apply List.NoDup_remove_1 in Hnd.
        apply in_split in Hpin. destruct Hpin as (La & Lb & ->).
        rewrite <- app_assoc in Hnd. cbn [app] in Hnd.
        apply List.NoDup_remove_2 in Hnd. apply Hnd.
        apply in_or_app. right. apply in_or_app. right. exact Hnin. }
      destruct (sep h B p sp Listed n sn Listed G Hsp Hsn Npn) as (Hdpn & _ & _).
      rewrite decide_False by (apply (Hns n sn Listed Hsn)).
      rewrite (proj2 (Z.eqb_neq n NULL)) by (unfold NULL; lia).
      cbn [negb]. unfold set_free_list_next, set_free_list_prev.
      set (h1 := PUT h (p + WSIZE) (ptr_diff n (heap_start h))).
      assert (get_free_list_next h1 bt = n) as En1.
      { unfold get_free_list_next. change (heap_start h1) with (heap_start h).
        unfold h1. loads. fold (get_free_list_next h bt). rewrite Enx.
        apply decide_False. apply (Hns n sn Listed Hsn). }
      assert (get_free_list_prev h1 bt = p) as Ep1.
      { unfold get_free_list_prev. change (heap_start h1) with (heap_start h).
        unfold h1. loads. fold (get_free_list_prev h bt). rewrite Epv.
        apply decide_False. apply (Hns p sp Listed Hsp). }
      rewrite En1, Ep1. change (heap_start h1) with (heap_start h).
      assert (geometry h1 B) as G1 by (apply geometry_PUT; exact G).
      eexists. split; [reflexivity|].
      split; [repeat split|]. split; [reflexivity|].
      split; [reflexivity|].
      split.
      { apply (PUT_link_headers h1 B n sn Listed);
          [exact G1 | exact Hsn | unfold WSIZE; lia |].
        apply (PUT_link_headers h B p sp Listed);
          [exact G | exact Hsp | unfold WSIZE; lia | exact HH]. }
      split.
      { apply (payload_frame_trans B h h1).
        - apply (PUT_link_payload h B p sp Listed);
            [exact G | exact Hsp | discriminate | unfold WSIZE; lia].
        - apply (PUT_link_payload h1 B n sn Listed);
            [exact G1 | exact Hsn | discriminate | unfold WSIZE; lia]. }
      split.
      { rewrite read_bucket_PUT. unfold h1. rewrite read_bucket_PUT, Hrd.
        destruct L1; [congruence | reflexivity]. }
      split; [intros i Hi N; rewrite read_bucket_PUT; unfold h1;
              apply read_bucket_PUT|].
      intros c s t Hc N.
      destruct (link_of_block h B G n sn Listed Hsn) as (_ & _ & Twn).
      destruct (link_of_block h B G p sp Listed Hsp) as (_ & _ & Twp).
      destruct (decide (c = p)) as [Ecp | Ncp];
        destruct (decide (c = n)) as [Ecn | Ncn]; try congruence.
      * subst c. unfold h1. split; loads; [exact Twn | reflexivity].
      * subst c. unfold h1. split; loads; [reflexivity | exact Twp].
      * destruct (sep h B c s t p sp Listed G Hc Hsp Ncp) as (Hd1 & ? & ?).
        destruct (sep h B c s t n sn Listed G Hc Hsn Ncn) as (Hd2 & ? & ?).
        unfold h1. split; loads; reflexivity.
Qed.

Lemma in_app_middle {A : Type} (a b : A) (L1 L2 : list A) :
  In a (L1 ++ b :: L2) -> a <> b -> In a (L1 ++ L2).
Proof.
  intros Hin N. apply in_app_or in Hin. apply in_or_app.
  destruct Hin as [H | [H | H]]; [left; exact H | congruence | right; exact H].
Qed.

Lemma in_app_middle_inv {A : Type} (a b : A) (L1 L2 : list A) :
  In a (L1 ++ L2) -> In a (L1 ++ b :: L2).
Proof.
  intros Hin. apply in_app_or in Hin. apply in_or_app.
  destruct Hin as [H | H]; [left; exact H | right; right; exact H].
Qed.

Lemma sentinel_same (h h' : heap) :
  heap_start h' = heap_start h -> sentinel h' = sentinel h.
Proof. intros E. unfold sentinel. rewrite E. reflexivity. Qed.

Lemma free_list_delete_exact (h : heap) (B : gmap Z (Z * status))
      (F : Z -> list Z) (bt sz : Z) (L1 L2 : list Z) :
  Inv h B F -> B !! bt = Some (sz, Listed) ->
  F (size_class sz) = L1 ++ bt :: L2 ->
  exists h',
    free_list_delete h bt = Done tt h'
    /\ Inv h' (<[bt := (sz, Loose)]> B) (set_list F (size_class sz) (L1 ++ L2))
    /\ same_globals h h' /\ last h' = last h
    /\ payload_frame B h h'.
Proof.
  intros HI Hbt EF.
  pose proof (Inv_geometry h B F HI) as G.
  destruct (Inv_lists h B F HI) as (Hlen & Hbk & Hcomp).
  destruct (free_list_delete_raw h B F bt sz L1 L2 HI Hbt EF)
    as (h' & Hrun & Hsg & Hlast & Hlen' & HH' & PF & Hrd & Hrdo & Hld).
  destruct (delete_facts h B F bt sz L1 L2 HI EF)
    as (Hj & Hnd & Hel & _ & _ & _ & Hp & Hn).
  set (j := size_class sz) in *.
  set (p := List.last L1 (sentinel h)) in *.
  set (n := hd (sentinel h) L2) in *.
  pose proof Hsg as (Es & _).
  pose proof (sentinel_same h h' Es) as Ess.
  set (B' := <[bt := (sz, Loose)]> B).
  assert (forall a s t, a <> bt -> B !! a = Some (s, t) -> B' !! a = Some (s, t))
    as Hkeep.
  { intros a s t N Ha. unfold B'. rewrite lookup_insert_ne by congruence.
    exact Ha. }
  assert (forall c s t, B !! c = Some (s, t) -> c <> sentinel h) as Hns.
  { intros c s t Hc. apply (sentinel_not_block h B G c s t Hc). }
  pose proof (List.NoDup_remove_2 _ _ _ Hnd) as Hnot.
  exists h'.
  split; [exact Hrun|]. split; [|auto].
  split; [|split].
  - apply (geometry_same h h'); [exact Hsg |].
    apply (geometry_restatus h B bt sz Listed); assumption.
  - apply (headers_restatus h' B bt sz Listed); try assumption; discriminate.
  - split; [congruence|]. split.
    + intros i Hi. unfold set_list. rewrite Ess.
      destruct (Z.eqb_spec i j) as [-> | N].
      * split; [exact Hrd|]. split; [|split].
        -- apply (dseg_remove h h' bt Es L1 (sentinel h) L2 (sentinel h));
             try assumption.
           ++ intros Hin. apply in_app_middle_inv with (b := bt) in Hin.
              destruct (Hel _ Hin) as (s & Hs & _).
              apply (Hns _ _ _ Hs). reflexivity.
           ++ intros Hin. apply in_app_middle_inv with (b := bt) in Hin.
              destruct (Hel _ Hin) as (s & Hs & _).
              apply (Hns _ _ _ Hs). reflexivity.
           ++ intros c Hin.
              assert (c <> bt) as Nc by (intros ->; contradiction).
              apply in_app_middle_inv with (b := bt) in Hin.
              destruct (Hel _ Hin) as (s & Hs & _).
              apply (Hld c s Listed Hs Nc).
           ++ destruct (Hbk j Hj) as (_ & Hds & _). fold j in EF.
              rewrite EF in Hds. exact Hds.
        -- apply (List.NoDup_remove_1 _ _ _ Hnd).
        -- intros a Hin.
           assert (a <> bt) as Na by (intros ->; contradiction).
           apply in_app_middle_inv with (b := bt) in Hin.
           destruct (Hel _ Hin) as (s & Hs & Ec). exists s.
           split; [|exact Ec]. apply Hkeep; assumption.
      * destruct (Hbk i Hi) as (Hhd' & Hds' & Hnd' & Hel').
        split; [rewrite Hrdo by assumption; exact Hhd'|].
        split; [|split; [exact Hnd'|]].
        -- apply (dseg_same h h'); [exact Es| |exact Hds'].
           intros c Hin. destruct (Hel' c Hin) as (s & Hs & Ec).
           assert (c <> bt) as Nc.
           { intros ->. apply N. rewrite <- Ec. unfold j. congruence. }
           destruct (Hld c s Listed Hs Nc) as [E4 E8].
           assert (c <> p) as Ncp.
           { destruct Hp as [[_ Ep] | (_ & Hpin & _)].
             - rewrite Ep. apply (Hns c s Listed Hs).
             - apply (buckets_apart h B F HI i j c p Hi Hj N Hin).
               fold j in EF. rewrite EF. apply in_or_app. left. exact Hpin. }
           assert (c <> n) as Ncn.
           { destruct Hn as [[_ En] | (Hnin & _)].
             - rewrite En. apply (Hns c s Listed Hs).
             - apply (buckets_apart h B F HI i j c n Hi Hj N Hin).
               fold j in EF. rewrite EF. apply in_or_app. right. right.
               exact Hnin. }
           rewrite decide_False in E4 by exact Ncp.
           rewrite decide_False in E8 by exact Ncn. auto.
        -- intros c Hin. destruct (Hel' c Hin) as (s & Hs & Ec).
           exists s. split; [|exact Ec]. apply Hkeep; [|exact Hs].
           intros ->. apply N. rewrite <- Ec. unfold j. congruence.
    + intros a s Ha. unfold set_list.
      apply lookup_insert_Some in Ha. destruct Ha as [[_ E] | [N Ha]];
        [discriminate|].
      pose proof (Hcomp a s Ha) as Hin.
      destruct (Z.eqb_spec (size_class s) j) as [E | N']; [|exact Hin].
      rewrite E in Hin. fold j in EF. rewrite EF in Hin.
      apply (in_app_middle a bt); [exact Hin | congruence].
Qed.

Lemma free_list_delete_spec (h : heap) (B : gmap Z (Z * status))
      (F : Z -> list Z) (bt sz : Z) :
  Inv h B F -> B !! bt = Some (sz, Listed) ->
  exists h' F',
    free_list_delete h bt = Done tt h'
    /\ Inv h' (<[bt := (sz, Loose)]> B) F'
    /\ same_globals h h' /\ last h' = last h
    /\ payload_frame B h h'.
Proof.
  intros HI Hbt.
  destruct (Inv_lists h B F HI) as (_ & _ & Hcomp).
  destruct (in_split _ _ (Hcomp bt sz Hbt)) as (L1 & L2 & EF).
  destruct (free_list_delete_exact h B F bt sz L1 L2 HI Hbt EF)
    as (h' & H). exists h', (set_list F (size_class sz) (L1 ++ L2)). exact H.
Qed.

(** ** What [bt_make] writes *)

Section BtMake.
Variables (h : heap) (bt words flags : Z).
Hypothesis Hw : words mod 4 = 0 /\ 4 <= words <= 2 ^ 31 - 4.
Hypothesis Hf : 0 <= flags < 4.

Lemma packed_word :
  PACK words flags = words + flags
  /\ to_word (words + flags) = words + flags
  /\ hdr_size (words + flags) = words
  /\ hdr_used (words + flags) = flags mod 2
  /\ hdr_pf (words + flags) = 2 * (flags / 2).
Proof.
  destruct (pack_parts words flags (proj1 Hw) Hf) as (H1 & H2 & H3 & H4).
  repeat split; try assumption. apply to_word_small. lia.
Qed.

Lemma bt_next_after_header :
  bt_next (PUT h bt (words + flags)) bt
  = if bt + 4 * words =? heap_epilogue h then NULL else bt + 4 * words.
Proof.
  destruct packed_word as (_ & Hv & Hs & _).
  unfold bt_next, bt_footer. rewrite bt_size_load, load_PUT_eq, Hv, Hs.
  change (heap_epilogue (PUT h bt (words + flags))) with (heap_epilogue h).
  unfold WSIZE.
  replace (bt + 4 * words - 4 + 4) with (bt + 4 * words) by lia.
  reflexivity.
Qed.

Lemma bt_make_at_end :
  bt + 4 * words = heap_epilogue h ->
  bt_make h bt words flags
  = PUT (PUT h bt (words + flags)) (bt + 4 * words - 4) (words + flags).
Proof.
  intros He. destruct packed_word as (Hp & Hv & Hs & _).
  unfold bt_make. rewrite Hp, bt_next_after_header.
  rewrite (proj2 (Z.eqb_eq _ _) He). cbn [Z.eqb NULL negb].
  unfold bt_footer. rewrite bt_size_load, load_PUT_eq, Hv, Hs.
  unfold WSIZE. reflexivity.
Qed.

Lemma bt_make_used :
  bt + 4 * words <> heap_epilogue h -> bt + 4 * words <> NULL ->
  flags mod 2 = 1 ->
  bt_make h bt words flags
  = PUT (PUT h bt (words + flags)) (bt + 4 * words)
        (hdr_size (load h (bt + 4 * words))
         + hdr_used (load h (bt + 4 * words))).
Proof.
  intros He Hn Hu. destruct packed_word as (Hp & Hv & Hs & Hus & _).
  unfold bt_make. rewrite Hp, bt_next_after_header.
  rewrite (proj2 (Z.eqb_neq _ _) He), (proj2 (Z.eqb_neq _ _) Hn).
  cbn [negb]. rewrite bt_used_load, load_PUT_eq, Hv, Hus, Hu.
  cbn [Z.eqb negb]. unfold bt_clr_prevfree.
  rewrite (proj2 (Z.eqb_neq _ _) Hn).
  rewrite clr_pf_parts. rewrite load_PUT_ne by lia. reflexivity.
Qed.

Lemma bt_make_free :
  bt + 4 * words <> heap_epilogue h -> bt + 4 * words <> NULL ->
  flags mod 2 = 0 ->
  bt_make h bt words flags
  = PUT (PUT (PUT h bt (words + flags)) (bt + 4 * words)
             (hdr_size (load h (bt + 4 * words))
              + hdr_used (load h (bt + 4 * words)) + 2))
        (bt + 4 * words - 4) (words + flags).
Proof.
  intros He Hn Hu. destruct packed_word as (Hp & Hv & Hs & Hus & _).
  unfold bt_make. rewrite Hp, bt_next_after_header.
  rewrite (proj2 (Z.eqb_neq _ _) He), (proj2 (Z.eqb_neq _ _) Hn).
  cbn [negb]. rewrite bt_used_load, load_PUT_eq, Hv, Hus, Hu.
  cbn [Z.eqb negb]. unfold bt_set_prevfree.
  rewrite set_pf_parts. rewrite (load_PUT_ne h bt) by lia.
  unfold bt_footer. rewrite bt_size_load.
  rewrite load_PUT_ne by lia. rewrite load_PUT_eq, Hv, Hs.
  unfold WSIZE. reflexivity.
Qed.

End BtMake.

Lemma geometry_span (h : heap) (B : gmap Z (Z * status)) :
  geometry h B ->
  12 <= heap_start h /\ heap_start h mod 4 = 0
  /\ heap_epilogue h - heap_start h < 2 ^ 33 - 4.
Proof.
  intros G. destruct (geo_start h B G) as [H1 H2].
  destruct (geo_brk h B G) as (H3 & H4 & H5). unfold WSIZE in *.
  pose proof (Z.div_mod (heap_start h) 16 ltac:(lia)).
  pose proof (Z.div_mod (heap_start h) 4 ltac:(lia)).
  pose proof (Z.mod_pos_bound (heap_start h) 4 ltac:(lia)).
  repeat split; lia.
Qed.

Lemma used_bit_cases (st : status) :
  (st = Used /\ used_bit st = 1) \/ (st <> Used /\ used_bit st = 0).
Proof. destruct st; [left | right | right]; split; try reflexivity; discriminate. Qed.

Section BtMakeLoads.
Variables (h : heap) (B : gmap Z (Z * status)).
Variables (bt words flags : Z) (st' : status) (pf x0 : Z).
Hypothesis G : geometry h B.
Hypothesis HH : headers_but x0 h B.
Hypothesis Hw : words mod 4 = 0 /\ 4 <= words.
Hypothesis Hbt : heap_start h <= bt /\ bt + 4 * words <= heap_epilogue h.
Hypothesis Hfl : flags = used_bit st' + pf.
Hypothesis Hpf : pf = 0 \/ pf = 2.

Lemma bt_make_loads :
  let e := bt + 4 * words in
  let h' := bt_make h bt words flags in
  same_globals h h' /\ last h' = last h
  /\ segregated_list h' = segregated_list h
  /\ load h' bt = words + flags
  /\ (st' <> Used -> load h' (e - 4) = words + flags)
  /\ (forall x, x <> bt -> x <> e -> x <> e - 4 -> load h' x = load h x)
  /\ (forall se ste, B !! e = Some (se, ste) ->
        hdr_size (load h' e) = se /\ hdr_used (load h' e) = used_bit ste
        /\ hdr_pf (load h' e) = 2 - 2 * used_bit st').
Proof.
  intros e h'.
  destruct (geometry_span h B G) as (Hs1 & Hs2 & Hs3).
  assert (words mod 4 = 0 /\ 4 <= words <= 2 ^ 31 - 4) as Hw'.
  { pose proof (Z.div_mod words 4 ltac:(lia)). lia. }
  assert (0 <= flags < 4) as Hf.
  { destruct (used_bit_cases st') as [[_ E] | [_ E]]; lia. }
  destruct (packed_word words flags Hw' Hf) as (_ & Hv & _).
  assert (e <> NULL) as Hen by (unfold e, NULL; lia).
  assert (flags mod 2 = used_bit st') as Hu.
  { rewrite Hfl. destruct (used_bit_cases st') as [[_ E] | [_ E]];
      rewrite E; destruct Hpf as [-> | ->]; reflexivity. }
  destruct (Z.eq_dec e (heap_epilogue h)) as [He | He].
  - (* the block ends at the epilogue *)
    unfold h'. rewrite (bt_make_at_end h bt words flags Hw' Hf He). fold e.
    split; [repeat split|]. split; [reflexivity|]. split; [reflexivity|].
    split; [loads; exact Hv|]. split; [intros _; loads; exact Hv|].
    split; [intros x N1 N2 N3; loads; reflexivity|].
    intros se ste Hb. exfalso.
    pose proof (block_bounds h B G e se ste Hb). lia.
  - destruct (used_bit_cases st') as [[Est Eu] | [Est Eu]].
    + (* a block in use that is followed by a block *)
      unfold h'. rewrite (bt_make_used h bt words flags Hw' Hf He Hen)
        by (rewrite Hu; exact Eu). fold e.
      split; [repeat split|]. split; [reflexivity|]. split; [reflexivity|].
      split; [loads; exact Hv|]. split; [intros N; contradiction|].
      split; [intros x N1 N2 N3; loads; reflexivity|].
      intros se ste Hb. loads.
      destruct (HH e se ste Hb) as (H1 & H2 & _).
      rewrite bt_size_load in H1. rewrite bt_used_load in H2.
      rewrite H1, H2. pose proof (block_bounds h B G e se ste Hb) as Hbe.
      assert (0 <= used_bit ste < 4) as Hue
        by (destruct (used_bit_cases ste) as [[_ E] | [_ E]]; lia).
      destruct (packed_word se (used_bit ste) ltac:(lia) Hue)
        as (_ & Hv' & Hs' & Hu' & Hp').
      rewrite Hv', Hs', Hu', Hp', Eu.
      destruct (used_bit_cases ste) as [[_ E] | [_ E]]; rewrite E;
        repeat split.
    + (* a free block that is followed by a block *)
      unfold h'. rewrite (bt_make_free h bt words flags Hw' Hf He Hen)
        by (rewrite Hu; exact Eu). fold e.
      split; [repeat split|]. split; [reflexivity|]. split; [reflexivity|].
      split; [loads; exact Hv|]. split; [intros _; loads; exact Hv|].
      split; [intros x N1 N2 N3; loads; reflexivity|].
      intros se ste Hb. loads.
      destruct (HH e se ste Hb) as (H1 & H2 & _).
      rewrite bt_size_load in H1. rewrite bt_used_load in H2.
      rewrite H1, H2. pose proof (block_bounds h B G e se ste Hb) as Hbe.
      assert (0 <= used_bit ste + 2 < 4) as Hue
        by (destruct (used_bit_cases ste) as [[_ E] | [_ E]]; lia).
      destruct (packed_word se (used_bit ste + 2) ltac:(lia) Hue)
        as (_ & Hv' & Hs' & Hu' & Hp').
      rewrite Z.add_assoc in Hv', Hs', Hu', Hp'.
      rewrite Hv', Hs', Hu', Hp', Eu.
      destruct (used_bit_cases ste) as [[_ E] | [_ E]]; rewrite E;
        repeat split.
Qed.

End BtMakeLoads.

(** ** Rewriting a stretch of the heap as one block *)

Lemma rewrite_block_lookup (B : gmap Z (Z * status)) (bt words : Z)
      (st' : status) (c szc : Z) (stc : status) :
  rewrite_block B bt words st' !! c = Some (szc, stc)
  <-> (c = bt /\ szc = words /\ stc = st')
      \/ (c <> bt /\ B !! c = Some (szc, stc)
          /\ (c < bt \/ bt + 4 * words <= c)).
Proof.
  unfold rewrite_block. rewrite lookup_insert_Some, map_lookup_filter_Some.
  cbn [fst]. split.
  - intros [[<- E] | [N [Hb Ho]]].
    + inversion E; subst. left. auto.
    + right. split; [congruence|]. auto.
  - intros [(-> & -> & ->) | (N & Hb & Ho)]; [left; auto|].
    right. split; [congruence|]. auto.
Qed.

Lemma headers_weaken (x : Z) (h : heap) (B : gmap Z (Z * status)) :
  headers h B -> headers_but x h B.
Proof.
  intros HH a sz st Ha. destruct (HH a sz st Ha) as (H1 & H2 & H3 & H4).
  repeat split; auto.
Qed.

Lemma headers_but_not_block (x : Z) (h : heap) (B : gmap Z (Z * status)) :
  B !! x = None -> headers_but x h B -> headers h B.
Proof.
  intros Hx HH a sz st Ha. destruct (HH a sz st Ha) as (H1 & H2 & H3 & H4).
  repeat split; auto. apply H4. intros ->. congruence.
Qed.

Section BtMakeGen.
Variables (h : heap) (B : gmap Z (Z * status)) (F : Z -> list Z).
Variables (bt words flags : Z) (st' : status) (pf x x' : Z).
Hypothesis G : geometry h B.
Hypothesis HH : headers_but x h B.
Hypothesis HL : lists h B F.
Hypothesis Hw : words mod 4 = 0 /\ 4 <= words.
Hypothesis Hbt : heap_start h <= bt /\ bt + 4 * words <= heap_epilogue h.
Hypothesis Hal : bt mod 4 = 0.
Hypothesis Hst : st' <> Listed.
Hypothesis Hfl : flags = used_bit st' + pf.
Hypothesis Hpf : pf = 0 \/ pf = 2.
Hypothesis Hx : x = bt + 4 * words \/ B !! x = None.
Hypothesis Hrun : forall c szc stc, B !! c = Some (szc, stc) ->
  c + 4 * szc <= bt \/ bt + 4 * words <= c
  \/ (bt <= c < bt + 4 * words /\ stc <> Listed
      /\ (c + 4 * szc <= bt + 4 * words \/ c + 4 * szc = x')).
Hypothesis Hwit : pf = 2 ->
  exists p szp stp, B !! p = Some (szp, stp) /\ stp <> Used
                    /\ p + 4 * szp = bt.


Lemma bt_make_geometry :
  let e := bt + 4 * words in
  let h' := bt_make h bt words flags in
  let B' := rewrite_block B bt words st' in geometry h' B'.
Proof.
  intros e h' B'.
  destruct (bt_make_loads h B bt words flags st' pf x G HH Hw Hbt Hfl Hpf)
    as (Hsg & _).
  apply (geometry_same h h' B' Hsg).
  pose proof (block_bounds h B G) as Hbb.
  destruct G as [G1 G2 G3 G4 G5 G6]. constructor; try assumption.
  - intros a sz st Ha. apply rewrite_block_lookup in Ha.
    destruct Ha as [(-> & -> & ->) | (N & Ha & Ho)]; [|eauto].
    unfold WSIZE. repeat split; lia.
  - intros a sza sta b szb stb Ha Hb.
    apply rewrite_block_lookup in Ha. apply rewrite_block_lookup in Hb.
    unfold WSIZE.
    destruct Ha as [(-> & -> & ->) | (Na & Ha & Hoa)];
      destruct Hb as [(-> & -> & ->) | (Nb & Hb & Hob)].
    + left. reflexivity.
    + right. destruct (Hrun b szb stb Hb) as [H | [H | H]]; lia.
    + right. destruct (Hrun a sza sta Ha) as [H | [H | H]]; lia.
    + apply (G6 a sza sta b szb stb Ha Hb).
Qed.

Lemma bt_make_headers :
  let e := bt + 4 * words in
  let h' := bt_make h bt words flags in
  let B' := rewrite_block B bt words st' in headers_but x' h' B'.
Proof.
  intros e h' B'.
  destruct (bt_make_loads h B bt words flags st' pf x G HH Hw Hbt Hfl Hpf)
    as (Hsg & _ & _ & Lbt & Lft & Loth & Le).
  fold e in Lft, Loth, Le. fold h' in Lbt, Lft, Loth, Le.
  destruct (geometry_span h B G) as (Hs1 & Hs2 & Hs3).
  assert (words mod 4 = 0 /\ 4 <= words <= 2 ^ 31 - 4) as Hw'.
  { pose proof (Z.div_mod words 4 ltac:(lia)). lia. }
  assert (0 <= flags < 4) as Hf.
  { destruct (used_bit_cases st') as [[_ E] | [_ E]]; lia. }
  destruct (packed_word words flags Hw' Hf) as (_ & _ & Ps & Pu & Pp).
  assert (flags mod 2 = used_bit st' /\ 2 * (flags / 2) = pf) as [Hu Hp].
  { rewrite Hfl. destruct (used_bit_cases st') as [[_ E] | [_ E]];
      rewrite E; destruct Hpf as [-> | ->]; split; reflexivity. }
  intros c szc stc Hc. apply rewrite_block_lookup in Hc.
  destruct Hc as [(-> & -> & ->) | (N & Hc & Ho)].
  - (* the rewritten block *)
    rewrite bt_size_load, bt_used_load, bt_get_prevfree_load, Lbt.
    rewrite Ps, Pu, Pp, Hu, Hp.
    split; [reflexivity|]. split; [reflexivity|]. split.
    + intros Hn. unfold WSIZE.
      replace (bt + 4 * words - 4) with (e - 4) by (unfold e; lia).
      rewrite bt_size_load, (Lft Hn). exact Ps.
    + intros _ Hn. destruct Hpf as [E | E]; [congruence|].
      destruct (Hwit E) as (p & szp & stp & Hpb & Hps & Hpe).
      exists p, szp, stp. split; [|auto].
      apply rewrite_block_lookup. right.
      pose proof (block_bounds h B G p szp stp Hpb). unfold WSIZE in *.
      repeat split; try assumption; lia.
  - (* a block outside the rewritten stretch *)
    pose proof (block_bounds h B G c szc stc Hc) as Hbc.
    destruct (HH c szc stc Hc) as (H1 & H2 & H3 & H4).
    assert (forall y, c < y < c + 4 * szc -> load h' y = load h y) as Hin.
    { intros y Hy. destruct (Hrun c szc stc Hc) as [H | [H | H]];
        apply Loth; unfold e; lia. }
    assert (st_foot : stc <> Used ->
              bt_size h' (c + WSIZE * szc - WSIZE) = szc).
    { intros Hn. rewrite bt_size_load, Hin by (unfold WSIZE; lia).
      rewrite <- bt_size_load. exact (H3 Hn). }
    destruct (Z.eq_dec c e) as [-> | Ne].
    + (* the block right behind it *)
      destruct (Le szc stc Hc) as (E1 & E2 & E3).
      rewrite bt_size_load, bt_used_load, bt_get_prevfree_load.
      rewrite E1, E2, E3.
      split; [reflexivity|]. split; [reflexivity|].
      split; [exact st_foot|].
      intros _ Hn. exists bt, words, st'. split; [|split].
      * apply rewrite_block_lookup. left. auto.
      * destruct (used_bit_cases st') as [[_ E] | [E _]]; [lia | exact E].
      * reflexivity.
    + assert (load h' c = load h c) as Ec
        by (apply Loth; [congruence | exact Ne | unfold e in *; lia]).
      destruct (accessors_same h h' c Ec) as (A1 & A2 & A3).
      rewrite A1, A2, A3.
      split; [exact H1|]. split; [exact H2|]. split; [exact st_foot|].
      intros Nx' Hn.
      assert (c <> x) as Nx.
      { destruct Hx as [-> | Hx']; [exact Ne | intros ->; congruence]. }
      destruct (H4 Nx Hn) as (p & szp & stp & Hpb & Hps & Hpe).
      exists p, szp, stp. split; [|auto].
      pose proof (block_bounds h B G p szp stp Hpb) as Hbp.
      unfold WSIZE in *.
      apply rewrite_block_lookup. right.
      destruct (Hrun p szp stp Hpb) as [H | [H | (H5 & H6 & H7)]];
        unfold e in *.
      * repeat split; try assumption; lia.
      * repeat split; try assumption; lia.
      * exfalso. destruct H7 as [H7 | H7]; lia.
Qed.

Lemma bt_make_lists :
  let e := bt + 4 * words in
  let h' := bt_make h bt words flags in
  let B' := rewrite_block B bt words st' in lists h' B' F.
Proof.
  intros e h' B'.
  destruct (bt_make_loads h B bt words flags st' pf x G HH Hw Hbt Hfl Hpf)
    as (Hsg & _ & Hseg & _ & _ & Loth & _).
  fold e in Loth. fold h' in Hsg, Hseg, Loth.
  destruct HL as (Hlen & Hbk & Hcomp).
  pose proof Hsg as (Es & _ & _ & _ & Ept).
  assert (forall c szc, B !! c = Some (szc, Listed) ->
            B' !! c = Some (szc, Listed)
            /\ load h' (c + WSIZE) = load h (c + WSIZE)
            /\ load h' (c + 2 * WSIZE) = load h (c + 2 * WSIZE)) as Hkeep.
  { intros c szc Hc. pose proof (block_bounds h B G c szc Listed Hc) as Hbc.
    unfold WSIZE.
    destruct (Hrun c szc Listed Hc) as [H | [H | (_ & H & _)]];
      [| |congruence].
    - split; [|split; apply Loth; unfold e; lia].
      apply rewrite_block_lookup. right. repeat split; try assumption; lia.
    - split; [|split; apply Loth; unfold e; lia].
      apply rewrite_block_lookup. right. repeat split; try assumption; lia. }
  split; [congruence|]. split.
  - intros i Hi. destruct (Hbk i Hi) as (Hhd & Hds & Hnd & Hel).
    rewrite (sentinel_same h h' Es).
    split; [|split; [|split; [exact Hnd|]]].
    + unfold read_bucket. rewrite Hseg, Ept. exact Hhd.
    + apply (dseg_same h h'); [exact Es| |exact Hds].
      intros c Hin. destruct (Hel c Hin) as (s & Hs & _).
      apply (Hkeep c s Hs).
    + intros c Hin. destruct (Hel c Hin) as (s & Hs & Ec).
      exists s. split; [apply (Hkeep c s Hs) | exact Ec].
  - intros a s Ha. apply rewrite_block_lookup in Ha.
    destruct Ha as [(_ & _ & E) | (_ & Ha & _)]; [congruence|].
    apply (Hcomp a s Ha).
Qed.

Lemma bt_make_gen :
  let e := bt + 4 * words in
  let h' := bt_make h bt words flags in
  let B' := rewrite_block B bt words st' in
  geometry h' B' /\ headers_but x' h' B' /\ lists h' B' F
  /\ same_globals h h' /\ last h' = last h
  /\ (forall c szc y, B !! c = Some (szc, Used) ->
        c + 4 * szc <= bt \/ bt + 4 * words <= c ->
        c < y < c + 4 * szc -> load h' y = load h y)
  /\ bt_get_prevfree h' bt = pf.
Proof.
  intros e h' B'.
  destruct (bt_make_loads h B bt words flags st' pf x G HH Hw Hbt Hfl Hpf)
    as (Hsg & Hl & _ & Lbt & _ & Loth & _).
  split; [apply bt_make_geometry|]. split; [apply bt_make_headers|].
  split; [apply bt_make_lists|].
  split; [exact Hsg|]. split; [exact Hl|]. split.
  - intros c szc y Hc Ho Hy. apply Loth; lia.
  - rewrite bt_get_prevfree_load. unfold h'. rewrite Lbt.
    destruct (geometry_span h B G) as (Hs1 & Hs2 & Hs3).
    assert (words mod 4 = 0 /\ 4 <= words <= 2 ^ 31 - 4) as Hw'.
    { pose proof (Z.div_mod words 4 ltac:(lia)). lia. }
    assert (0 <= flags < 4) as Hf.
    { destruct (used_bit_cases st') as [[_ E] | [_ E]]; lia. }
    destruct (packed_word words flags Hw' Hf) as (_ & _ & _ & _ & Pp).
    rewrite Pp, Hfl. destruct (used_bit_cases st') as [[_ E] | [_ E]];
      rewrite E; destruct Hpf as [-> | ->]; reflexivity.
Qed.

End BtMakeGen.

(** The usual case: no block reaches over the end of the stretch. *)
Lemma bt_make_spec (h : heap) (B : gmap Z (Z * status)) (F : Z -> list Z)
      (bt words flags : Z) (st' : status) (pf : Z) :
  Inv h B F ->
  words mod 4 = 0 /\ 4 <= words ->
  heap_start h <= bt /\ bt + 4 * words <= heap_epilogue h ->
  bt mod 4 = 0 -> st' <> Listed -> flags = used_bit st' + pf ->
  pf = 0 \/ pf = 2 ->
  (forall c szc stc, B !! c = Some (szc, stc) ->
     c + 4 * szc <= bt \/ bt + 4 * words <= c
     \/ (bt <= c /\ c + 4 * szc <= bt + 4 * words /\ stc <> Listed)) ->
  (pf = 2 ->
   exists p szp stp, B !! p = Some (szp, stp) /\ stp <> Used
                     /\ p + 4 * szp = bt) ->
  let h' := bt_make h bt words flags in
  Inv h' (rewrite_block B bt words st') F
  /\ same_globals h h' /\ last h' = last h
  /\ (forall c szc y, B !! c = Some (szc, Used) ->
        c + 4 * szc <= bt \/ bt + 4 * words <= c ->
        c < y < c + 4 * szc -> load h' y = load h y)
  /\ bt_get_prevfree h' bt = pf.
Proof.
  intros (G & HH & HL) Hw Hbt Hal Hst Hfl Hpf Hrun Hwit h'.
  assert (B !! NULL = None) as Hnull.
  { destruct (B !! NULL) as [[s t]|] eqn:E; [|reflexivity].
    pose proof (block_bounds h B G NULL s t E). unfold NULL in *. lia. }
  destruct (bt_make_gen h B F bt words flags st' pf NULL NULL G
              (headers_weaken NULL h B HH) HL Hw Hbt Hal Hst Hfl Hpf
              (or_intror Hnull))
    as (G' & HH' & HL' & Hsg & Hl & Hfr & Hp).
  - intros c szc stc Hc. pose proof (block_bounds h B G c szc stc Hc).
    destruct (Hrun c szc stc Hc) as [H1 | [H1 | (H1 & H2 & H3)]];
      [left; exact H1 | right; left; exact H1|].
    right. right. repeat split; try assumption; lia.
  - exact Hwit.
  - split; [|auto]. split; [exact G'|]. split; [|exact HL'].
    apply (headers_but_not_block NULL); [|exact HH'].
    destruct (rewrite_block B bt words st' !! NULL) as [[s t]|] eqn:E;
      [|reflexivity].
    pose proof (block_bounds _ _ G' NULL s t E). unfold NULL in *. lia.
Qed.

(** ** Coalescing *)

Lemma Inv_set_last (h : heap) (B : gmap Z (Z * status)) (F : Z -> list Z)
      (p : Z) :
  Inv h B F -> Inv (set_last h p) B F.
Proof.
  intros (G & HH & Hlen & Hbk & Hcomp).
  split; [|split; [|split; [|split]]].
  - apply (geometry_same h); [repeat split | exact G].
  - apply (headers_same h); [|exact HH]. intros a sz st _. split; reflexivity.
  - exact Hlen.
  - intros j Hj. destruct (Hbk j Hj) as (H1 & H2 & H3 & H4).
    split; [exact H1|]. split; [|auto].
    apply (dseg_same h); [reflexivity| |exact H2].
    intros a _. split; reflexivity.
  - exact Hcomp.
Qed.

Section CoalesceFinish.
Variables (h : heap) (B : gmap Z (Z * status)).
Variables (h2 : heap) (B2 : gmap Z (Z * status)) (F2 : Z -> list Z).
Variables (bt sz a total : Z).
Hypothesis G : geometry h B.
Hypothesis Hcov : covered h B.
Hypothesis Hlast : last_ok h B.
Hypothesis Hbt : B !! bt = Some (sz, Loose).
Hypothesis Honly : forall c szc, B !! c = Some (szc, Loose) -> c = bt.
Hypothesis HI2 : Inv h2 B2 F2.
Hypothesis Hsg : same_globals h h2.
Hypothesis Hl2 : last h2 = last h.
Hypothesis Htot : total mod 4 = 0.
Hypothesis Hin : a <= bt /\ bt + 4 * sz <= a + 4 * total.
Hypothesis Hrun : forall c szc stc, B2 !! c = Some (szc, stc) ->
  c + 4 * szc <= a \/ a + 4 * total <= c
  \/ (a <= c /\ c + 4 * szc <= a + 4 * total /\ stc = Loose).
Hypothesis Hout : forall c, c < a \/ a + 4 * total <= c -> B2 !! c = B !! c.
Hypothesis Hused : forall c szc,
  B !! c = Some (szc, Used) -> B2 !! c = Some (szc, Used).
Hypothesis Hstart : is_Some (B !! a).
Hypothesis Hend : exists x szx stx,
  B !! x = Some (szx, stx) /\ a <= x /\ x + 4 * szx = a + 4 * total.


Lemma merged_lookup (c szc : Z) (stc : status) :
  let B4 := <[a := (total, Listed)]> (rewrite_block B2 a total Loose) in
  B4 !! c = Some (szc, stc)
  <-> (c = a /\ szc = total /\ stc = Listed)
      \/ (B !! c = Some (szc, stc) /\ (c < a \/ a + 4 * total <= c)).
Proof.
  intros B4.
  pose proof (block_bounds h B G bt sz Loose Hbt) as Hbb.
  unfold B4. rewrite lookup_insert_Some, rewrite_block_lookup. split.
  - intros [[<- E] | [N [(E1 & E2 & E3) | (_ & Hb & Ho)]]].
    + inversion E; subst. left. auto.
    + congruence.
    + right. rewrite <- (Hout c Ho). auto.
  - intros [(-> & -> & ->) | (Hb & Ho)]; [left; auto|].
    right. split; [lia|]. right. split; [lia|].
    rewrite (Hout c Ho). auto.
Qed.

Lemma merged_covered (h4 : heap) :
  let B4 := <[a := (total, Listed)]> (rewrite_block B2 a total Loose) in
  heap_epilogue h4 = heap_epilogue h -> covered h4 B4.
Proof.
  intros B4. unfold B4.
  intros Ee c szc stc Hc. rewrite Ee. apply merged_lookup in Hc.
  destruct Hend as (x & szx & stx & Hx & Hax & Hxe).
  destruct Hstart as [[sa sta] Ha].
  pose proof (block_bounds h B G a sa sta Ha) as Hba.
  unfold WSIZE.
  destruct Hc as [(-> & -> & ->) | (Hb & Ho)].
  - destruct (Hcov x szx stx Hx) as [E | [[s t] Hs]]; unfold WSIZE in *.
    + left. lia.
    + right. exists (s, t). apply merged_lookup. right.
      rewrite <- Hxe. split; [exact Hs | lia].
  - pose proof (block_bounds h B G c szc stc Hb) as Hbc.
    destruct (Hcov c szc stc Hb) as [E | [[s t] Hs]]; unfold WSIZE in *.
    + left. exact E.
    + right.
      destruct (Z.eq_dec (c + 4 * szc) a) as [E | N].
      * exists (total, Listed). apply merged_lookup. left. auto.
      * exists (s, t). apply merged_lookup. right. split; [exact Hs|].
        destruct (geo_disjoint h B G c szc stc a sa sta Hb Ha)
          as [E | [E | E]]; unfold WSIZE in *; lia.
Qed.

Lemma merged_last_ok (h4 : heap) (is_change : bool) :
  let B4 := <[a := (total, Listed)]> (rewrite_block B2 a total Loose) in
  (is_change = true -> a + 4 * total = heap_epilogue h) ->
  (is_change = false ->
   last h = NULL \/ a + 4 * total <> heap_epilogue h) ->
  heap_epilogue h4 = heap_epilogue h ->
  last h4 = (if is_change then a else last h) -> last_ok h4 B4.
Proof.
  intros B4. unfold B4.
  intros Hch1 Hch2 Ee El. unfold last_ok. rewrite Ee, El. unfold WSIZE.
  destruct is_change.
  - right. exists total, Listed. split; [|auto].
    apply merged_lookup. left. auto.
  - clear Hch1. destruct Hlast as [E | (sl & stl & Hs & Hle)]; [left; exact E|].
    destruct (Hch2 eq_refl) as [E | N]; [left; exact E|].
    right. exists sl, stl. split; [|exact Hle].
    apply merged_lookup. right. split; [exact Hs|].
    destruct Hend as (x & szx & stx & Hx & Hax & Hxe).
    pose proof (block_bounds h B G x szx stx Hx) as Hbx.
    pose proof (block_bounds h B G _ sl stl Hs) as Hbl.
    destruct (geo_disjoint h B G _ sl stl x szx stx Hs Hx)
      as [E | [E | E]]; unfold WSIZE in *; [|lia|lia].
    rewrite E in Hs. assert (sl = szx) by congruence. lia.
Qed.

Lemma merged_no_loose (c szc : Z) (stc : status) :
  let B4 := <[a := (total, Listed)]> (rewrite_block B2 a total Loose) in
  B4 !! c = Some (szc, stc) -> stc <> Loose.
Proof.
  intros B4. unfold B4.
  intros Hc. apply merged_lookup in Hc.
  destruct Hc as [(_ & _ & ->) | (Hb & Ho)]; [discriminate|].
  intros ->. pose proof (Honly c szc Hb) as ->.
  pose proof (block_bounds h B G bt sz Loose Hbt). lia.
Qed.

Lemma merged_used (c szc : Z) :
  let B4 := <[a := (total, Listed)]> (rewrite_block B2 a total Loose) in
  B !! c = Some (szc, Used) <-> B4 !! c = Some (szc, Used).
Proof.
  intros B4. unfold B4.
  rewrite merged_lookup. split.
  - intros Hb. right. split; [exact Hb|].
    destruct (Hrun c szc Used (Hused c szc Hb)) as [H | [H | (_ & _ & H)]];
      [| |discriminate].
    + pose proof (block_bounds h B G c szc Used Hb). lia.
    + lia.
  - intros [(_ & _ & E) | (Hb & _)]; [discriminate | exact Hb].
Qed.

Lemma coalesce_finish (is_change : bool) :
  let B4 := <[a := (total, Listed)]> (rewrite_block B2 a total Loose) in
  (is_change = true -> a + 4 * total = heap_epilogue h) ->
  (is_change = false ->
   last h = NULL \/ a + 4 * total <> heap_epilogue h) ->
  exists h4 F4,
    (do (_, h') <- free_list_append (bt_make h2 a total FREE) a;
     let h' := set_last h' (if is_change then a else last h') in
     Done a h') = Done a h4
    /\ Inv h4 B4 F4 /\ covered h4 B4 /\ last_ok h4 B4
    /\ same_globals h h4
    /\ payload_frame B h2 h4.
Proof.
  intros B4. unfold B4.
  intros Hch1 Hch2.
  pose proof Hsg as (Es & Ee & _).
  destruct Hstart as [[sa sta] Ha].
  destruct Hend as (x & szx & stx & Hx & Hax & Hxe).
  pose proof (block_bounds h B G a sa sta Ha) as Hba.
  pose proof (block_bounds h B G x szx stx Hx) as Hbx.
  pose proof (block_bounds h B G bt sz Loose Hbt) as Hbb.
  assert (Inv (bt_make h2 a total FREE)
              (rewrite_block B2 a total Loose) F2
          /\ same_globals h2 (bt_make h2 a total FREE)
          /\ last (bt_make h2 a total FREE) = last h2
          /\ (forall c szc y, B2 !! c = Some (szc, Used) ->
                c + 4 * szc <= a \/ a + 4 * total <= c ->
                c < y < c + 4 * szc ->
                load (bt_make h2 a total FREE) y = load h2 y)
          /\ bt_get_prevfree (bt_make h2 a total FREE) a = 0)
    as (HI3 & Hsg3 & Hl3 & Hfr3 & _).
  { apply (bt_make_spec h2 B2 F2 a total FREE Loose 0 HI2).
    - split; [exact Htot | lia].
    - rewrite Es, Ee. lia.
    - lia.
    - discriminate.
    - reflexivity.
    - left. reflexivity.
    - intros c szc stc Hc.
      destruct (Hrun c szc stc Hc) as [H | [H | (H1 & H2 & ->)]];
        [left; exact H | right; left; exact H|].
      right. right. repeat split; try assumption. discriminate.
    - discriminate. }
  set (h3 := bt_make h2 a total FREE) in *.
  assert (rewrite_block B2 a total Loose !! a = Some (total, Loose)) as Ha3.
  { apply rewrite_block_lookup. left. auto. }
  destruct (free_list_append_spec h3 _ F2 a total HI3 Ha3)
    as (h4 & Hrun4 & HI4 & Hsg4 & Hl4 & Hfr4).
  rewrite Hrun4. cbn [bind].
  eexists. eexists. split; [reflexivity|].
  pose proof (same_globals_trans _ _ _ Hsg
                (same_globals_trans _ _ _ Hsg3 Hsg4)) as Hsg04.
  split; [apply Inv_set_last; exact HI4|].
  split; [apply merged_covered; apply Hsg04|].
  split.
  { apply (merged_last_ok _ is_change Hch1 Hch2); [apply Hsg04|].
    cbn [last set_last].
    rewrite Hl4, Hl3, Hl2. reflexivity. }
  split; [apply (same_globals_trans _ _ _ Hsg04); repeat split|].
  intros c szc y Hc Hy. cbn [set_last]. rewrite load_set_last.
  pose proof (Hused c szc Hc) as Hc2.
  assert (c + 4 * szc <= a \/ a + 4 * total <= c) as Ho.
  { destruct (Hrun c szc Used Hc2) as [H | [H | (_ & _ & H)]];
      [left; exact H | right; exact H | discriminate]. }
  unfold WSIZE in Hy.
  rewrite (Hfr4 c szc y); [apply (Hfr3 c szc y Hc2 Ho Hy)| |exact Hy].
  apply rewrite_block_lookup. right.
  pose proof (block_bounds h B G c szc Used Hc).
  repeat split; try assumption; lia.
Qed.

End CoalesceFinish.

(** ** The run of free blocks around a block *)

Section Run.
Variables (h : heap) (B : gmap Z (Z * status)) (bt sz : Z).
Hypothesis G : geometry h B.
Hypothesis Hbt : B !! bt = Some (sz, Loose).

Lemma run_single : run_ok B B bt sz bt sz.
Proof.
  pose proof (block_bounds h B G bt sz Loose Hbt) as Hbb.
  constructor.
  - lia.
  - lia.
  - intros c szc stc Hc.
    destruct (Z.eq_dec c bt) as [-> | N].
    + right. right. assert (szc = sz /\ stc = Loose) as [-> ->]
        by (split; congruence). repeat split; lia.
    + destruct (sep h B c szc stc bt sz Loose G Hc Hbt N) as ([H | H] & _);
        [left; exact H | right; left; exact H].
  - reflexivity.
  - auto.
  - eauto.
  - exists bt, sz, Loose. repeat split; [exact Hbt | lia].
Qed.

(** Taking in the listed block that follows the run. *)
Lemma run_extend_right (h1 : heap) (B1 : gmap Z (Z * status))
      (a total sn : Z) :
  geometry h1 B1 ->
  run_ok B B1 bt sz a total ->
  B !! (a + 4 * total) = Some (sn, Listed) ->
  run_ok B (<[a + 4 * total := (sn, Loose)]> B1) bt sz a (total + sn).
Proof.
  intros G1 [R1 R2 R3 R4 R5 R6 R7] Hn.
  set (n := a + 4 * total) in *.
  pose proof (block_bounds h B G n sn Listed Hn) as Hbn.
  pose proof (block_bounds h B G bt sz Loose Hbt) as Hbb.
  assert (B1 !! n = Some (sn, Listed)) as Hn1
    by (rewrite R4; [exact Hn | right; unfold n; lia]).
  constructor.
  - rewrite Zplus_mod, R1. replace (sn mod 4) with 0 by lia. reflexivity.
  - lia.
  - intros c szc stc Hc. apply lookup_insert_Some in Hc.
    destruct Hc as [[<- E] | [N Hc]].
    + inversion E; subst. right. right. unfold n. repeat split; lia.
    + destruct (R3 c szc stc Hc) as [H | [H | (H1 & H2 & H3)]].
      * left. exact H.
      * right. left.
        destruct (sep h1 B1 c szc stc n sn Listed G1 Hc Hn1 ltac:(congruence))
          as ([H' | H'] & ? & ?); fold n in H; lia.
      * right. right. repeat split; try assumption; lia.
  - intros c Ho. rewrite lookup_insert_ne by (unfold n; lia).
    apply R4. lia.
  - intros c szc Hc. rewrite lookup_insert_ne; [apply R5; exact Hc|].
    intros <-. congruence.
  - exact R6.
  - exists n, sn, Listed. unfold n. repeat split; [exact Hn | lia | lia].
Qed.

(** Taking in the listed block that precedes the run. *)
Lemma run_extend_left (h1 : heap) (B1 : gmap Z (Z * status))
      (a total p szp : Z) :
  geometry h1 B1 ->
  run_ok B B1 bt sz a total ->
  B !! p = Some (szp, Listed) -> p + 4 * szp = a ->
  run_ok B (<[p := (szp, Loose)]> B1) bt sz p (total + szp).
Proof.
  intros G1 [R1 R2 R3 R4 R5 R6 R7] Hp Hpa.
  pose proof (block_bounds h B G p szp Listed Hp) as Hbp.
  pose proof (block_bounds h B G bt sz Loose Hbt) as Hbb.
  assert (B1 !! p = Some (szp, Listed)) as Hp1
    by (rewrite R4; [exact Hp | left; lia]).
  constructor.
  - rewrite Zplus_mod, R1. replace (szp mod 4) with 0 by lia. reflexivity.
  - lia.
  - intros c szc stc Hc. apply lookup_insert_Some in Hc.
    destruct Hc as [[<- E] | [N Hc]].
    + inversion E; subst. right. right. repeat split; lia.
    + destruct (R3 c szc stc Hc) as [H | [H | (H1 & H2 & H3)]].
      * left.
        destruct (sep h1 B1 c szc stc p szp Listed G1 Hc Hp1 ltac:(congruence))
          as ([H' | H'] & ? & ?); lia.
      * right. left. lia.
      * right. right. repeat split; try assumption; lia.
  - intros c Ho. rewrite lookup_insert_ne by lia. apply R4. lia.
  - intros c szc Hc. rewrite lookup_insert_ne; [apply R5; exact Hc|].
    intros <-. congruence.
  - eauto.
  - destruct R7 as (x & szx & stx & Hx & Hax & Hxe).
    exists x, szx, stx. repeat split; [exact Hx | lia | lia].
Qed.

End Run.

Section Coalesce.
Variables (h : heap) (B : gmap Z (Z * status)) (F : Z -> list Z).
Variables (bt sz : Z).
Hypothesis HI : Inv h B F.
Hypothesis Hcov : covered h B.
Hypothesis Hlast : last_ok h B.
Hypothesis Hbt : B !! bt = Some (sz, Loose).
Hypothesis Honly : forall c szc, B !! c = Some (szc, Loose) -> c = bt.

Lemma coalesce_next_cases :
  (bt + 4 * sz = heap_epilogue h /\ bt_next h bt = NULL)
  \/ (exists sn stn,
        B !! (bt + 4 * sz) = Some (sn, stn)
        /\ bt_next h bt = bt + 4 * sz /\ bt + 4 * sz <> NULL
        /\ bt_used h (bt + 4 * sz) = used_bit stn
        /\ bt_size h (bt + 4 * sz) = sn
        /\ (stn = Used \/ stn = Listed)).
Proof.
  pose proof (Inv_geometry h B F HI) as G.
  pose proof (Inv_headers h B F HI) as HH.
  pose proof (block_bounds h B G bt sz Loose Hbt) as Hbb.
  destruct (HH bt sz Loose Hbt) as (Hs & _).
  unfold bt_next, bt_footer. rewrite Hs. unfold WSIZE.
  replace (bt + 4 * sz - 4 + 4) with (bt + 4 * sz) by lia.
  destruct (Hcov bt sz Loose Hbt) as [E | [[sn stn] Hn]]; unfold WSIZE in *.
  - left. rewrite (proj2 (Z.eqb_eq _ _) E). auto.
  - right. pose proof (block_bounds h B G _ sn stn Hn) as Hbn.
    destruct (HH _ sn stn Hn) as (Hsn & Hun & _).
    exists sn, stn. rewrite (proj2 (Z.eqb_neq _ _)) by lia.
    repeat split; try assumption; [unfold NULL; lia|].
    destruct stn; [left | right | exfalso]; try reflexivity.
    pose proof (Honly _ sn Hn). lia.
Qed.

Lemma coalesce_prev_cases :
  (bt_get_prevfree h bt = 0 /\ bt_prev h bt = NULL)
  \/ (bt_get_prevfree h bt <> 0
      /\ exists p szp,
           B !! p = Some (szp, Listed) /\ p + 4 * szp = bt
           /\ bt_prev h bt = p /\ p <> NULL /\ bt_used h p = 0
           /\ forall h1, load h1 p = load h p -> bt_size h1 p = szp).
Proof.
  pose proof (Inv_geometry h B F HI) as G.
  pose proof (Inv_headers h B F HI) as HH.
  destruct (HH bt sz Loose Hbt) as (_ & _ & _ & Hw).
  unfold bt_prev.
  destruct (Z.eq_dec (bt_get_prevfree h bt) 0) as [E | N].
  - left. rewrite E. auto.
  - right. split; [exact N|].
    rewrite (proj2 (Z.eqb_neq _ _) N). cbn [negb].
    destruct (Hw N) as (p & szp & stp & Hp & Hst & Hpe).
    pose proof (block_bounds h B G p szp stp Hp) as Hbp.
    unfold WSIZE in *.
    assert (stp = Listed) as ->.
    { destruct stp; [congruence | reflexivity | exfalso].
      pose proof (Honly p szp Hp). lia. }
    destruct (HH p szp Listed Hp) as (Hs & Hu & Hf & _).
    exists p, szp. split; [exact Hp|]. split; [exact Hpe|].
    split; [|split; [unfold NULL; lia | split; [exact Hu|]]].
    + specialize (Hf ltac:(discriminate)). unfold WSIZE in Hf.
      replace (bt - 4) with (p + 4 * szp - 4) by lia. rewrite Hf. lia.
    + intros h1 E1. rewrite bt_size_load, E1, <- bt_size_load. exact Hs.
Qed.

End Coalesce.

Lemma last_block_unique (h : heap) (B : gmap Z (Z * status))
      (x szx : Z) (stx : status) :
  geometry h B -> last_ok h B -> last h <> NULL ->
  B !! x = Some (szx, stx) -> x + 4 * szx = heap_epilogue h -> x = last h.
Proof.
  intros G [E | (sl & stl & Hl & Hle)] N Hx Hxe; [congruence|].
  pose proof (block_bounds h B G x szx stx Hx).
  pose proof (block_bounds h B G _ sl stl Hl).
  destruct (geo_disjoint h B G x szx stx _ sl stl Hx Hl) as [E | [E | E]];
    unfold WSIZE in *; [exact E | lia | lia].
Qed.

Section CoalesceStages.
Variables (h : heap) (B : gmap Z (Z * status)) (F : Z -> list Z).
Variables (bt sz : Z).
Hypothesis HI : Inv h B F.
Hypothesis Hcov : covered h B.
Hypothesis Hlast : last_ok h B.
Hypothesis Hbt : B !! bt = Some (sz, Loose).
Hypothesis Honly : forall c szc, B !! c = Some (szc, Loose) -> c = bt.

Lemma coalesce_stage_next (k : Z -> heap -> outcome Z) :
  let next := bt_next h bt in
  let next_used := if negb (next =? NULL) then bt_used h next else 1 in
  let is_change :=
    (bt =? last h) || ((next =? last h) && (next_used =? 0)) in
  exists h1 B1 F1 t1,
    bind (if next_used =? 0
          then bind (free_list_delete h next)
                 (fun _ h' => Done (to_word (sz + bt_size h next)) h')
          else Done sz h) k = k t1 h1
    /\ Inv h1 B1 F1 /\ same_globals h h1 /\ last h1 = last h
    /\ payload_frame B h h1
    /\ run_ok B B1 bt sz bt t1
    /\ (is_change = true -> bt + 4 * t1 = heap_epilogue h)
    /\ (is_change = false ->
        last h = NULL \/ bt + 4 * t1 <> heap_epilogue h)
    /\ (forall sn, B !! (bt + 4 * sz) = Some (sn, Listed) -> t1 = sz + sn)
    /\ ((forall sn, B !! (bt + 4 * sz) <> Some (sn, Listed)) -> t1 = sz).
Proof.
  intros next next_used is_change.
  pose proof (Inv_geometry h B F HI) as G.
  pose proof (block_bounds h B G bt sz Loose Hbt) as Hbb.
  pose proof (run_single h B bt sz G Hbt) as R0.
  assert (bt <> NULL) as Nbt by (unfold NULL; lia).
  assert (forall x szx stx, B !! x = Some (szx, stx) ->
            x + 4 * szx = heap_epilogue h -> x <> last h ->
            last h = NULL) as Hnl.
  { intros x szx stx Hx Hxe N.
    destruct (Z.eq_dec (last h) NULL) as [E | Nl]; [exact E|].
    exfalso. apply N.
    apply (last_block_unique h B x szx stx G Hlast Nl Hx Hxe). }
  assert (forall x szx stx, B !! x = Some (szx, stx) -> x = last h ->
            x + 4 * szx = heap_epilogue h) as Hle.
  { intros x szx stx Hx E.
    destruct Hlast as [El | (sl & stl & Hl & Hle)].
    - pose proof (block_bounds h B G x szx stx Hx). unfold NULL in *. lia.
    - rewrite <- E in Hl, Hle. assert (sl = szx) by congruence. subst.
      unfold WSIZE in Hle. exact Hle. }
  destruct (coalesce_next_cases h B F bt sz HI Hcov Hbt Honly)
    as [[He En] | (sn & stn & Hn & En & Nn & Eu & Es & Hst)].
  - (* no next block *)
    exists h, B, F, sz. unfold is_change, next_used, next.
    rewrite En. cbn [Z.eqb NULL negb bind andb orb].
    rewrite andb_false_r, orb_false_r.
    split; [reflexivity|]. split; [exact HI|].
    split; [apply same_globals_refl|]. split; [reflexivity|].
    split; [apply payload_frame_refl|]. split; [exact R0|].
    split; [intros _; exact He|].
    split.
    { intros E. apply Z.eqb_neq in E. left.
      apply (Hnl bt sz Loose Hbt He E). }
    split; [|reflexivity].
    intros sn Hn. pose proof (block_bounds h B G _ sn Listed Hn). lia.
  - pose proof (block_bounds h B G _ sn stn Hn) as Hbn.
    assert ((bt =? last h) = false) as Ebl.
    { apply Z.eqb_neq. intros E.
      pose proof (Hle bt sz Loose Hbt E). lia. }
    unfold is_change, next_used, next. rewrite En, Ebl.
    rewrite (proj2 (Z.eqb_neq _ _) Nn). cbn [negb orb]. rewrite Eu, Es.
    destruct Hst as [-> | ->]; cbn [used_bit USED Z.eqb bind].
    + (* the next block is in use *)
      exists h, B, F, sz. rewrite andb_false_r.
      split; [reflexivity|]. split; [exact HI|].
      split; [apply same_globals_refl|]. split; [reflexivity|].
      split; [apply payload_frame_refl|]. split; [exact R0|].
      split; [discriminate|]. split; [intros _; right; lia|].
      split; [|reflexivity]. intros sn' Hn'. congruence.
    + (* the next block is free: it is taken out of its list *)
      destruct (free_list_delete_spec h B F _ sn HI Hn)
        as (h1 & F1 & Hrun1 & HI1 & Hsg1 & Hl1 & Hfr1).
      rewrite Hrun1. cbn [bind]. rewrite andb_true_r.
      rewrite to_word_small by lia.
      exists h1, (<[bt + 4 * sz := (sn, Loose)]> B), F1, (sz + sn).
      split; [reflexivity|]. split; [exact HI1|].
      split; [exact Hsg1|]. split; [exact Hl1|]. split; [exact Hfr1|].
      split; [apply (run_extend_right h B bt sz G Hbt h B bt sz sn G R0 Hn)|].
      split.
      * intros E. apply Z.eqb_eq in E. pose proof (Hle _ sn Listed Hn E). lia.
      * split.
        { intros E. apply Z.eqb_neq in E.
          destruct (Z.eq_dec (bt + 4 * (sz + sn)) (heap_epilogue h))
            as [Ee | Ne]; [left | right; exact Ne].
          apply (Hnl _ sn Listed Hn); [lia | exact E]. }
        split.
        { intros sn' Hn'. congruence. }
        intros H. exfalso. apply (H sn Hn).
Qed.

Section Prev.
Variables (h1 : heap) (B1 : gmap Z (Z * status)) (F1 : Z -> list Z) (t1 : Z).
Hypothesis HI1 : Inv h1 B1 F1.
Hypothesis Hsg1 : same_globals h h1.
Hypothesis Hl1 : last h1 = last h.
Hypothesis R1 : run_ok B B1 bt sz bt t1.

Lemma coalesce_stage_prev (k : Z * Z -> heap -> outcome Z) :
  let prev := bt_prev h bt in
  let prev_used := if negb (prev =? NULL) then bt_used h prev else 1 in
  exists h2 B2 F2 a t2,
    bind (if prev_used =? 0
          then bind (free_list_delete h1 prev)
                 (fun _ h' => Done (to_word (t1 + bt_size h1 prev), prev) h')
          else Done (t1, bt) h1) k = k (t2, a) h2
    /\ Inv h2 B2 F2 /\ same_globals h h2 /\ last h2 = last h
    /\ payload_frame B h1 h2
    /\ run_ok B B2 bt sz a t2
    /\ a + 4 * t2 = bt + 4 * t1
    /\ (bt_get_prevfree h bt = 0 -> a = bt)
    /\ (forall p szp, B !! p = Some (szp, Listed) -> p + 4 * szp = bt ->
          bt_get_prevfree h bt <> 0 -> a = p).
Proof.
  intros prev prev_used.
  pose proof (Inv_geometry h B F HI) as G.
  pose proof (Inv_geometry h1 B1 F1 HI1) as G1.
  pose proof (block_bounds h B G bt sz Loose Hbt) as Hbb.
  destruct (coalesce_prev_cases h B F bt sz HI Hbt Honly)
    as [[E0 Ep] | (N0 & p & szp & Hp & Hpe & Ep & Np & Eu & _)].
  - (* PREVFREE is clear *)
    exists h1, B1, F1, bt, t1. unfold prev_used, prev. rewrite Ep.
    cbn [Z.eqb NULL negb bind].
    split; [reflexivity|]. split; [exact HI1|].
    split; [exact Hsg1|]. split; [exact Hl1|].
    split; [apply payload_frame_refl|]. split; [exact R1|].
    split; [reflexivity|]. split; [reflexivity|].
    intros q szq _ _ N. contradiction.
  - (* the previous block is free: it is taken out of its list *)
    pose proof (block_bounds h B G p szp Listed Hp) as Hbp.
    assert (B1 !! p = Some (szp, Listed)) as Hp1.
    { rewrite (ro_out _ _ _ _ _ _ R1); [exact Hp | left; lia]. }
    destruct (Inv_headers h1 B1 F1 HI1 p szp Listed Hp1) as (Es1 & _).
    destruct (free_list_delete_spec h1 B1 F1 p szp HI1 Hp1)
      as (h2 & F2 & Hrun2 & HI2 & Hsg2 & Hl2 & Hfr2).
    unfold prev_used, prev. rewrite Ep.
    rewrite (proj2 (Z.eqb_neq _ _) Np). cbn [negb]. rewrite Eu.
    cbn [Z.eqb bind]. rewrite Hrun2. cbn [bind]. rewrite Es1.
    destruct (ro_end _ _ _ _ _ _ R1) as (x & szx & stx & Hx & Hax & Hxe).
    pose proof (block_bounds h B G x szx stx Hx) as Hbx.
    rewrite to_word_small by lia.
    exists h2, (<[p := (szp, Loose)]> B1), F2, p, (t1 + szp).
    split; [reflexivity|]. split; [exact HI2|].
    split; [apply (same_globals_trans _ _ _ Hsg1 Hsg2)|].
    split; [congruence|].
    split.
    { apply (payload_frame_sub B B1); [|exact Hfr2].
      apply (ro_used _ _ _ _ _ _ R1). }
    split; [apply (run_extend_left h B bt sz G Hbt h1 B1 bt t1 p szp G1 R1 Hp Hpe)|].
    split; [lia|]. split; [intros E; contradiction|].
    intros q szq Hq Hqe _.
    pose proof (block_bounds h B G q szq Listed Hq) as Hbq.
    destruct (geo_disjoint h B G p szp Listed q szq Listed Hp Hq)
      as [E | [E | E]]; unfold WSIZE in *; [exact E | lia | lia].
Qed.

End Prev.

End CoalesceStages.

(** Discharges the premises of [H] that are at hand. *)
Ltac feed H :=
  repeat match type of H with
  | ?P -> _ =>
      let X := fresh in
      assert (X : P) by assumption; specialize (H X); clear X
  end.

Lemma coalesce_spec_full (h : heap) (B : gmap Z (Z * status)) (F : Z -> list Z)
      (bt sz : Z) :
  Inv h B F -> covered h B -> last_ok h B ->
  B !! bt = Some (sz, Loose) ->
  (forall c szc, B !! c = Some (szc, Loose) -> c = bt) ->
  exists h' B' F' a total,
    coalesce h bt = Done a h'
    /\ Inv h' B' F' /\ covered h' B' /\ last_ok h' B'
    /\ (forall c szc stc, B' !! c = Some (szc, stc) -> stc <> Loose)
    /\ same_globals h h' /\ payload_frame B h h'
    /\ (forall c szc, B !! c = Some (szc, Used) <-> B' !! c = Some (szc, Used))
    /\ B' !! a = Some (total, Listed)
    /\ a <= bt /\ bt + 4 * sz <= a + 4 * total
    /\ a + 4 * total <= heap_epilogue h
    /\ (bt_get_prevfree h bt = 0 -> a = bt)
    /\ (forall p szp, B !! p = Some (szp, Listed) -> p + 4 * szp = bt ->
          bt_get_prevfree h bt <> 0 -> a = p)
    /\ (forall sn, B !! (bt + 4 * sz) = Some (sn, Listed) ->
          a + 4 * total = bt + 4 * (sz + sn))
    /\ ((forall sn, B !! (bt + 4 * sz) <> Some (sn, Listed)) ->
          a + 4 * total = bt + 4 * sz).
Proof.
  intros HI Hcov Hlast Hbt Honly.
  pose proof (Inv_geometry h B F HI) as G.
  destruct (Inv_headers h B F HI bt sz Loose Hbt) as (Es & _).
  unfold coalesce. cbv zeta. rewrite Es.
  edestruct (coalesce_stage_next h B F bt sz HI Hcov Hlast Hbt Honly)
    as (h1 & B1 & F1 & t1 & Hrun1 & HI1 & Hsg1 & Hl1 & Hfr1 & R1 & Hc1 & Hc2
        & Hn1 & Hn2).
  rewrite Hrun1. clear Hrun1.
  edestruct (coalesce_stage_prev h B F bt sz HI Hbt Honly h1 B1 F1 t1
               HI1 Hsg1 Hl1 R1)
    as (h2 & B2 & F2 & a & t2 & Hrun2 & HI2 & Hsg2 & Hl2 & Hfr2 & R2 & Ee
        & Ha0 & Hap).
  rewrite Hrun2. clear Hrun2. cbn [fst snd].
  destruct R2 as [Q1 Q2 Q3 Q4 Q5 Q6 Q7].
  rewrite <- Ee in Hc1, Hc2.
  pose proof (coalesce_finish h B h2 B2 F2 bt sz a t2) as Hfin.
  feed Hfin.
  destruct (Hfin _ Hc1 Hc2)
    as (h4 & F4 & Hrun4 & HI4 & Hcov4 & Hlast4 & Hsg4 & Hfr4).
  exists h4, (<[a := (t2, Listed)]> (rewrite_block B2 a t2 Loose)), F4, a, t2.
  split; [exact Hrun4|]. split; [exact HI4|]. split; [exact Hcov4|].
  split; [exact Hlast4|].
  split; [apply (merged_no_loose h B B2 bt sz a t2); assumption|].
  split; [exact Hsg4|].
  split.
  { apply (payload_frame_trans B h h1); [exact Hfr1|].
    apply (payload_frame_trans B h1 h2); [exact Hfr2 | exact Hfr4]. }
  split; [apply (merged_used h B B2 bt sz a t2); assumption|].
  split; [apply lookup_insert_eq|].
  destruct Q7 as (x & szx & stx & Hx & Hax & Hxe).
  pose proof (block_bounds h B G x szx stx Hx).
  split; [lia|]. split; [lia|]. split; [lia|].
  split; [exact Ha0|]. split; [exact Hap|].
  split.
  - intros sn Hn. rewrite (Hn1 sn Hn) in Ee. lia.
  - intros Hn. rewrite (Hn2 Hn) in Ee. lia.
Qed.

Lemma coalesce_spec (h : heap) (B : gmap Z (Z * status)) (F : Z -> list Z)
      (bt sz : Z) :
  Inv h B F -> covered h B -> last_ok h B ->
  B !! bt = Some (sz, Loose) ->
  (forall c szc, B !! c = Some (szc, Loose) -> c = bt) ->
  exists h' B' F' a total,
    coalesce h bt = Done a h'
    /\ Inv h' B' F' /\ covered h' B' /\ last_ok h' B'
    /\ (forall c szc stc, B' !! c = Some (szc, stc) -> stc <> Loose)
    /\ same_globals h h' /\ payload_frame B h h'
    /\ (forall c szc, B !! c = Some (szc, Used) <-> B' !! c = Some (szc, Used))
    /\ B' !! a = Some (total, Listed)
    /\ a <= bt /\ bt + 4 * sz <= a + 4 * total
    /\ a + 4 * total <= heap_epilogue h
    /\ (bt_get_prevfree h bt = 0 -> a = bt)
    /\ (forall p szp, B !! p = Some (szp, Listed) -> p + 4 * szp = bt ->
          bt_get_prevfree h bt <> 0 -> a = p).
Proof.
  intros HI Hcov Hlast Hbt Honly.
  destruct (coalesce_spec_full h B F bt sz HI Hcov Hlast Hbt Honly)
    as (h' & B' & F' & a & total & H1 & H2 & H3 & H4 & H5 & H6 & H7 & H8
        & H9 & H10 & H11 & H12 & H13 & H14 & _).
  exists h', B', F', a, total. repeat (split; [assumption|]). assumption.
Qed.

(** ** Placement on a well-formed heap *)

Lemma rewrite_block_same (h : heap) (B : gmap Z (Z * status)) (bt sz : Z)
      (st st' : status) :
  geometry h B -> B !! bt = Some (sz, st) ->
  rewrite_block B bt sz st' = <[bt := (sz, st')]> B.
Proof.
  intros G Hbt. apply map_eq. intros c. apply option_eq. intros [s t].
  rewrite rewrite_block_lookup, lookup_insert_Some. split.
  - intros [(-> & -> & ->) | (N & Hc & _)]; [left; auto | right; auto].
  - intros [(<- & E) | (N & Hc)].
    + left. inversion E. auto.
    + right. split; [congruence|]. split; [exact Hc|].
      assert (c <> bt) as N' by congruence.
      destruct (sep h B c s t bt sz st G Hc Hbt N') as ([H | H] & H1 & H2);
        lia.
Qed.

Lemma lor_used_pf (pf : Z) :
  pf = 0 \/ pf = 2 -> Z.lor USED pf = used_bit Used + pf.
Proof. intros [-> | ->]; reflexivity. Qed.

Lemma lor_free_pf (pf : Z) :
  pf = 0 \/ pf = 2 -> Z.lor FREE pf = used_bit Loose + pf.
Proof. intros [-> | ->]; reflexivity. Qed.

Lemma prevfree_cases (h : heap) (a : Z) :
  bt_get_prevfree h a = 0 \/ bt_get_prevfree h a = 2.
Proof.
  rewrite bt_get_prevfree_load.
  destruct (hdr_decompose (load h a)) as (_ & _ & _ & H). exact H.
Qed.

Lemma null_not_block (h : heap) (B : gmap Z (Z * status)) :
  geometry h B -> B !! NULL = None.
Proof.
  intros G. destruct (B !! NULL) as [[s t]|] eqn:E; [|reflexivity].
  pose proof (block_bounds h B G NULL s t E). unfold NULL in *. lia.
Qed.

Section Place.
Variables (h : heap) (B : gmap Z (Z * status)) (F : Z -> list Z).
Variables (bt sz words : Z).
Hypothesis HI : Inv h B F.
Hypothesis Hbt : B !! bt = Some (sz, Listed).
Hypothesis Hw4 : words mod 4 = 0.
Hypothesis Hw : 4 <= words <= sz.

Lemma place_whole :
  sz - words < 16 ->
  exists h' F',
    place h bt words = Done tt h'
    /\ Inv h' (<[bt := (sz, Used)]> B) F'
    /\ same_globals h h' /\ last h' = last h /\ payload_frame B h h'.
Proof.
  intros Hno.
  pose proof (Inv_geometry h B F HI) as G.
  pose proof (block_bounds h B G bt sz Listed Hbt) as Hb.
  destruct (Inv_headers h B F HI bt sz Listed Hbt) as (Es & _).
  destruct (free_list_delete_spec h B F bt sz HI Hbt)
    as (h1 & F1 & Hd & HI1 & Hsg1 & Hl1 & Hfr1).
  unfold place. cbv zeta. rewrite Es, Hd. cbn [bind].
  rewrite (to_word_small (sz - words)) by lia.
  unfold ALIGNMENT.
  destruct (16 <=? sz - words) eqn:E; [apply Z.leb_le in E; lia|].
  set (B1 := <[bt := (sz, Loose)]> B) in *.
  assert (B1 !! bt = Some (sz, Loose)) as Hbt1 by apply lookup_insert_eq.
  pose proof (Inv_geometry _ _ _ HI1) as G1.
  pose proof Hsg1 as (Es1 & Ee1 & _).
  destruct (bt_make_spec h1 B1 F1 bt sz USED Used 0 HI1)
    as (HI2 & Hsg2 & Hl2 & Hfr2 & _).
  - split; lia.
  - rewrite Es1, Ee1. lia.
  - lia.
  - discriminate.
  - reflexivity.
  - left; reflexivity.
  - intros c szc stc Hc. destruct (Z.eq_dec c bt) as [-> | N].
    + rewrite Hbt1 in Hc. inversion Hc; subst.
      right. right. repeat split; try lia. discriminate.
    + destruct (sep h1 B1 c szc stc bt sz Loose G1 Hc Hbt1 N)
        as ([H | H] & _); [left | right; left]; lia.
  - discriminate.
  - exists (bt_make h1 bt sz USED), F1. split; [reflexivity|].
    rewrite (rewrite_block_same h1 B1 bt sz Loose Used G1 Hbt1) in HI2.
    unfold B1 in HI2. rewrite insert_insert_eq in HI2.
    split; [exact HI2|].
    split; [apply (same_globals_trans _ _ _ Hsg1 Hsg2)|].
    split; [congruence|].
    intros c szc y Hc Hy.
    assert (c <> bt) as N by (intros ->; congruence).
    assert (B1 !! c = Some (szc, Used)) as Hc1
      by (unfold B1; rewrite lookup_insert_ne by congruence; exact Hc).
    unfold WSIZE in Hy.
    rewrite (Hfr2 c szc y Hc1); [apply (Hfr1 c szc y Hc Hy)| |exact Hy].
    destruct (sep h1 B1 c szc Used bt sz Loose G1 Hc1 Hbt1 N)
      as ([H | H] & _); [left | right]; lia.
Qed.


Lemma split_lookup (c s : Z) (t : status) :
  let rem := bt + 4 * words in
  let B4 := <[rem := (sz - words, Listed)]>
            (rewrite_block
               (rewrite_block (<[bt := (sz, Loose)]> B) bt words Used)
               rem (sz - words) Loose) in
  words < sz ->
  B4 !! c = Some (s, t)
  <-> (c = bt /\ s = words /\ t = Used)
      \/ (c = rem /\ s = sz - words /\ t = Listed)
      \/ (c <> bt /\ c <> rem /\ B !! c = Some (s, t)).
Proof.
  intros rem B4.
  intros Hlt.
  pose proof (Inv_geometry h B F HI) as G.
  pose proof (block_bounds h B G bt sz Listed Hbt) as Hb.
  unfold B4. rewrite lookup_insert_Some. split.
  - intros [(<- & E) | (N & Hc)].
    + inversion E. right. left. auto.
    + apply rewrite_block_lookup in Hc.
      destruct Hc as [(E & _) | (_ & Hc & _)]; [congruence|].
      apply rewrite_block_lookup in Hc.
      destruct Hc as [(-> & -> & ->) | (N1 & Hc & _)]; [left; auto|].
      rewrite lookup_insert_ne in Hc by congruence.
      right. right. split; [exact N1|]. split; [congruence | exact Hc].
  - intros [(-> & -> & ->) | [(-> & -> & ->) | (N1 & N2 & Hc)]].
    + right. split; [unfold rem; lia|].
      apply rewrite_block_lookup. right. split; [unfold rem; lia|].
      split; [|unfold rem; lia].
      apply rewrite_block_lookup. left. auto.
    + left. auto.
    + right. split; [congruence|].
      destruct (sep h B c s t bt sz Listed G Hc Hbt N1) as (Ho & H1 & _).
      apply rewrite_block_lookup. right. split; [exact N2|].
      split; [|unfold rem; lia].
      apply rewrite_block_lookup. right. split; [exact N1|].
      split; [|lia].
      rewrite lookup_insert_ne by congruence. exact Hc.
Qed.

Lemma place_split :
  let rem := bt + 4 * words in
  let B4 := <[rem := (sz - words, Listed)]>
            (rewrite_block
               (rewrite_block (<[bt := (sz, Loose)]> B) bt words Used)
               rem (sz - words) Loose) in
  16 <= sz - words ->
  exists h' F',
    place h bt words = Done tt h'
    /\ Inv h' B4 F'
    /\ same_globals h h'
    /\ last h' = (if last h =? bt then rem else last h)
    /\ payload_frame B h h'.
Proof.
  intros rem B4.
  intros Hsp.
  pose proof (Inv_geometry h B F HI) as G.
  pose proof (block_bounds h B G bt sz Listed Hbt) as Hb.
  destruct (Inv_headers h B F HI bt sz Listed Hbt) as (Es & _).
  destruct (free_list_delete_spec h B F bt sz HI Hbt)
    as (h1 & F1 & Hd & HI1 & Hsg1 & Hl1 & Hfr1).
  unfold place. cbv zeta. rewrite Es, Hd. cbn [bind].
  rewrite (to_word_small (sz - words)) by lia.
  unfold ALIGNMENT.
  destruct (16 <=? sz - words) eqn:E; [|apply Z.leb_gt in E; lia].
  set (B1 := <[bt := (sz, Loose)]> B) in *.
  assert (B1 !! bt = Some (sz, Loose)) as Hbt1 by apply lookup_insert_eq.
  destruct HI1 as (G1 & HH1 & HL1).
  pose proof Hsg1 as (Es1 & Ee1 & _).
  set (pf1 := bt_get_prevfree h1 bt).
  pose proof (prevfree_cases h1 bt) as Hpf1. fold pf1 in Hpf1.
  (* the front part *)
  destruct (bt_make_gen h1 B1 F1 bt words (Z.lor USED pf1) Used pf1 NULL
              (bt + 4 * sz) G1 (headers_weaken NULL h1 B1 HH1) HL1)
    as (G2 & HH2 & HL2 & Hsg2 & Hl2 & Hfr2 & _).
  { split; lia. }
  { rewrite Es1, Ee1. lia. }
  { lia. }
  { discriminate. }
  { apply lor_used_pf. exact Hpf1. }
  { exact Hpf1. }
  { right. apply (null_not_block h1 B1 G1). }
  { intros c szc stc Hc. destruct (Z.eq_dec c bt) as [-> | N].
    - rewrite Hbt1 in Hc. inversion Hc; subst.
      right. right. repeat split; try lia. discriminate.
    - destruct (sep h1 B1 c szc stc bt sz Loose G1 Hc Hbt1 N)
        as ([H | H] & _); [left | right; left]; lia. }
  { intros E2. destruct (HH1 bt sz Loose Hbt1) as (_ & _ & _ & H4).
    apply H4. fold pf1. lia. }
  set (h2 := bt_make h1 bt words (Z.lor USED pf1)) in *.
  set (B2 := rewrite_block B1 bt words Used) in *.
  pose proof Hsg2 as (Es2 & Ee2 & _).
  assert (B2 !! bt = Some (words, Used)) as Hbt2
    by (apply rewrite_block_lookup; left; auto).
  destruct (HH2 bt words Used Hbt2) as (Ebs & _).
  assert (bt_next h2 bt = rem) as En.
  { unfold bt_next, bt_footer. rewrite Ebs. unfold WSIZE, rem.
    destruct (Z.eqb_spec (bt + 4 * words - 4 + 4) (heap_epilogue h2));
      lia. }
  rewrite En.
  (* the rest *)
  destruct (bt_make_gen h2 B2 F1 rem (sz - words) FREE Loose 0
              (bt + 4 * sz) NULL G2 HH2 HL2)
    as (G3 & HH3 & HL3 & Hsg3 & Hl3 & Hfr3 & _).
  { split; [|lia]. rewrite Zminus_mod, Hw4. replace (sz mod 4) with 0 by lia.
    reflexivity. }
  { rewrite Es2, Ee2, Es1, Ee1. unfold rem. lia. }
  { unfold rem. replace (bt + 4 * words) with (bt + words * 4) by lia.
    rewrite Z.mod_add by lia. lia. }
  { discriminate. }
  { reflexivity. }
  { left; reflexivity. }
  { left. unfold rem. lia. }
  { intros c szc stc Hc. apply rewrite_block_lookup in Hc.
    destruct Hc as [(-> & -> & ->) | (N & Hc & _)].
    - left. unfold rem. lia.
    - destruct (sep h1 B1 c szc stc bt sz Loose G1 Hc Hbt1 N)
        as ([H | H] & _); [left | right; left]; unfold rem; lia. }
  { discriminate. }
  set (h3 := bt_make h2 rem (sz - words) FREE) in *.
  set (B3 := rewrite_block B2 rem (sz - words) Loose) in *.
  assert (headers h3 B3) as HH3'
    by (apply (headers_but_not_block NULL);
        [apply (null_not_block h3 B3 G3) | exact HH3]).
  assert (B3 !! rem = Some (sz - words, Loose)) as Hrem3
    by (apply rewrite_block_lookup; left; auto).
  destruct (free_list_append_spec h3 B3 F1 rem (sz - words)
              (conj G3 (conj HH3' HL3)) Hrem3)
    as (h4 & Hrun4 & HI4 & Hsg4 & Hl4 & Hfr4).
  rewrite Hrun4. cbn [bind].
  eexists. eexists. split; [reflexivity|].
  split; [apply Inv_set_last; exact HI4|].
  split.
  { apply (same_globals_trans _ _ _ Hsg1).
    apply (same_globals_trans _ _ _ Hsg2).
    apply (same_globals_trans _ _ _ Hsg3).
    apply (same_globals_trans _ _ _ Hsg4). apply same_globals_set_last. }
  split.
  { cbn [last set_last]. rewrite Hl4, Hl3, Hl2, Hl1. reflexivity. }
  intros c szc y Hc Hy. rewrite load_set_last.
  assert (c <> bt) as N by (intros ->; congruence).
  assert (B1 !! c = Some (szc, Used)) as Hc1
    by (unfold B1; rewrite lookup_insert_ne by congruence; exact Hc).
  destruct (sep h1 B1 c szc Used bt sz Loose G1 Hc1 Hbt1 N) as (Ho & Hp1 & _).
  assert (B2 !! c = Some (szc, Used)) as Hc2.
  { apply rewrite_block_lookup. right. split; [exact N|].
    split; [exact Hc1 | lia]. }
  assert (B3 !! c = Some (szc, Used)) as Hc3.
  { apply rewrite_block_lookup. right. split; [unfold rem; lia|].
    split; [exact Hc2 | unfold rem; lia]. }
  unfold WSIZE in Hy.
  rewrite (Hfr4 c szc y Hc3 Hy).
  rewrite (Hfr3 c szc y Hc2) by (unfold rem; lia).
  rewrite (Hfr2 c szc y Hc1) by lia.
  apply (Hfr1 c szc y Hc Hy).
Qed.

End Place.

Lemma place_spec_full (h : heap) (B : gmap Z (Z * status))
      (bt sz words : Z) :
  well_formed h B -> B !! bt = Some (sz, Listed) ->
  words mod 4 = 0 -> 4 <= words <= sz ->
  exists h' B',
    place h bt words = Done tt h'
    /\ well_formed h' B' /\ same_globals h h' /\ payload_frame B h h'
    /\ B' !! bt = Some ((if 16 <=? sz - words then words else sz), Used)
    /\ (forall c szc, B !! c = Some (szc, Used) -> B' !! c = Some (szc, Used))
    /\ (forall c szc, c <> bt -> B' !! c = Some (szc, Used) ->
          B !! c = Some (szc, Used))
    /\ (16 <= sz - words ->
        B' !! (bt + 4 * words) = Some (sz - words, Listed))
    /\ (forall c szc, c <> bt -> c <> bt + 4 * words ->
          B !! c = Some (szc, Listed) -> B' !! c = Some (szc, Listed)).
Proof.
  intros ((F & HI) & Hcov & Hlast & Hnl) Hbt Hw4 Hw.
  pose proof (Inv_geometry h B F HI) as G.
  pose proof (block_bounds h B G bt sz Listed Hbt) as Hb.
  destruct (Z_lt_le_dec (sz - words) 16) as [Hno | Hsp].
  - (* the whole block is handed out *)
    pose proof (place_whole h B F bt sz words) as P. feed P.
    destruct P as (h' & F' & Hrun & HI' & Hsg & Hl & Hfr).
    exists h', (<[bt := (sz, Used)]> B).
    pose proof Hsg as (_ & Ee & _).
    split; [exact Hrun|]. split.
    { split; [exists F'; exact HI'|]. split.
      - apply (covered_same h h' _ Ee).
        apply (covered_restatus h B bt sz Listed Used Hbt Hcov).
      - split.
        + apply (last_ok_same h h' _ Ee Hl).
          apply (last_ok_restatus h B bt sz Listed Used Hbt Hlast).
        + intros c s t Hc. apply lookup_insert_Some in Hc.
          destruct Hc as [(_ & E) | (_ & Hc)];
            [inversion E; discriminate | apply (Hnl c s t Hc)]. }
    split; [exact Hsg|]. split; [exact Hfr|]. split.
    { destruct (16 <=? sz - words) eqn:E; [apply Z.leb_le in E; lia|].
      apply lookup_insert_eq. }
    split.
    { intros c szc Hc. rewrite lookup_insert_ne; [exact Hc|].
      intros <-. congruence. }
    split.
    { intros c szc N Hc. rewrite lookup_insert_ne in Hc by congruence.
      exact Hc. }
    split; [intros H; lia|].
    intros c szc N _ Hc. rewrite lookup_insert_ne by congruence. exact Hc.
  - (* the block is split *)
    pose proof (place_split h B F bt sz words) as P. feed P.
    cbv zeta in P. feed P.
    destruct P as (h' & F' & Hrun & HI' & Hsg & Hl & Hfr).
    pose proof (split_lookup h B F bt sz words) as SL. feed SL.
    cbv zeta in SL.
    assert (words < sz) as Hlt by lia.
    eexists h', _.
    pose proof Hsg as (_ & Ee & _).
    split; [exact Hrun|]. split.
    { split; [exists F'; exact HI'|]. split.
      - (* covered *)
        intros c s t Hc. apply (SL c s t Hlt) in Hc.
        assert (forall d, d = heap_epilogue h \/ is_Some (B !! d) ->
                  d <> bt + 4 * words ->
                  d = heap_epilogue h' \/
                  is_Some (<[bt + 4 * words := (sz - words, Listed)]>
                     (rewrite_block
                        (rewrite_block (<[bt := (sz, Loose)]> B) bt words
                           Used)
                        (bt + 4 * words) (sz - words) Loose) !! d)) as Hlift.
        { intros d [Hd | [[sd td] Hd]] Nd; [left; congruence|].
          right. destruct (Z.eq_dec d bt) as [-> | Nb].
          - exists (words, Used). apply (SL bt words Used Hlt). left. auto.
          - exists (sd, td). apply (SL d sd td Hlt). right. right. auto. }
        unfold WSIZE.
        destruct Hc as [(-> & -> & ->) | [(-> & -> & ->) | (N1 & N2 & Hc)]].
        + right. exists (sz - words, Listed).
          apply (SL _ _ _ Hlt). right. left. auto.
        + replace (bt + 4 * words + 4 * (sz - words)) with (bt + 4 * sz)
            by lia.
          apply Hlift; [apply (Hcov bt sz Listed Hbt) | lia].
        + apply Hlift; [apply (Hcov c s t Hc)|].
          destruct (sep h B c s t bt sz Listed G Hc Hbt N1) as (Ho & Hs4 & _).
          lia.
      - split.
        + (* last *)
          destruct Hlast as [E0 | (sl & stl & Hlb & Hle)].
          * left. rewrite Hl, E0.
            destruct (Z.eqb_spec NULL bt) as [E | _]; [|reflexivity].
            exfalso. pose proof (null_not_block h B G). congruence.
          * right. rewrite Hl, Ee. unfold WSIZE in *.
            destruct (Z.eqb_spec (last h) bt) as [E | N].
            -- rewrite E, Hbt in Hlb. inversion Hlb; subst sl stl.
               exists (sz - words), Listed. split; [|lia].
               apply (SL _ _ _ Hlt). right. left. auto.
            -- exists sl, stl. split; [|exact Hle].
               apply (SL _ _ _ Hlt). right. right.
               split; [exact N|]. split; [|exact Hlb].
               intros E.
               destruct (sep h B _ sl stl bt sz Listed G Hlb Hbt N)
                 as (Ho & Hs4 & _). lia.
        + intros c s t Hc. apply (SL c s t Hlt) in Hc.
          destruct Hc as [(_ & _ & ->) | [(_ & _ & ->) | (_ & _ & Hc)]];
            [discriminate | discriminate | apply (Hnl c s t Hc)]. }
    split; [exact Hsg|]. split; [exact Hfr|]. split.
    { destruct (16 <=? sz - words) eqn:E; [|apply Z.leb_gt in E; lia].
      apply (SL _ _ _ Hlt). left. auto. }
    split.
    { intros c szc Hc. apply (SL _ _ _ Hlt). right. right.
      assert (c <> bt) as N by (intros ->; congruence).
      split; [exact N|]. split; [|exact Hc].
      destruct (sep h B c szc Used bt sz Listed G Hc Hbt N) as (Ho & Hs4 & _).
      lia. }
    split.
    { intros c szc N Hc. apply (SL c szc Used Hlt) in Hc.
      destruct Hc as [(E & _) | [(_ & _ & E) | (_ & _ & Hc)]];
        [congruence | discriminate | exact Hc]. }
    split; [intros _; apply (SL _ _ _ Hlt); right; left; auto|].
    intros c szc N1 N2 Hc. apply (SL _ _ _ Hlt). right. right. auto.
Qed.

Lemma place_spec (h : heap) (B : gmap Z (Z * status)) (bt sz words : Z) :
  well_formed h B -> B !! bt = Some (sz, Listed) ->
  words mod 4 = 0 -> 4 <= words <= sz ->
  exists h' B',
    place h bt words = Done tt h'
    /\ well_formed h' B' /\ same_globals h h' /\ payload_frame B h h'
    /\ B' !! bt = Some ((if 16 <=? sz - words then words else sz), Used)
    /\ (forall c szc, B !! c = Some (szc, Used) -> B' !! c = Some (szc, Used))
    /\ (forall c szc, c <> bt -> B' !! c = Some (szc, Used) ->
          B !! c = Some (szc, Used)).
Proof.
  intros WF Hbt Hw4 Hw.
  destruct (place_spec_full h B bt sz words WF Hbt Hw4 Hw)
    as (h' & B' & H1 & H2 & H3 & H4 & H5 & H6 & H7 & _).
  exists h', B'. auto 10.
Qed.

(** ** Freeing on a well-formed heap *)

Lemma free_spec (h : heap) (B : gmap Z (Z * status)) (bt sz : Z) :
  well_formed h B -> B !! bt = Some (sz, Used) ->
  exists h' B' a total,
    free h (bt + WSIZE) = Done tt h'
    /\ well_formed h' B' /\ same_globals h h'
    /\ (forall c szc y, B !! c = Some (szc, Used) -> c <> bt ->
          c < y < c + 4 * szc -> load h' y = load h y)
    /\ (forall c szc, c <> bt -> B !! c = Some (szc, Used) ->
          B' !! c = Some (szc, Used))
    /\ (forall c szc, B' !! c = Some (szc, Used) ->
          c <> bt /\ B !! c = Some (szc, Used))
    /\ B' !! a = Some (total, Listed)
    /\ a <= bt /\ bt + 4 * sz <= a + 4 * total.
Proof.
  intros ((F & HI) & Hcov & Hlast & Hnl) Hbt.
  pose proof (Inv_geometry h B F HI) as G.
  pose proof (block_bounds h B G bt sz Used Hbt) as Hb.
  destruct (Inv_headers h B F HI bt sz Used Hbt) as (Es & _ & _ & Hw0).
  unfold free.
  destruct (Z.eqb_spec (bt + WSIZE) NULL) as [E | _];
    [unfold WSIZE, NULL in E; lia|].
  replace (bt + WSIZE - WSIZE) with bt by lia. cbv zeta. rewrite Es.
  set (pf0 := bt_get_prevfree h bt).
  pose proof (prevfree_cases h bt) as Hpf0. fold pf0 in Hpf0.
  destruct (bt_make_spec h B F bt sz (Z.lor FREE pf0) Loose pf0 HI)
    as (HI1 & Hsg1 & Hl1 & Hfr1 & _).
  { split; lia. }
  { lia. }
  { lia. }
  { discriminate. }
  { apply lor_free_pf. exact Hpf0. }
  { exact Hpf0. }
  { intros c szc stc Hc. destruct (Z.eq_dec c bt) as [-> | N].
    - rewrite Hbt in Hc. inversion Hc; subst.
      right. right. repeat split; try lia. discriminate.
    - destruct (sep h B c szc stc bt sz Used G Hc Hbt N)
        as ([H | H] & _); [left | right; left]; lia. }
  { intros E2. apply Hw0. fold pf0. lia. }
  rewrite (rewrite_block_same h B bt sz Used Loose G Hbt) in HI1.
  set (h1 := bt_make h bt sz (Z.lor FREE pf0)) in *.
  set (B1 := <[bt := (sz, Loose)]> B) in *.
  pose proof Hsg1 as (_ & Ee1 & _).
  assert (B1 !! bt = Some (sz, Loose)) as Hbt1 by apply lookup_insert_eq.
  assert (covered h1 B1) as Hcov1.
  { apply (covered_same h h1 _ Ee1).
    apply (covered_restatus h B bt sz Used Loose Hbt Hcov). }
  assert (last_ok h1 B1) as Hlast1.
  { apply (last_ok_same h h1 _ Ee1 Hl1).
    apply (last_ok_restatus h B bt sz Used Loose Hbt Hlast). }
  assert (forall c szc, B1 !! c = Some (szc, Loose) -> c = bt) as Honly.
  { intros c szc Hc. apply lookup_insert_Some in Hc.
    destruct Hc as [(E & _) | (_ & Hc)]; [congruence|].
    exfalso. apply (Hnl c szc Loose Hc). reflexivity. }
  assert (forall c szc, c <> bt -> B !! c = Some (szc, Used) ->
            B1 !! c = Some (szc, Used)) as Hin1.
  { intros c szc N Hc. unfold B1. rewrite lookup_insert_ne by congruence.
    exact Hc. }
  assert (forall c szc, B1 !! c = Some (szc, Used) ->
            c <> bt /\ B !! c = Some (szc, Used)) as Hout1.
  { intros c szc Hc. apply lookup_insert_Some in Hc.
    destruct Hc as [(_ & E) | (N & Hc)]; [discriminate|].
    split; [congruence | exact Hc]. }
  assert (forall c szc y, B !! c = Some (szc, Used) -> c <> bt ->
            c < y < c + 4 * szc -> load h1 y = load h y) as Hfr1'.
  { intros c szc y Hc N Hy. apply (Hfr1 c szc y Hc); [|exact Hy].
    destruct (sep h B c szc Used bt sz Used G Hc Hbt N) as (Ho & _).
    exact Ho. }
  destruct (negb (bt_get_prevfree h1 bt =? 0)
            || negb (bt_next h1 bt =? NULL)
               && negb (bt_used h1 (bt_next h1 bt) =? 0)).
  - destruct (coalesce_spec h1 B1 F bt sz HI1 Hcov1 Hlast1 Hbt1 Honly)
      as (h' & B' & F' & a & total & Hrun & HI' & Hcov' & Hlast' & Hnl'
          & Hsg' & Hfr' & Hu' & Ha & Hle1 & Hle2 & _).
    exists h', B', a, total. rewrite Hrun. cbn [bind].
    split; [reflexivity|].
    split; [split; [exists F'; exact HI' | auto]|].
    split; [apply (same_globals_trans _ _ _ Hsg1 Hsg')|].
    split.
    { intros c szc y Hc N Hy.
      rewrite (Hfr' c szc y (Hin1 c szc N Hc)) by (unfold WSIZE; lia).
      apply (Hfr1' c szc y Hc N Hy). }
    split; [intros c szc N Hc; apply Hu'; apply (Hin1 c szc N Hc)|].
    split; [intros c szc Hc; apply (Hout1 c szc); apply Hu'; exact Hc|].
    auto.
  - destruct (free_list_append_spec h1 B1 F bt sz HI1 Hbt1)
      as (h' & Hrun & HI' & Hsg' & Hl' & Hfr').
    pose proof Hsg' as (_ & Ee' & _).
    exists h', (<[bt := (sz, Listed)]> B1), bt, sz.
    split; [exact Hrun|].
    split.
    { split; [eexists; exact HI'|]. split.
      - apply (covered_same h1 h' _ Ee').
        apply (covered_restatus h1 B1 bt sz Loose Listed Hbt1 Hcov1).
      - split.
        + apply (last_ok_same h1 h' _ Ee' Hl').
          apply (last_ok_restatus h1 B1 bt sz Loose Listed Hbt1 Hlast1).
        + intros c s t Hc. apply lookup_insert_Some in Hc.
          destruct Hc as [(_ & E) | (N & Hc)];
            [inversion E; discriminate|].
          apply lookup_insert_Some in Hc.
          destruct Hc as [(E & _) | (_ & Hc)];
            [congruence | apply (Hnl c s t Hc)]. }
    split; [apply (same_globals_trans _ _ _ Hsg1 Hsg')|].
    split.
    { intros c szc y Hc N Hy.
      rewrite (Hfr' c szc y (Hin1 c szc N Hc)) by (unfold WSIZE; lia).
      apply (Hfr1' c szc y Hc N Hy). }
    split.
    { intros c szc N Hc. rewrite lookup_insert_ne by congruence.
      apply (Hin1 c szc N Hc). }
    split.
    { intros c szc Hc. apply lookup_insert_Some in Hc.
      destruct Hc as [(_ & E) | (N & Hc)]; [discriminate|].
      apply (Hout1 c szc Hc). }
    split; [apply lookup_insert_eq | lia].
Qed.

(** ** Extending the heap *)

Lemma Inv_PUT_beyond (h : heap) (B : gmap Z (Z * status)) (F : Z -> list Z)
      (p v : Z) :
  heap_epilogue h <= p -> Inv h B F -> Inv (PUT h p v) B F.
Proof.
  intros Hp (G & HH & HL).
  split; [apply geometry_PUT; exact G|]. split.
  - apply (headers_same h); [|exact HH].
    intros a sz st Ha. pose proof (block_bounds h B G a sz st Ha).
    unfold WSIZE. split; [|intros _]; apply load_PUT_ne; lia.
  - destruct HL as (Hlen & Hbk & Hcomp).
    split; [exact Hlen|]. split; [|exact Hcomp].
    intros j Hj. destruct (Hbk j Hj) as (Hhd & Hds & Hnd & Hel).
    split; [rewrite read_bucket_PUT; exact Hhd|].
    split; [|split; [exact Hnd | exact Hel]].
    apply (dseg_same h); [reflexivity| |exact Hds].
    intros a Hin. destruct (Hel a Hin) as (s & Hs & _).
    pose proof (block_bounds h B G a s Listed Hs).
    unfold WSIZE. split; apply load_PUT_ne; lia.
Qed.

Lemma load_grown (h : heap) (size x : Z) : load (grown h size) x = load h x.
Proof. reflexivity. Qed.

Lemma Inv_grown (h : heap) (B : gmap Z (Z * status)) (F : Z -> list Z)
      (size : Z) :
  size mod 16 = 0 -> 0 <= size -> mem_brk h + size <= mem_max_addr h ->
  Inv h B F -> Inv (grown h size) B F.
Proof.
  intros Hm Hs Hmax (G & HH & HL).
  split; [|split].
  - pose proof (block_bounds h B G) as Hbb.
    destruct G as [G1 G2 G3 G4 G5 G6].
    constructor; cbn [grown heap_start heap_epilogue mem_brk mem_max_addr
                      past_table set_heap_epilogue set_brk];
      try assumption.
    + split; [lia|]. rewrite Zplus_mod, Hm, Z.add_0_r, Z.mod_mod by lia.
      apply G2.
    + unfold WSIZE in *. lia.
    + intros a sz st Ha. specialize (G5 a sz st Ha). unfold WSIZE in *. lia.
  - apply (headers_same h); [|exact HH]. intros a sz st Ha. auto.
  - destruct HL as (Hlen & Hbk & Hcomp).
    split; [exact Hlen|]. split; [|exact Hcomp].
    intros j Hj. destruct (Hbk j Hj) as (Hhd & Hds & Hnd & Hel).
    split; [exact Hhd|]. split; [|split; [exact Hnd | exact Hel]].
    apply (dseg_same h); [reflexivity| |exact Hds]. intros a _. auto.
Qed.

Lemma extend_heap_fails (h : heap) (size : Z) :
  0 <= size -> mem_max_addr h < mem_brk h + size ->
  extend_heap h size = Done NULL h.
Proof.
  intros Hs Hmax. unfold extend_heap, mem_sbrk.
  destruct (Z.ltb_spec size 0); [lia|].
  destruct (Z.ltb_spec (mem_max_addr h) (mem_brk h + size)); [|lia].
  reflexivity.
Qed.

Lemma extend_flags_cases (h : heap) :
  (last h <> NULL /\ bt_used h (last h) = 0 /\ extend_flags h = 2)
  \/ (~ (last h <> NULL /\ bt_used h (last h) = 0) /\ extend_flags h = 0).
Proof.
  unfold extend_flags.
  destruct (Z.eqb_spec (last h) NULL) as [E | N]; cbn [negb andb].
  - right. split; [tauto | reflexivity].
  - destruct (Z.eqb_spec (bt_used h (last h)) 0) as [E | N'].
    + left. auto.
    + right. split; [tauto | reflexivity].
Qed.

Lemma extend_heap_epilogue (h : heap) (epi w f : Z) :
  w mod 4 = 0 /\ 4 <= w <= 2 ^ 31 - 4 -> f = 0 \/ f = 2 ->
  epi = heap_epilogue h -> 12 <= epi ->
  let h3 := set_last (bt_make h epi w f) epi in
  PUT (set_heap_epilogue h3 (bt_footer h3 epi + WSIZE))
      (bt_footer h3 epi + WSIZE) (PACK 0 USED)
  = PUT (set_last (bt_make (set_heap_epilogue h (epi + 4 * w)) epi w f) epi)
        (epi + 4 * w) 1.
Proof.
  intros Hw Hf He H12 h3.
  assert (0 <= f < 4) as Hf4 by lia.
  assert (f mod 2 = 0) as Hf2 by (destruct Hf as [-> | ->]; reflexivity).
  destruct (packed_word w f Hw Hf4) as (_ & Pw & Ps & _).
  assert (bt_make h epi w f
          = PUT (PUT (PUT h epi (w + f)) (epi + 4 * w)
                     (hdr_size (load h (epi + 4 * w))
                      + hdr_used (load h (epi + 4 * w)) + 2))
                (epi + 4 * w - 4) (w + f)) as E1.
  { apply bt_make_free; try assumption; unfold NULL; lia. }
  assert (bt_make (set_heap_epilogue h (epi + 4 * w)) epi w f
          = PUT (PUT (set_heap_epilogue h (epi + 4 * w)) epi (w + f))
                (epi + 4 * w - 4) (w + f)) as E2.
  { apply bt_make_at_end; try assumption. reflexivity. }
  assert (bt_size h3 epi = w) as Es.
  { rewrite bt_size_load. unfold h3. rewrite load_set_last, E1.
    rewrite !load_PUT_ne by lia. rewrite load_PUT_eq, Pw. exact Ps. }
  unfold bt_footer. rewrite Es. unfold h3. rewrite E1, E2.
  replace (epi + WSIZE * w - WSIZE + WSIZE) with (epi + 4 * w)
    by (unfold WSIZE; lia).
  unfold PUT, set_last, set_heap_epilogue, set_mem.
  cbn [mem mem_brk mem_max_addr heap_start heap_epilogue last
       segregated_list table_addr past_table].
  f_equal.
  rewrite (insert_insert_ne _ (epi + 4 * w - 4) (epi + 4 * w)) by lia.
  rewrite insert_insert_eq. reflexivity.
Qed.

Lemma bt_make_globals (h : heap) (bt w f : Z) :
  same_globals h (bt_make h bt w f)
  /\ last (bt_make h bt w f) = last h
  /\ segregated_list (bt_make h bt w f) = segregated_list h.
Proof.
  unfold bt_make, bt_clr_prevfree, bt_set_prevfree.
  repeat match goal with |- context [if ?c then _ else _] => destruct c end;
    repeat split; reflexivity.
Qed.

Lemma extend_heap_unfold (h : heap) (B : gmap Z (Z * status)) (size : Z) :
  geometry h B ->
  size mod 16 = 0 -> 16 <= size -> mem_brk h + size <= mem_max_addr h ->
  extend_heap h size
  = coalesce (PUT (set_last (bt_make (grown h size) (heap_epilogue h)
                               (size / 4) (extend_flags h))
                            (heap_epilogue h))
                  (heap_epilogue h + size) 1)
             (heap_epilogue h).
Proof.
  intros G Hm Hs Hmax.
  pose proof (geometry_span h B G) as (Hs1 & Hs2 & Hs3).
  destruct G as [G1 G2 G3 G4 G5 G6].
  pose proof (Z.div_mod size 16 ltac:(lia)) as Hd16.
  pose proof (Z.div_mod size 4 ltac:(lia)) as Hd4.
  pose proof (Z.mod_pos_bound size 4 ltac:(lia)) as Hp4.
  pose proof (Z.div_mod (heap_epilogue h) 16 ltac:(lia)) as He16.
  assert ((size / 4) mod 4 = 0 /\ 4 <= size / 4 <= 2 ^ 31 - 4) as Hw.
  { pose proof (Z.div_mod (size / 4) 4 ltac:(lia)).
    pose proof (Z.mod_pos_bound (size / 4) 4 ltac:(lia)).
    unfold WSIZE in *. lia. }
  assert (extend_flags h = 0 \/ extend_flags h = 2) as Hf.
  { destruct (extend_flags_cases h) as [(_ & _ & E) | (_ & E)]; auto. }
  unfold extend_heap, mem_sbrk.
  destruct (Z.ltb_spec size 0); [lia|].
  destruct (Z.ltb_spec (mem_max_addr h) (mem_brk h + size)); [lia|].
  cbn [orb].
  destruct (Z.eqb_spec (mem_brk h) SBRK_FAILED) as [E | _].
  { exfalso. unfold SBRK_FAILED, WSIZE in *. lia. }
  cbv zeta.
  set (h1 := set_brk h (mem_brk h + size)).
  change (heap_epilogue h1) with (heap_epilogue h).
  change (last h1) with (last h).
  change (bt_used h1 (last h)) with (bt_used h (last h)).
  fold (extend_flags h).
  change (size / WSIZE) with (size / 4).
  rewrite (to_word_small (size / 4)) by lia.
  cbn [heap_epilogue set_heap_epilogue].
  pose proof (extend_heap_epilogue h1 (heap_epilogue h) (size / 4)
                (extend_flags h) Hw Hf eq_refl ltac:(lia)) as EE.
  cbv zeta in EE. rewrite EE. clear EE.
  replace (heap_epilogue h + 4 * (size / 4)) with (heap_epilogue h + size)
    by lia.
  change (set_heap_epilogue h1 (heap_epilogue h + size)) with (grown h size).
  change (heap_epilogue (PUT ?X ?p ?v)) with (heap_epilogue X).
  change (heap_epilogue (set_last ?X ?p)) with (heap_epilogue X).
  destruct (bt_make_globals (grown h size) (heap_epilogue h) (size / 4)
              (extend_flags h)) as ((_ & -> & _) & _).
  change (heap_epilogue (grown h size)) with (heap_epilogue h + size).
  destruct (Z.eqb_spec ((heap_epilogue h + size) mod 16) 12) as [_ | N];
    [reflexivity|].
  exfalso. apply N. rewrite Zplus_mod, Hm, Z.add_0_r, Z.mod_mod by lia.
  apply G2.
Qed.

Lemma extend_heap_spec (h : heap) (B : gmap Z (Z * status)) (size : Z) :
  well_formed h B ->
  size mod 16 = 0 -> 16 <= size -> mem_brk h + size <= mem_max_addr h ->
  exists h' B' a total,
    extend_heap h size = Done a h'
    /\ well_formed h' B'
    /\ heap_start h' = heap_start h
    /\ heap_epilogue h' = heap_epilogue h + size
    /\ mem_brk h' = mem_brk h + size
    /\ mem_max_addr h' = mem_max_addr h
    /\ payload_frame B h h'
    /\ (forall c szc, B !! c = Some (szc, Used) <-> B' !! c = Some (szc, Used))
    /\ B' !! a = Some (total, Listed)
    /\ a + 4 * total = heap_epilogue h + size
    /\ (last h <> NULL /\ bt_used h (last h) = 0 -> a = last h)
    /\ (~ (last h <> NULL /\ bt_used h (last h) = 0) -> a = heap_epilogue h).
Proof.
  intros ((F & HI) & Hcov & Hlast & Hnl) Hm Hs Hmax.
  pose proof (Inv_geometry h B F HI) as G.
  pose proof (block_bounds h B G) as Hbb.
  rewrite (extend_heap_unfold h B size G Hm Hs Hmax).
  pose proof (Inv_grown h B F size Hm ltac:(lia) Hmax HI) as HIg.
  pose proof (geometry_span h B G) as (Hs1 & Hs2 & Hs3).
  pose proof (geo_epilogue h B G) as (Ge1 & Ge2).
  pose proof (geo_brk h B G) as (Gb1 & Gb2 & Gb3).
  pose proof (Z.div_mod size 16 ltac:(lia)) as Hd16.
  pose proof (Z.div_mod size 4 ltac:(lia)) as Hd4.
  pose proof (Z.mod_pos_bound size 4 ltac:(lia)) as Hp4.
  pose proof (Z.div_mod (heap_epilogue h) 16 ltac:(lia)) as He16.
  pose proof (Z.div_mod (heap_epilogue h) 4 ltac:(lia)) as He4.
  pose proof (Z.mod_pos_bound (heap_epilogue h) 4 ltac:(lia)) as Hq4.
  set (epi := heap_epilogue h) in *.
  set (w := size / 4) in *.
  assert (w mod 4 = 0 /\ 4 <= w) as Hw.
  { pose proof (Z.div_mod w 4 ltac:(lia)).
    pose proof (Z.mod_pos_bound w 4 ltac:(lia)). lia. }
  assert (4 * w = size) as Hw4 by lia.
  assert (forall c szc stc, B !! c = Some (szc, stc) ->
            c + 4 * szc <= epi /\ c <> epi /\ c < epi) as Hlow.
  { intros c szc stc Hc. pose proof (Hbb c szc stc Hc). unfold epi. lia. }
  destruct (bt_make_spec (grown h size) B F epi w (extend_flags h) Loose
              (extend_flags h) HIg)
    as (HI2 & Hsg2 & Hl2 & Hfr2 & Hpf2).
  { exact Hw. }
  { cbn [grown heap_start heap_epilogue set_heap_epilogue set_brk].
    fold epi. lia. }
  { lia. }
  { discriminate. }
  { reflexivity. }
  { destruct (extend_flags_cases h) as [(_ & _ & E) | (_ & E)]; auto. }
  { intros c szc stc Hc. left. apply (Hlow c szc stc Hc). }
  { intros E2.
    destruct (extend_flags_cases h) as [(N & Eu & _) | (_ & E)]; [|lia].
    destruct Hlast as [E0 | (sl & stl & Hlb & Hle)]; [congruence|].
    exists (last h), sl, stl. split; [exact Hlb|]. split; [|exact Hle].
    destruct (Inv_headers h B F HI _ sl stl Hlb) as (_ & Hu & _).
    intros ->. rewrite Hu in Eu. discriminate. }
  set (g2 := bt_make (grown h size) epi w (extend_flags h)) in *.
  set (B2 := rewrite_block B epi w Loose) in *.
  pose proof Hsg2 as (Es2 & Ee2 & Eb2 & Em2 & Ep2).
  set (g5 := PUT (set_last g2 epi) (epi + size) 1).
  assert (Inv g5 B2 F) as HI5.
  { apply Inv_PUT_beyond; [|apply Inv_set_last; exact HI2].
    change (heap_epilogue (set_last g2 epi)) with (heap_epilogue g2).
    rewrite Ee2. cbn [grown heap_epilogue set_heap_epilogue]. fold epi. lia. }
  assert (heap_epilogue g5 = epi + size) as Ee5.
  { change (heap_epilogue g5) with (heap_epilogue g2). rewrite Ee2.
    reflexivity. }
  assert (B2 !! epi = Some (w, Loose)) as Hepi
    by (apply rewrite_block_lookup; left; auto).
  assert (forall c szc stc, B !! c = Some (szc, stc) ->
            B2 !! c = Some (szc, stc)) as Hkeep.
  { intros c szc stc Hc. apply rewrite_block_lookup. right.
    destruct (Hlow c szc stc Hc) as (_ & N & Hlt). auto. }
  assert (covered g5 B2) as Hcov5.
  { intros c s t Hc. rewrite Ee5. apply rewrite_block_lookup in Hc.
    unfold WSIZE.
    destruct Hc as [(-> & -> & ->) | (N & Hc & _)]; [left; lia|].
    right. destruct (Hcov c s t Hc) as [E | [[sd td] Hd]].
    - unfold WSIZE in E. fold epi in E. rewrite E. eauto.
    - exists (sd, td). apply (Hkeep _ _ _ Hd). }
  assert (last_ok g5 B2) as Hlast5.
  { right. exists w, Loose. change (last g5) with epi.
    split; [exact Hepi|]. rewrite Ee5. unfold WSIZE. lia. }
  assert (forall c szc, B2 !! c = Some (szc, Loose) -> c = epi) as Honly.
  { intros c szc Hc. apply rewrite_block_lookup in Hc.
    destruct Hc as [(E & _) | (_ & Hc & _)]; [exact E|].
    exfalso. apply (Hnl c szc Loose Hc). reflexivity. }
  destruct (coalesce_spec g5 B2 F epi w HI5 Hcov5 Hlast5 Hepi Honly)
    as (h' & B' & F' & a & total & Hrun & HI' & Hcov' & Hlast' & Hnl'
        & Hsg' & Hfr' & Hu' & Ha & Hle1 & Hle2 & Hle3 & Ha0 & Hap).
  pose proof Hsg' as (Es' & Ee' & Eb' & Em' & Ep').
  assert (bt_get_prevfree g5 epi = extend_flags h) as Hpf5.
  { rewrite <- Hpf2. rewrite !bt_get_prevfree_load. unfold g5.
    rewrite load_PUT_ne by lia. rewrite load_set_last. reflexivity. }
  exists h', B', a, total.
  split; [exact Hrun|].
  split; [split; [exists F'; exact HI' | auto]|].
  split; [rewrite Es'; change (heap_start g5) with (heap_start g2);
          rewrite Es2; reflexivity|].
  split; [rewrite Ee', Ee5; reflexivity|].
  split; [rewrite Eb'; change (mem_brk g5) with (mem_brk g2);
          rewrite Eb2; reflexivity|].
  split; [rewrite Em'; change (mem_max_addr g5) with (mem_max_addr g2);
          rewrite Em2; reflexivity|].
  split.
  { intros c szc y Hc Hy.
    destruct (Hlow c szc Used Hc) as (Hc1 & Hc2 & Hc3).
    rewrite (Hfr' c szc y (Hkeep _ _ _ Hc) Hy).
    unfold g5. unfold WSIZE in Hy.
    rewrite load_PUT_ne by lia. rewrite load_set_last.
    rewrite (Hfr2 c szc y Hc) by lia. reflexivity. }
  split.
  { intros c szc. rewrite <- Hu'. split; [apply Hkeep|].
    intros Hc. apply rewrite_block_lookup in Hc.
    destruct Hc as [(_ & _ & E) | (_ & Hc & _)]; [discriminate | exact Hc]. }
  split; [exact Ha|].
  rewrite Ee5 in Hle3.
  split; [lia|].
  split.
  - intros (N & Eu).
    destruct (extend_flags_cases h) as [(_ & _ & E) | (N' & _)];
      [|tauto].
    destruct Hlast as [E0 | (sl & stl & Hlb & Hle)]; [congruence|].
    destruct (Inv_headers h B F HI _ sl stl Hlb) as (_ & Hu & _).
    assert (stl = Listed) as ->.
    { destruct stl; [rewrite Hu in Eu; discriminate | reflexivity|].
      exfalso. apply (Hnl _ _ _ Hlb). reflexivity. }
    apply (Hap (last h) sl (Hkeep _ _ _ Hlb)); [exact Hle|].
    rewrite Hpf5, E. discriminate.
  - intros N. apply Ha0. rewrite Hpf5.
    destruct (extend_flags_cases h) as [(N1 & N2 & _) | (_ & E)];
      [tauto | exact E].
Qed.

(** ** The search for a fit *)

Lemma size_class_mono (a b : Z) : a <= b -> size_class a <= size_class b.
Proof.
  intros H. unfold size_class.
  repeat match goal with
  | |- context [?x <=? ?y] => destruct (Z.leb_spec x y)
  end; lia.
Qed.

Section FindFit.
Variables (h : heap) (B : gmap Z (Z * status)) (F : Z -> list Z).
Variable words : Z.
Hypothesis HI : Inv h B F.

Lemma first_fit_walk (fuel : nat) :
  forall (L : list Z) (prev r : Z),
  (forall a, In a L -> exists sz, B !! a = Some (sz, Listed)) ->
  dseg h prev L (sentinel h) ->
  first_fit fuel h (hd NULL L) words = Some r ->
  (r = NULL
   /\ forall a sz, In a L -> B !! a = Some (sz, Listed) -> sz < words)
  \/ (r <> NULL /\ exists sz, B !! r = Some (sz, Listed) /\ words <= sz).
Proof.
  pose proof (Inv_geometry h B F HI) as G.
  induction fuel as [|fuel IH]; intros L prev r Hel Hds Hr; [discriminate|].
  destruct L as [|a L'].
  - cbn [hd first_fit] in Hr.
    destruct (Z.eqb_spec NULL NULL) as [_ | N]; [|congruence].
    inversion Hr. left. split; [reflexivity|]. intros a sz [].
  - cbn [hd first_fit] in Hr.
    destruct (Hel a (or_introl eq_refl)) as (sz & Ha).
    destruct (sentinel_not_block h B G a sz Listed Ha) as (_ & N & _).
    destruct (Z.eqb_spec a NULL) as [E | _]; [contradiction|].
    destruct (Inv_headers h B F HI a sz Listed Ha) as (Es & _).
    rewrite Es in Hr.
    destruct (Z.leb_spec words sz) as [Hle | Hlt].
    + inversion Hr; subst r. right. split; [exact N|]. eauto.
    + destruct Hds as (_ & Hn & Hds').
      assert (get_free_list_next h a = hd NULL L') as En.
      { unfold get_free_list_next.
        apply (link_decode h B L' _ G); [|exact Hn].
        intros b Hb. destruct (Hel b (or_intror Hb)) as (s & Hs). eauto. }
      rewrite En in Hr.
      destruct (IH L' a r (fun b Hb => Hel b (or_intror Hb)) Hds' Hr)
        as [(-> & Hall) | Hfit]; [|right; exact Hfit].
      left. split; [reflexivity|].
      intros b sb [<- | Hin] Hb; [|apply (Hall b sb Hin Hb)].
      rewrite Ha in Hb. inversion Hb; subst. exact Hlt.
Qed.

Lemma bucket_head (j : Z) :
  0 <= j < N_BUCKETS ->
  (F j = [] /\ ptr_diff (read_bucket h j) (heap_start h) = -1)
  \/ (F j <> [] /\ read_bucket h j = hd NULL (F j)
      /\ ptr_diff (read_bucket h j) (heap_start h) <> -1).
Proof.
  intros Hj.
  pose proof (Inv_geometry h B F HI) as G.
  destruct (Inv_lists h B F HI) as (_ & Hbk & _).
  destruct (Hbk j Hj) as (Hhd & _ & _ & Hel).
  rewrite Hhd. destruct (F j) as [|a L] eqn:E.
  - left. split; [reflexivity|]. apply (link_of_sentinel h).
  - right. split; [discriminate|]. split; [reflexivity|]. cbn [hd].
    destruct (Hel a (or_introl eq_refl)) as (s & Hs & _).
    pose proof (link_of_block h B G a s Listed Hs). lia.
Qed.

Lemma skip_empty_spec (n : nat) :
  forall index reads,
  0 <= index <= N_BUCKETS -> N_BUCKETS - index < Z.of_nat n ->
  index <= fst (skip_empty n h index reads) <= N_BUCKETS
  /\ (forall j, index <= j < fst (skip_empty n h index reads) -> F j = [])
  /\ (fst (skip_empty n h index reads) < N_BUCKETS ->
      F (fst (skip_empty n h index reads)) <> []).
Proof.
  induction n as [|n IH]; intros index reads Hi Hn; [lia|].
  cbn [skip_empty].
  destruct (Z.ltb_spec index N_BUCKETS) as [Hlt | Hge].
  - destruct (bucket_head index ltac:(lia)) as [(E & Ed) | (E & _ & Ed)].
    + rewrite Ed, Z.eqb_refl. cbn [andb].
      destruct (IH (index + 1) (reads ++ [index]) ltac:(lia) ltac:(lia))
        as (H1 & H2 & H3).
      split; [lia|]. split; [|exact H3].
      intros j Hj. destruct (Z.eq_dec j index) as [-> | N]; [exact E|].
      apply H2. lia.
    + destruct (Z.eqb_spec (ptr_diff (read_bucket h index) (heap_start h))
                  (-1)) as [E1 | _]; [contradiction|].
      cbn [andb fst]. split; [lia|]. split; [intros j Hj; lia|].
      intros _. exact E.
  - rewrite andb_false_r. cbn [fst].
    split; [lia|]. split; [intros j Hj; lia|]. lia.
Qed.

Lemma find_fit_loop_spec (fuel : nat) (n : nat) :
  forall index reads r reads' h',
  0 <= index < N_BUCKETS -> N_BUCKETS - index <= Z.of_nat n ->
  find_fit_loop n fuel h index words reads = Done (r, reads') h' ->
  h' = h
  /\ ((r = NULL
       /\ forall j a sz, index <= j < N_BUCKETS -> In a (F j) ->
            B !! a = Some (sz, Listed) -> sz < words)
      \/ (r <> NULL
          /\ exists sz, B !! r = Some (sz, Listed) /\ words <= sz)).
Proof.
  pose proof (Inv_geometry h B F HI) as G.
  destruct (Inv_lists h B F HI) as (_ & Hbk & _).
  induction n as [|n IH]; intros index reads r reads' h' Hi Hn Hr;
    [unfold N_BUCKETS in *; lia|].
  cbn [find_fit_loop] in Hr.
  pose proof (skip_empty_spec (Z.to_nat (N_BUCKETS - index) + 1) index reads
                ltac:(lia) ltac:(lia)) as (S1 & S2 & S3).
  destruct (skip_empty (Z.to_nat (N_BUCKETS - index) + 1) h index reads)
    as [i1 reads1].
  cbn [fst] in S1, S2, S3.
  assert (exists L prev,
            read_bucket h i1 = hd NULL L
            /\ (forall a, In a L -> exists sz, B !! a = Some (sz, Listed))
            /\ dseg h prev L (sentinel h)
            /\ (i1 < N_BUCKETS -> L = F i1)
            /\ (i1 = N_BUCKETS -> L = [])) as (L & prev & Eh & Hel & Hds
                                              & EL1 & EL2).
  { destruct (Z.eq_dec i1 N_BUCKETS) as [-> | N].
    - exists [], 0. split.
      + unfold read_bucket. cbn. apply (geo_past h B G).
      + split; [intros a []|]. split; [exact I|]. split; [lia | auto].
    - destruct (bucket_head i1 ltac:(lia)) as [(E & _) | (_ & E & _)];
        [exfalso; apply S3; [lia | exact E]|].
      destruct (Hbk i1 ltac:(lia)) as (_ & Hds & _ & Hel).
      exists (F i1), (sentinel h). split; [exact E|]. split.
      + intros a Ha. destruct (Hel a Ha) as (s & Hs & _). eauto.
      + split; [exact Hds|]. split; [auto | lia]. }
  rewrite Eh in Hr.
  destruct (first_fit fuel h (hd NULL L) words) as [bt|] eqn:Ef;
    [|discriminate].
  destruct (first_fit_walk fuel L prev bt Hel Hds Ef)
    as [(-> & Hall) | (N & Hfit)].
  - cbn [negb] in Hr. rewrite Z.eqb_refl in Hr. cbn [negb] in Hr.
    assert (forall j a sz, index <= j <= i1 -> j < N_BUCKETS ->
              In a (F j) -> B !! a = Some (sz, Listed) -> sz < words)
      as Hsofar.
    { intros j a sz Hj Hj2 Hin Ha.
      destruct (Z.eq_dec j i1) as [-> | Nj].
      - rewrite <- (EL1 Hj2) in Hin. apply (Hall a sz Hin Ha).
      - rewrite (S2 j) in Hin by lia. destruct Hin. }
    destruct (Z.ltb_spec (i1 + 1) N_BUCKETS) as [Hlt | Hge].
    + destruct (IH (i1 + 1) _ r reads' h' ltac:(lia) ltac:(lia) Hr)
        as (-> & [(-> & Hrest) | Hfit]); (split; [reflexivity|]);
        [left | right; exact Hfit].
      split; [reflexivity|].
      intros j a sz Hj Hin Ha.
      destruct (Z_le_gt_dec j i1) as [Hle | Hgt].
      * apply (Hsofar j a sz); [lia | lia | exact Hin | exact Ha].
      * apply (Hrest j a sz); [lia | exact Hin | exact Ha].
    + inversion Hr; subst. split; [reflexivity|]. left.
      split; [reflexivity|].
      intros j a sz Hj Hin Ha.
      apply (Hsofar j a sz); [lia | lia | exact Hin | exact Ha].
  - destruct (Z.eqb_spec bt NULL) as [E | _]; [contradiction|].
    cbn [negb] in Hr. inversion Hr; subst.
    split; [reflexivity|]. right. split; [exact N | exact Hfit].
Qed.

Lemma find_fit_spec (fuel : nat) (r : Z) (reads : list Z) (h' : heap) :
  3 <= words < 2 ^ 31 ->
  find_fit fuel h words = Done (r, reads) h' ->
  h' = h
  /\ ((r = NULL
       /\ forall a sz, B !! a = Some (sz, Listed) -> sz < words)
      \/ (r <> NULL
          /\ exists sz, B !! r = Some (sz, Listed) /\ words <= sz)).
Proof.
  intros Hw Hr. unfold find_fit, bucket_index in Hr.
  rewrite (find_bucket_size_class words Hw) in Hr. cbn [bind] in Hr.
  pose proof (size_class_range words) as Hc.
  destruct (find_fit_loop_spec fuel (Z.to_nat N_BUCKETS) (size_class words)
              [] r reads h' Hc ltac:(unfold N_BUCKETS in *; lia) Hr)
    as (-> & [(-> & Hall) | Hfit]); (split; [reflexivity|]);
    [left | right; exact Hfit].
  split; [reflexivity|]. intros a sz Ha.
  destruct (Z_lt_le_dec sz words) as [Hlt | Hle]; [exact Hlt|].
  destruct (Inv_lists h B F HI) as (_ & _ & Hcomp).
  pose proof (size_class_mono words sz Hle).
  pose proof (size_class_range sz).
  apply (Hall (size_class sz) a sz); [lia | apply (Hcomp a sz Ha) | exact Ha].
Qed.

End FindFit.

(** ** Allocation on a well-formed heap *)

Lemma malloc_unfold (fuel : nat) (h : heap) (n : Z) :
  n <> 0 ->
  malloc fuel h n
  = do (fit, h1) <- find_fit fuel h (request_words n);
    if negb (fst fit =? NULL) then
      do (_, h2) <- place h1 (fst fit) (request_words n);
      Done (fst fit + WSIZE) h2
    else
      do (bt, h2) <- extend_heap h1 (needed_bytes h1 n);
      if bt =? NULL then Done NULL h2 else
      do (_, h3) <- place h2 bt (request_words n);
      Done (bt + WSIZE) h3.
Proof.
  intros N. unfold malloc.
  destruct (Z.eqb_spec n 0); [contradiction | reflexivity].
Qed.

Lemma land_align (y : Z) :
  0 <= y < 2 ^ 64 -> Z.land y (to_size (- ALIGNMENT)) = 16 * (y / 16).
Proof.
  intros Hy.
  change (to_size (- ALIGNMENT)) with (4 * (4 * (2 ^ 60 - 1) + 0) + 0).
  destruct (word_split y) as (Ey & Hr).
  destruct (word_split (y / 4)) as (Eq & Hr').
  rewrite Ey at 1. rewrite land_word by lia.
  rewrite Eq at 1. rewrite land_word by lia.
  rewrite !Z.land_0_r.
  change (2 ^ 60 - 1) with (Z.ones 60).
  rewrite Z.land_ones by lia.
  rewrite Z.div_div by lia. change (4 * 4) with 16.
  rewrite Z.mod_small; [lia|].
  split; [apply Z.div_pos; lia|].
  apply Z.div_lt_upper_bound; lia.
Qed.

Lemma request_facts (n : Z) :
  0 < n < 2 ^ 33 - 19 ->
  request_size n = 4 * request_words n
  /\ request_words n mod 4 = 0
  /\ 4 <= request_words n < 2 ^ 31
  /\ n + 4 <= request_size n
  /\ request_size n mod 16 = 0.
Proof.
  intros Hn.
  assert (request_size n = 16 * ((n + 19) / 16)) as Es.
  { unfold request_size, round_up.
    rewrite (to_size_small (WSIZE + n)) by (unfold WSIZE; lia).
    rewrite to_size_small by (unfold WSIZE, ALIGNMENT; lia).
    rewrite land_align by (unfold WSIZE, ALIGNMENT; lia).
    unfold WSIZE, ALIGNMENT. f_equal. f_equal. lia. }
  pose proof (Z.div_mod (n + 19) 16 ltac:(lia)) as Hd.
  pose proof (Z.mod_pos_bound (n + 19) 16 ltac:(lia)) as Hp.
  set (k := (n + 19) / 16) in *.
  assert (request_words n = 4 * k) as Ew.
  { unfold request_words. rewrite Es. unfold WSIZE.
    replace (16 * k) with ((4 * k) * 4) by lia.
    rewrite Z.div_mul by lia. apply to_word_small. lia. }
  rewrite Ew, Es.
  split; [lia|]. split.
  { replace (4 * k) with (k * 4) by lia. apply Z.mod_mul. lia. }
  split; [lia|]. split; [lia|].
  replace (16 * k) with (k * 16) by lia. apply Z.mod_mul. lia.
Qed.

Lemma last_free_block (h : heap) (B : gmap Z (Z * status)) :
  well_formed h B -> last h <> NULL -> bt_used h (last h) = 0 ->
  exists sl, B !! last h = Some (sl, Listed)
             /\ bt_size h (last h) = sl
             /\ last h + 4 * sl = heap_epilogue h.
Proof.
  intros ((F & HI) & _ & Hlast & Hnl) N Eu.
  destruct Hlast as [E0 | (sl & stl & Hlb & Hle)]; [congruence|].
  destruct (Inv_headers h B F HI _ sl stl Hlb) as (Es & Hu & _).
  exists sl. split; [|auto].
  destruct stl; [rewrite Hu in Eu; discriminate | exact Hlb|].
  exfalso. apply (Hnl _ _ _ Hlb). reflexivity.
Qed.

Lemma needed_facts (h : heap) (B : gmap Z (Z * status)) (n : Z) :
  well_formed h B -> 0 < n < 2 ^ 33 - 19 ->
  (forall a sz, B !! a = Some (sz, Listed) -> sz < request_words n) ->
  needed_bytes h n mod 16 = 0 /\ 16 <= needed_bytes h n
  /\ (last h <> NULL /\ bt_used h (last h) = 0 ->
      needed_bytes h n = request_size n - 4 * bt_size h (last h))
  /\ (~ (last h <> NULL /\ bt_used h (last h) = 0) ->
      needed_bytes h n = request_size n).
Proof.
  intros WF Hn Hmiss.
  destruct (request_facts n Hn) as (Es & Ew4 & Ew & Ep & Em).
  unfold needed_bytes.
  destruct (Z.eqb_spec (last h) NULL) as [E | N]; cbn [negb andb].
  { split; [exact Em|]. split; [lia|]. split; [tauto | auto]. }
  destruct (Z.eqb_spec (bt_used h (last h)) 0) as [Eu | Nu].
  2:{ split; [exact Em|]. split; [lia|]. split; [tauto | auto]. }
  destruct (last_free_block h B WF N Eu) as (sl & Hlb & Esl & Hle).
  pose proof (Hmiss _ _ Hlb) as Hlt.
  destruct WF as ((F & HI) & _).
  pose proof (block_bounds h B (Inv_geometry h B F HI) _ _ _ Hlb) as Hb.
  rewrite Esl. unfold WSIZE.
  rewrite (to_size_small sl) by lia.
  rewrite to_size_small by lia.
  pose proof (Z.div_mod sl 4 ltac:(lia)) as Hd.
  pose proof (Z.div_mod (request_words n) 4 ltac:(lia)) as Hdw.
  split.
  { rewrite Es.
    replace (4 * request_words n - sl * 4)
      with ((request_words n / 4 - sl / 4) * 16) by lia.
    apply Z.mod_mul. lia. }
  split; [lia|]. split; [intros _; lia | tauto].
Qed.

Lemma malloc_hit (fuel : nat) (h : heap) (B : gmap Z (Z * status)) (n : Z)
      (bt : Z) (reads : list Z) (h0 : heap) :
  well_formed h B -> 0 < n < 2 ^ 33 - 19 ->
  find_fit fuel h (request_words n) = Done (bt, reads) h0 -> bt <> NULL ->
  exists h' B' sz szq,
    malloc fuel h n = Done (bt + WSIZE) h'
    /\ B !! bt = Some (sz, Listed)
    /\ well_formed h' B' /\ same_globals h h' /\ payload_frame B h h'
    /\ B' !! bt = Some (szq, Used) /\ request_words n <= szq
    /\ (forall c szc, B !! c = Some (szc, Used) -> B' !! c = Some (szc, Used))
    /\ (forall c szc, c <> bt -> B' !! c = Some (szc, Used) ->
          B !! c = Some (szc, Used)).
Proof.
  intros WF Hn Hff N.
  destruct (request_facts n Hn) as (Es & Ew4 & Ew & Ep & Em).
  pose proof WF as ((F & HI) & _).
  destruct (find_fit_spec h B F (request_words n) HI fuel bt reads h0
              ltac:(lia) Hff) as (-> & [(E & _) | (_ & sz & Hbt & Hle)]);
    [contradiction|].
  destruct (place_spec h B bt sz (request_words n) WF Hbt Ew4 ltac:(lia))
    as (h' & B' & Hrun & WF' & Hsg & Hfr & Hq & Hu & Hback).
  exists h', B', sz, (if 16 <=? sz - request_words n
                      then request_words n else sz).
  rewrite malloc_unfold by lia. rewrite Hff. cbn [bind fst].
  destruct (Z.eqb_spec bt NULL) as [E | _]; [contradiction|].
  cbn [negb]. rewrite Hrun. cbn [bind].
  split; [reflexivity|]. split; [exact Hbt|]. split; [exact WF'|].
  split; [exact Hsg|]. split; [exact Hfr|]. split; [exact Hq|].
  split; [|split; [exact Hu | exact Hback]].
  destruct (16 <=? sz - request_words n); lia.
Qed.

Lemma malloc_miss (fuel : nat) (h : heap) (B : gmap Z (Z * status)) (n : Z)
      (reads : list Z) (h0 : heap) :
  well_formed h B -> 0 < n < 2 ^ 33 - 19 ->
  find_fit fuel h (request_words n) = Done (NULL, reads) h0 ->
  (mem_max_addr h < mem_brk h + needed_bytes h n ->
   malloc fuel h n = Done NULL h)
  /\ (mem_brk h + needed_bytes h n <= mem_max_addr h ->
      exists h' B' a,
        malloc fuel h n = Done (a + WSIZE) h'
        /\ a = (if negb (last h =? NULL) && (bt_used h (last h) =? 0)
                then last h else heap_epilogue h)
        /\ a <> NULL
        /\ well_formed h' B'
        /\ B' !! a = Some (request_words n, Used)
        /\ (forall s, B !! a <> Some (s, Used))
        /\ a + 4 * request_words n = heap_epilogue h'
        /\ heap_start h' = heap_start h
        /\ heap_epilogue h' = heap_epilogue h + needed_bytes h n
        /\ mem_brk h' = mem_brk h + needed_bytes h n
        /\ payload_frame B h h'
        /\ (forall c szc, B !! c = Some (szc, Used) ->
              B' !! c = Some (szc, Used))
        /\ (forall c szc, c <> a -> B' !! c = Some (szc, Used) ->
              B !! c = Some (szc, Used))).
Proof.
  intros WF Hn Hff.
  destruct (request_facts n Hn) as (Es & Ew4 & Ew & Ep & Em).
  pose proof WF as ((F & HI) & _).
  pose proof (Inv_geometry h B F HI) as G.
  destruct (find_fit_spec h B F (request_words n) HI fuel NULL reads h0
              ltac:(lia) Hff) as (-> & [(_ & Hmiss) | (N & _)]);
    [|congruence].
  destruct (needed_facts h B n WF Hn Hmiss) as (Nm & Nl & Nf & Nn).
  rewrite malloc_unfold by lia. rewrite Hff. cbn [bind fst].
  rewrite Z.eqb_refl. cbn [negb].
  split.
  - intros Hfail. rewrite extend_heap_fails by lia. cbn [bind].
    rewrite Z.eqb_refl. reflexivity.
  - intros Hok.
    destruct (extend_heap_spec h B (needed_bytes h n) WF Nm Nl Hok)
      as (h1 & B1 & a & total & Hrun & WF1 & Es1 & Ee1 & Eb1 & Em1 & Hfr1
          & Hu1 & Ha & Hat & Hlf & Hnlf).
    rewrite Hrun. cbn [bind].
    pose proof WF1 as ((F1 & HI1) & _).
    pose proof (Inv_geometry h1 B1 F1 HI1) as G1.
    assert (a <> NULL) as Na.
    { intros ->. rewrite (null_not_block h1 B1 G1) in Ha. discriminate. }
    destruct (Z.eqb_spec a NULL) as [E | _]; [contradiction|].
    assert (a = (if negb (last h =? NULL) && (bt_used h (last h) =? 0)
                 then last h else heap_epilogue h)
            /\ total = request_words n) as (Ea & Et).
    { destruct (Z.eqb_spec (last h) NULL) as [E | N]; cbn [negb andb].
      { assert (a = heap_epilogue h) as -> by (apply Hnlf; tauto).
        split; [reflexivity|]. rewrite Nn in Hat by tauto. lia. }
      destruct (Z.eqb_spec (bt_used h (last h)) 0) as [Eu | Nu].
      2:{ assert (a = heap_epilogue h) as -> by (apply Hnlf; tauto).
          split; [reflexivity|]. rewrite Nn in Hat by tauto. lia. }
      assert (a = last h) as -> by (apply Hlf; tauto).
      split; [reflexivity|].
      destruct (last_free_block h B WF N Eu) as (sl & Hlb & Esl & Hle).
      rewrite Nf in Hat by tauto. lia. }
    subst total.
    destruct (place_spec h1 B1 a (request_words n) (request_words n) WF1 Ha
                Ew4 ltac:(lia))
      as (h' & B' & Hrun' & WF' & Hsg' & Hfr' & Hq & Hu' & Hback').
    rewrite Hrun'. cbn [bind].
    pose proof Hsg' as (Es' & Ee' & Eb' & Em' & _).
    exists h', B', a.
    split; [reflexivity|]. split; [exact Ea|]. split; [exact Na|].
    split; [exact WF'|].
    split.
    { destruct (Z.leb_spec 16 (request_words n - request_words n));
        [lia | exact Hq]. }
    split.
    { intros s Hs. apply Hu1 in Hs. congruence. }
    split; [lia|]. split; [congruence|]. split; [congruence|].
    split; [congruence|]. split.
    { apply (payload_frame_trans B h h1); [exact Hfr1|].
      apply (payload_frame_sub B B1); [|exact Hfr'].
      intros c s Hc. apply Hu1. exact Hc. }
    split.
    { intros c szc Hc. apply Hu'. apply Hu1. exact Hc. }
    intros c szc Nc Hc. apply Hu1. apply (Hback' c szc Nc Hc).
Qed.

(** ** Copying a payload *)

Lemma malloc_spec (fuel : nat) (h : heap) (B : gmap Z (Z * status)) (n : Z)
      (q : Z) (h' : heap) :
  well_formed h B -> 0 < n < 2 ^ 33 - 19 ->
  malloc fuel h n = Done q h' ->
  (q = NULL /\ h' = h)
  \/ (q <> NULL
      /\ exists B' szq,
           well_formed h' B'
           /\ B' !! (q - WSIZE) = Some (szq, Used)
           /\ request_words n <= szq
           /\ (forall s, B !! (q - WSIZE) <> Some (s, Used))
           /\ payload_frame B h h'
           /\ heap_start h' = heap_start h
           /\ (forall c szc, B !! c = Some (szc, Used) ->
                 B' !! c = Some (szc, Used))
           /\ (forall c szc, c <> q - WSIZE -> B' !! c = Some (szc, Used) ->
                 B !! c = Some (szc, Used))).
Proof.
  intros WF Hn Hm.
  pose proof WF as ((F & HI) & _).
  pose proof (Inv_geometry h B F HI) as G.
  destruct (find_fit fuel h (request_words n)) as [[bt reads] h0| |] eqn:Hff.
  2:{ rewrite malloc_unfold, Hff in Hm by lia. discriminate. }
  2:{ rewrite malloc_unfold, Hff in Hm by lia. discriminate. }
  destruct (Z.eq_dec bt NULL) as [-> | N].
  - destruct (malloc_miss fuel h B n reads h0 WF Hn Hff) as (Hfail & Hok).
    destruct (Z_lt_le_dec (mem_max_addr h) (mem_brk h + needed_bytes h n))
      as [Hlt | Hle].
    + rewrite (Hfail Hlt) in Hm. inversion Hm. left. auto.
    + destruct (Hok Hle) as (h1 & B1 & a & Hrun & _ & Na & WF1 & Ha & Hnew
                             & _ & Es & _ & _ & Hfr & Hu & Hback).
      rewrite Hrun in Hm. inversion Hm; subst q h1. right.
      replace (a + WSIZE - WSIZE) with a by lia.
      split; [unfold WSIZE, NULL in *; pose proof WF1 as ((F1 & HI1) & _);
              pose proof (block_bounds h' B1 (Inv_geometry _ _ _ HI1)
                            _ _ _ Ha); lia|].
      exists B1, (request_words n).
      split; [exact WF1|]. split; [exact Ha|]. split; [lia|].
      split; [exact Hnew|]. split; [exact Hfr|]. split; [exact Es|].
      split; [exact Hu | exact Hback].
  - destruct (malloc_hit fuel h B n bt reads h0 WF Hn Hff N)
      as (h1 & B1 & sz & szq & Hrun & Hbt & WF1 & Hsg & Hfr & Hq & Hle & Hu
          & Hback).
    rewrite Hrun in Hm. inversion Hm; subst q h1. right.
    replace (bt + WSIZE - WSIZE) with bt by lia.
    split; [pose proof (block_bounds h B G _ _ _ Hbt);
            unfold WSIZE, NULL; lia|].
    exists B1, szq.
    split; [exact WF1|]. split; [exact Hq|]. split; [exact Hle|].
    split; [intros s Hs; congruence|]. split; [exact Hfr|].
    split; [apply Hsg|]. split; [exact Hu | exact Hback].
Qed.

Section Memcpy.
Variables (h : heap) (dst src : Z).


Lemma copy_out (l : list nat) :
  let put := fun (h' : heap) (i : nat) => PUT h' (dst + WSIZE * Z.of_nat i) (load h (src + WSIZE * Z.of_nat i)) in
  forall h0 x,
  (forall i, In i l -> x <> dst + WSIZE * Z.of_nat i) ->
  load (fold_left put l h0) x = load h0 x.
Proof.
  intros put.
  induction l as [|a l IH]; intros h0 x Hx; [reflexivity|].
  cbn [fold_left]. rewrite IH by (intros i Hi; apply Hx; right; exact Hi).
  unfold put. apply load_PUT_ne. apply Hx. left. reflexivity.
Qed.

Lemma copy_in (l : list nat) :
  let put := fun (h' : heap) (i : nat) => PUT h' (dst + WSIZE * Z.of_nat i) (load h (src + WSIZE * Z.of_nat i)) in
  forall h0 i, In i l ->
  load (fold_left put l h0) (dst + WSIZE * Z.of_nat i)
  = to_word (load h (src + WSIZE * Z.of_nat i)).
Proof.
  intros put.
  induction l as [|a l IH]; intros h0 i Hi; [destruct Hi|].
  cbn [fold_left].
  destruct (in_dec Nat.eq_dec i l) as [Hin | Hout]; [apply IH; exact Hin|].
  destruct Hi as [-> | Hin]; [|contradiction].
  rewrite copy_out.
  - unfold put. apply load_PUT_eq.
  - intros j Hj E. apply Hout.
    assert (j = i) as -> by (unfold WSIZE in E; lia). exact Hj.
Qed.

Lemma copy_globals (l : list nat) :
  let put := fun (h' : heap) (i : nat) => PUT h' (dst + WSIZE * Z.of_nat i) (load h (src + WSIZE * Z.of_nat i)) in
  forall h0,
  same_globals h0 (fold_left put l h0)
  /\ last (fold_left put l h0) = last h0
  /\ segregated_list (fold_left put l h0) = segregated_list h0.
Proof.
  intros put.
  induction l as [|a l IH]; intros h0.
  - split; [apply same_globals_refl | auto].
  - cbn [fold_left]. destruct (IH (put h0 a)) as (H1 & H2 & H3).
    split; [|split; [rewrite H2 | rewrite H3]; reflexivity].
    apply (same_globals_trans _ (put h0 a)); [|exact H1].
    apply same_globals_PUT.
Qed.

End Memcpy.

Lemma memcpy_spec (h : heap) (dst src k : Z) :
  0 <= k ->
  (forall i, 0 <= i < k ->
     load (memcpy h dst src (4 * k)) (dst + 4 * i)
     = to_word (load h (src + 4 * i)))
  /\ (forall x, ~ (dst <= x < dst + 4 * k) ->
        load (memcpy h dst src (4 * k)) x = load h x)
  /\ same_globals h (memcpy h dst src (4 * k))
  /\ last (memcpy h dst src (4 * k)) = last h
  /\ segregated_list (memcpy h dst src (4 * k)) = segregated_list h.
Proof.
  intros Hk. unfold memcpy.
  replace (4 * k / WSIZE) with k
    by (unfold WSIZE; rewrite Z.mul_comm, Z.div_mul; lia).
  split; [|split].
  - intros i Hi.
    pose proof (copy_in h dst src (seq 0 (Z.to_nat k)) h (Z.to_nat i)) as H.
    cbv zeta in H. rewrite Z2Nat.id in H by lia. unfold WSIZE in H.
    apply H. apply in_seq. lia.
  - intros x Hx.
    pose proof (copy_out h dst src (seq 0 (Z.to_nat k)) h x) as H.
    cbv zeta in H. apply H. intros i Hi E. apply in_seq in Hi.
    unfold WSIZE in E. lia.
  - pose proof (copy_globals h dst src (seq 0 (Z.to_nat k)) h) as H.
    cbv zeta in H. exact H.
Qed.

(** Writes that miss every header and every free block keep the
    invariant. *)
Lemma Inv_meta (h h' : heap) (B : gmap Z (Z * status)) (F : Z -> list Z) :
  same_globals h h' -> segregated_list h' = segregated_list h ->
  (forall x, meta h B x -> load h' x = load h x) ->
  Inv h B F -> Inv h' B F.
Proof.
  intros Hsg Hseg Hld (G & HH & HL).
  pose proof Hsg as (Es & _ & _ & _ & Ep).
  split; [apply (geometry_same h h' B Hsg G)|]. split.
  - apply (headers_same h); [|exact HH].
    intros a sz st Ha. pose proof (block_bounds h B G a sz st Ha).
    split; [|intros Hst]; apply Hld; left; exists a, sz, st;
      (split; [exact Ha|]); [left; reflexivity|].
    right. split; [exact Hst | unfold WSIZE; lia].
  - destruct HL as (Hlen & Hbk & Hcomp).
    split; [congruence|]. split; [|exact Hcomp].
    intros j Hj. destruct (Hbk j Hj) as (Hhd & Hds & Hnd & Hel).
    rewrite (sentinel_same h h' Es).
    split; [unfold read_bucket; rewrite Hseg, Ep; exact Hhd|].
    split; [|split; [exact Hnd | exact Hel]].
    apply (dseg_same h h'); [exact Es| |exact Hds].
    intros a Hin. destruct (Hel a Hin) as (s & Hs & _).
    pose proof (block_bounds h B G a s Listed Hs).
    split; apply Hld; left; exists a, s, Listed;
      (split; [exact Hs|]); right; (split; [discriminate|]);
      unfold WSIZE; lia.
Qed.

Lemma well_formed_payload_write (h h' : heap) (B : gmap Z (Z * status))
      (a sz : Z) :
  well_formed h B -> B !! a = Some (sz, Used) ->
  same_globals h h' -> last h' = last h ->
  segregated_list h' = segregated_list h ->
  (forall x, ~ (a < x < a + 4 * sz) -> load h' x = load h x) ->
  well_formed h' B.
Proof.
  intros ((F & HI) & Hcov & Hlast & Hnl) Ha Hsg Hl Hseg Hld.
  pose proof (Inv_geometry h B F HI) as G.
  pose proof (block_bounds h B G a sz Used Ha) as Hb.
  pose proof Hsg as (_ & Ee & _).
  split; [exists F|split; [|split; [|exact Hnl]]].
  - apply (Inv_meta h h' B F Hsg Hseg); [|exact HI].
    intros x [(c & s & t & Hc & [-> | (Ht & Hx)]) | Hx]; apply Hld.
    + intros Hin.
      apply (start_not_inside h B G a sz Used c s t c Ha Hc Hin).
      reflexivity.
    + intros Hin. unfold WSIZE in Hx.
      destruct (Z.eq_dec c a) as [-> | N]; [congruence|].
      destruct (sep h B c s t a sz Used G Hc Ha N) as (Ho & _). lia.
    + lia.
  - apply (covered_same h h' B Ee Hcov).
  - apply (last_ok_same h h' B Ee Hl Hlast).
Qed.

(** ** Moving a block *)

Lemma realloc_moves_full (fuel : nat) (h : heap) (B : gmap Z (Z * status))
      (p so n q : Z) (h1 : heap) :
  well_formed h B -> B !! (p - WSIZE) = Some (so, Used) ->
  0 < n < 2 ^ 33 - 19 ->
  malloc fuel h n = Done q h1 -> q <> NULL ->
  exists h' B' sn,
    realloc fuel h p n = Done q h'
    /\ well_formed h' B'
    /\ B' !! (q - WSIZE) = Some (sn, Used)
    /\ n <= 4 * sn - 4
    /\ (forall i, 0 <= i < Z.min (so - 1) (sn - 1) ->
          load h' (q + 4 * i) = to_word (load h (p + 4 * i)))
    /\ (forall s, B' !! (p - WSIZE) <> Some (s, Used))
    /\ (exists a t, B' !! a = Some (t, Listed)
                    /\ a <= p - WSIZE /\ p - WSIZE + 4 * so <= a + 4 * t)
    /\ (forall c szc, c <> p - WSIZE -> B !! c = Some (szc, Used) ->
          B' !! c = Some (szc, Used))
    /\ (forall c szc, B' !! c = Some (szc, Used) ->
          c = q - WSIZE \/ (c <> p - WSIZE /\ B !! c = Some (szc, Used)))
    /\ (forall c szc y, B !! c = Some (szc, Used) -> c <> p - WSIZE ->
          c < y < c + 4 * szc -> load h' y = load h y).
Proof.
  intros WF Hp Hn Hm Nq.
  destruct (request_facts n Hn) as (Es & Ew4 & Ew & Ep & Em).
  destruct (malloc_spec fuel h B n q h1 WF Hn Hm)
    as [(E & _) | (_ & B1 & sn & WF1 & Hq & Hle & Hnew & Hfr & Est & Hu
                   & Hback)];
    [contradiction|].
  pose proof (Hu _ _ Hp) as Hp1.
  pose proof WF1 as ((F1 & HI1) & _).
  pose proof (Inv_geometry h1 B1 F1 HI1) as G1.
  pose proof (block_bounds h1 B1 G1 _ _ _ Hq) as Hbq.
  pose proof (block_bounds h1 B1 G1 _ _ _ Hp1) as Hbp.
  assert (q - WSIZE <> p - WSIZE) as Nqp.
  { intros E. rewrite E in Hnew. apply (Hnew so Hp). }
  destruct (sep h1 B1 _ _ _ _ _ _ G1 Hq Hp1 Nqp) as (Hsep & _).
  destruct (Inv_headers h1 B1 F1 HI1 _ _ _ Hq) as (Esn & _).
  destruct (Inv_headers h1 B1 F1 HI1 _ _ _ Hp1) as (Eso & _).
  unfold WSIZE in *.
  set (m := Z.min so sn).
  set (h2 := memcpy h1 q p (4 * (m - 1))).
  assert (realloc fuel h p n
          = do (_, h3) <- free h2 p; Done q h3) as Er.
  { unfold realloc.
    destruct (Z.eqb_spec n 0) as [E | _]; [lia|].
    destruct (Z.eqb_spec p NULL) as [E | _]; [unfold NULL in E; lia|].
    rewrite Hm. cbn [bind].
    destruct (Z.eqb_spec q NULL) as [E | _]; [contradiction|].
    cbv zeta. unfold WSIZE. rewrite Esn, Eso.
    rewrite (to_size_small sn), (to_size_small so) by lia.
    rewrite (to_size_small (sn * 4)), (to_size_small (so * 4)) by lia.
    rewrite (to_size_small (sn * 4 - 4)), (to_size_small (so * 4 - 4))
      by lia.
    unfold h2, m.
    destruct (Z.ltb_spec (so * 4) (sn * 4)) as [Hlt | Hge].
    - rewrite Z.min_l by lia.
      replace (so * 4 - 4) with (4 * (so - 1)) by lia. reflexivity.
    - rewrite Z.min_r by lia.
      replace (sn * 4 - 4) with (4 * (sn - 1)) by lia. reflexivity. }
  destruct (memcpy_spec h1 q p (m - 1) ltac:(unfold m; lia))
    as (Hin & Hout & Hsg2 & Hl2 & Hseg2).
  fold h2 in Hin, Hout, Hsg2, Hl2, Hseg2.
  assert (well_formed h2 B1) as WF2.
  { apply (well_formed_payload_write h1 h2 B1 (q - 4) sn WF1 Hq Hsg2 Hl2
             Hseg2).
    intros x Hx. apply Hout. unfold m. lia. }
  destruct (free_spec h2 B1 (p - 4) so WF2 Hp1)
    as (h' & B' & a & t & Hrun & WF' & Hsg' & Hfr' & Hin' & Hout' & Ha
        & Ha1 & Ha2).
  unfold WSIZE in Hrun. replace (p - 4 + 4) with p in Hrun by lia.
  exists h', B', sn.
  split; [rewrite Er, Hrun; reflexivity|].
  split; [exact WF'|].
  split; [apply Hin'; [exact Nqp | exact Hq]|].
  split; [lia|].
  split.
  { intros i Hi.
    assert (Z.min (so - 1) (sn - 1) = m - 1) as Emin by (unfold m; lia).
    rewrite (Hfr' (q - 4) sn (q + 4 * i) Hq Nqp) by lia.
    rewrite (Hin i) by lia.
    rewrite (Hfr (p - 4) so (p + 4 * i) Hp) by (unfold WSIZE; lia).
    reflexivity. }
  split.
  { intros s Hs. destruct (Hout' _ _ Hs) as (N & _). congruence. }
  split; [exists a, t; auto|].
  split.
  { intros c szc Nc Hc. apply Hin'; [exact Nc|]. apply Hu. exact Hc. }
  split.
  { intros c szc Hc. destruct (Hout' _ _ Hc) as (N & Hc1).
    destruct (Z.eq_dec c (q - 4)) as [E | Ne]; [left; exact E|].
    right. split; [exact N|]. apply (Hback c szc Ne Hc1). }
  intros c szc y Hc Nc Hy.
  pose proof (Hu _ _ Hc) as Hc1.
  assert (c <> q - 4) as Ncq.
  { intros ->. apply (Hnew szc Hc). }
  destruct (sep h1 B1 _ _ _ _ _ _ G1 Hc1 Hq Ncq) as (Hsep' & _).
  rewrite (Hfr' c szc y Hc1 Nc Hy).
  rewrite Hout by (unfold m; lia).
  apply (Hfr c szc y Hc). unfold WSIZE. exact Hy.
Qed.

Lemma realloc_moves (fuel : nat) (h : heap) (B : gmap Z (Z * status))
      (p so n q : Z) (h1 : heap) :
  well_formed h B -> B !! (p - WSIZE) = Some (so, Used) ->
  0 < n < 2 ^ 33 - 19 ->
  (forall i, 0 <= i < so - 1 ->
     to_word (load h (p + 4 * i)) = load h (p + 4 * i)) ->
  malloc fuel h n = Done q h1 -> q <> NULL ->
  exists h' B' sn,
    realloc fuel h p n = Done q h'
    /\ well_formed h' B'
    /\ B' !! (q - WSIZE) = Some (sn, Used)
    /\ n <= 4 * sn - 4
    /\ (forall i, 0 <= i < Z.min (so - 1) (sn - 1) ->
          load h' (q + 4 * i) = load h (p + 4 * i))
    /\ (forall s, B' !! (p - WSIZE) <> Some (s, Used))
    /\ (exists a t, B' !! a = Some (t, Listed)
                    /\ a <= p - WSIZE /\ p - WSIZE + 4 * so <= a + 4 * t).
Proof.
  intros WF Hp Hn Hwd Hm Nq.
  destruct (realloc_moves_full fuel h B p so n q h1 WF Hp Hn Hm Nq)
    as (h' & B' & sn & Hrun & WF' & Hq & Hle & Hcopy & Hold & Hfree & _).
  exists h', B', sn.
  split; [exact Hrun|]. split; [exact WF'|]. split; [exact Hq|].
  split; [exact Hle|]. split; [|split; [exact Hold | exact Hfree]].
  intros i Hi. rewrite (Hcopy i Hi). apply Hwd. lia.
Qed.

Lemma realloc_fails (fuel : nat) (h : heap) (p n : Z) (h1 : heap) :
  p <> NULL -> n <> 0 ->
  malloc fuel h n = Done NULL h1 ->
  realloc fuel h p n = Done NULL h1.
Proof.
  intros Np Nn Hm. unfold realloc.
  destruct (Z.eqb_spec n 0) as [E | _]; [contradiction|].
  destruct (Z.eqb_spec p NULL) as [E | _]; [contradiction|].
  rewrite Hm. reflexivity.
Qed.

(** ** Enough fuel

    The walk along a list ends within as many steps as the layout has
    blocks, so with more fuel than that [malloc] returns. *)

Lemma list_within_layout (B : gmap Z (Z * status)) (L : list Z) :
  List.NoDup L -> (forall a, In a L -> is_Some (B !! a)) ->
  (length L <= size B)%nat.
Proof.
  intros Hnd Hin.
  rewrite <- (length_map_to_list B), <- (length_fmap fst (map_to_list B)).
  apply submseteq_length, NoDup_submseteq.
  - apply NoDup_ListNoDup. exact Hnd.
  - intros x Hx. apply list_elem_of_In in Hx. destruct (Hin x Hx) as [v Hv].
    apply (list_elem_of_fmap_2' fst _ (x, v)); [|reflexivity].
    apply elem_of_map_to_list. exact Hv.
Qed.

Section Fuel.
Variables (h : heap) (B : gmap Z (Z * status)) (F : Z -> list Z).
Variable words : Z.
Hypothesis HI : Inv h B F.

Lemma first_fit_returns :
  forall (L : list Z) (fuel : nat) (prev : Z),
  (length L < fuel)%nat ->
  (forall a, In a L -> exists sz, B !! a = Some (sz, Listed)) ->
  dseg h prev L (sentinel h) ->
  exists r, first_fit fuel h (hd NULL L) words = Some r.
Proof.
  pose proof (Inv_geometry h B F HI) as G.
  induction L as [|a L' IH]; intros fuel prev Hf Hel Hds;
    (destruct fuel as [|fuel]; [cbn [length] in Hf; lia|]).
  - exists NULL. cbn [hd first_fit]. rewrite Z.eqb_refl. reflexivity.
  - cbn [hd first_fit].
    destruct (Hel a (or_introl eq_refl)) as (sz & Ha).
    destruct (sentinel_not_block h B G a sz Listed Ha) as (_ & N & _).
    destruct (Z.eqb_spec a NULL) as [E | _]; [contradiction|].
    destruct (Z.leb_spec words (bt_size h a)); [eexists; reflexivity|].
    destruct Hds as (_ & Hn & Hds').
    assert (get_free_list_next h a = hd NULL L') as En.
    { unfold get_free_list_next.
      apply (link_decode h B L' _ G); [|exact Hn].
      intros b Hb. destruct (Hel b (or_intror Hb)) as (s & Hs). eauto. }
    rewrite En.
    apply (IH fuel a); [cbn [length] in Hf; lia| |exact Hds'].
    intros b Hb. apply Hel. right. exact Hb.
Qed.

Lemma find_fit_loop_returns (fuel : nat) (n : nat) :
  (forall j, 0 <= j < N_BUCKETS -> (length (F j) < fuel)%nat) ->
  forall index reads, 0 <= index < N_BUCKETS ->
  exists r reads',
    find_fit_loop n fuel h index words reads = Done (r, reads') h.
Proof.
  intros Hfuel.
  pose proof (Inv_geometry h B F HI) as G.
  destruct (Inv_lists h B F HI) as (_ & Hbk & _).
  induction n as [|n IH]; intros index reads Hi;
    [eexists _, _; reflexivity|].
  cbn [find_fit_loop].
  pose proof (skip_empty_spec h B F HI
                (Z.to_nat (N_BUCKETS - index) + 1) index reads
                ltac:(lia) ltac:(lia)) as (S1 & S2 & S3).
  destruct (skip_empty (Z.to_nat (N_BUCKETS - index) + 1) h index reads)
    as [i1 reads1].
  cbn [fst] in S1, S2, S3.
  assert (exists L prev,
            read_bucket h i1 = hd NULL L
            /\ (forall a, In a L -> exists sz, B !! a = Some (sz, Listed))
            /\ dseg h prev L (sentinel h)
            /\ (length L < fuel)%nat) as (L & prev & Eh & Hel & Hds & Hlen).
  { destruct (Z.eq_dec i1 N_BUCKETS) as [-> | N].
    - exists [], 0. split.
      + unfold read_bucket. cbn. apply (geo_past h B G).
      + split; [intros a []|]. split; [exact I|].
        pose proof (Hfuel 0 ltac:(unfold N_BUCKETS; lia)). cbn [length]. lia.
    - destruct (bucket_head h B F HI i1 ltac:(lia))
        as [(E & _) | (_ & E & _)];
        [exfalso; apply S3; [lia | exact E]|].
      destruct (Hbk i1 ltac:(lia)) as (_ & Hds & _ & Hel).
      exists (F i1), (sentinel h). split; [exact E|]. split.
      + intros a Ha. destruct (Hel a Ha) as (s & Hs & _). eauto.
      + split; [exact Hds|]. apply Hfuel. lia. }
  rewrite Eh.
  destruct (first_fit_returns L fuel prev Hlen Hel Hds) as (bt & Ef).
  rewrite Ef.
  destruct (Z.eqb_spec bt NULL) as [E | _]; cbn [negb];
    [|eexists _, _; reflexivity].
  destruct (Z.ltb_spec (i1 + 1) N_BUCKETS) as [Hlt | Hge];
    [apply IH; lia | eexists _, _; reflexivity].
Qed.

Lemma find_fit_returns (fuel : nat) :
  3 <= words < 2 ^ 31 -> (size B < fuel)%nat ->
  exists r reads, find_fit fuel h words = Done (r, reads) h.
Proof.
  intros Hw Hfuel. unfold find_fit, bucket_index.
  rewrite (find_bucket_size_class words Hw). cbn [bind].
  apply find_fit_loop_returns; [|apply size_class_range].
  intros j Hj.
  destruct (Inv_lists h B F HI) as (_ & Hbk & _).
  destruct (Hbk j Hj) as (_ & _ & Hnd & Hel).
  pose proof (list_within_layout B (F j) Hnd) as Hle.
  assert (length (F j) <= size B)%nat; [|lia].
  apply Hle. intros a Ha. destruct (Hel a Ha) as (s & Hs & _). eauto.
Qed.

End Fuel.

Lemma malloc_returns (fuel : nat) (h : heap) (B : gmap Z (Z * status))
      (n : Z) :
  well_formed h B -> 0 < n < 2 ^ 33 - 19 -> (size B < fuel)%nat ->
  exists q h', malloc fuel h n = Done q h'.
Proof.
  intros WF Hn Hfuel.
  pose proof WF as ((F & HI) & _).
  destruct (request_facts n Hn) as (Es & Ew4 & Ew & Ep & Em).
  destruct (find_fit_returns h B F (request_words n) HI fuel ltac:(lia) Hfuel)
    as (r & reads & Hff).
  destruct (Z.eq_dec r NULL) as [-> | N].
  - destruct (malloc_miss fuel h B n reads h WF Hn Hff) as (Hfail & Hok).
    destruct (Z_lt_le_dec (mem_max_addr h) (mem_brk h + needed_bytes h n))
      as [Hlt | Hle].
    + eexists _, _. apply (Hfail Hlt).
    + destruct (Hok Hle) as (h' & B' & a & Hrun & _). eexists _, _.
      exact Hrun.
  - destruct (malloc_hit fuel h B n r reads h WF Hn Hff N)
      as (h' & B' & sz & szq & Hrun & _). eexists _, _. exact Hrun.
Qed.

(** ** Two well-formed states *)

Ltac closed := vm_compute; repeat split; easy.

Ltac the_block H :=
  unfold B_a, B_free8, B_loose in H;
  apply lookup_singleton_Some in H;
  let E := fresh in destruct H as [<- E]; inversion E; subst; clear E.

Ltac each_bucket j Hj :=
  assert (j = 0 \/ j = 1 \/ j = 2 \/ j = 3 \/ j = 4 \/ j = 5 \/ j = 6
          \/ j = 7 \/ j = 8 \/ j = 9) as Hcases
    by (unfold N_BUCKETS in Hj; lia);
  repeat (destruct Hcases as [-> | Hcases]); [..|subst j].

Lemma Inv_h_a : Inv h_a B_a F_none.
Proof.
  split; [|split].
  - constructor; try closed.
    + intros a sz st Ha. the_block Ha. closed.
    + intros a sza sta b szb stb Ha Hb. the_block Ha. the_block Hb.
      left. reflexivity.
  - intros a sz st Ha. the_block Ha.
    split; [closed|]. split; [closed|]. split; [intros N; congruence|].
    intros N. exfalso. apply N. closed.
  - split; [closed|]. split.
    + intros j Hj. split; [each_bucket j Hj; closed|].
      split; [exact I|]. split; [constructor | intros a []].
    + intros a sz Ha. the_block Ha.
Qed.

Lemma well_formed_h_a : well_formed h_a B_a.
Proof.
  split; [exists F_none; exact Inv_h_a|].
  split; [|split].
  - intros a sz st Ha. the_block Ha. left. closed.
  - right. exists 4, Used. split; closed.
  - intros a sz st Ha. the_block Ha. discriminate.
Qed.

Lemma Inv_h_free8 : Inv h_free8 B_free8 F_free8.
Proof.
  split; [|split].
  - constructor; try closed.
    + intros a sz st Ha. the_block Ha. closed.
    + intros a sza sta b szb stb Ha Hb. the_block Ha. the_block Hb.
      left. reflexivity.
  - intros a sz st Ha. the_block Ha.
    split; [closed|]. split; [closed|]. split; [intros _; closed|].
    intros N. exfalso. apply N. closed.
  - split; [closed|]. split.
    + intros j Hj. split; [each_bucket j Hj; closed|].
      split; [each_bucket j Hj; closed|].
      split.
      * unfold F_free8. destruct (j =? 1); repeat constructor.
        intros [].
      * intros a Ha. unfold F_free8 in Ha.
        destruct (Z.eqb_spec j 1) as [-> | N]; [|destruct Ha].
        destruct Ha as [<- | []]. exists 8. split; closed.
    + intros a sz Ha. the_block Ha. left. reflexivity.
Qed.

Lemma well_formed_h_free8 : well_formed h_free8 B_free8.
Proof.
  split; [exists F_free8; exact Inv_h_free8|].
  split; [|split].
  - intros a sz st Ha. the_block Ha. left. closed.
  - right. exists 8, Listed. split; closed.
  - intros a sz st Ha. the_block Ha. discriminate.
Qed.

Lemma Inv_h_loose : Inv h_loose B_loose F_none.
Proof.
  split; [|split].
  - constructor; try closed.
    + intros a sz st Ha. the_block Ha. closed.
    + intros a sza sta b szb stb Ha Hb. the_block Ha. the_block Hb.
      left. reflexivity.
  - intros a sz st Ha. the_block Ha.
    split; [closed|]. split; [closed|]. split; [intros _; closed|].
    intros N. exfalso. apply N. closed.
  - split; [closed|]. split.
    + intros j Hj. split; [each_bucket j Hj; closed|].
      split; [exact I|]. split; [constructor | intros a []].
    + intros a sz Ha. the_block Ha.
Qed.

Lemma sbrk_fails_iff (h : heap) (B : gmap Z (Z * status)) (incr : Z) :
  geometry h B -> 0 <= incr ->
  fst (mem_sbrk h incr) = SBRK_FAILED <-> mem_max_addr h < mem_brk h + incr.
Proof.
  intros G Hi. unfold mem_sbrk.
  destruct (Z.ltb_spec incr 0); [lia|].
  destruct (Z.ltb_spec (mem_max_addr h) (mem_brk h + incr)); cbn [orb fst].
  - tauto.
  - split; [|lia]. intros E. exfalso.
    destruct (geo_brk h B G) as (E3 & _).
    destruct (geo_epilogue h B G) as (_ & E2).
    pose proof (Z.div_mod (heap_epilogue h) 16 ltac:(lia)).
    unfold SBRK_FAILED, WSIZE in *. lia.
Qed.

(** ** Allocation after a miss *)

(** C9, on a well-formed heap, for requests whose rounded size is below
    2^33 bytes (the sizes a block header can hold): when
    [find_fit] misses, [malloc] asks [extend_heap] for the rounded request
    size, less the bytes of the last block if that block is free.  It
    returns NULL, with the heap as it was, exactly when [mem_sbrk] fails
    for that amount.  Otherwise the break moves by that amount, and the
    block whose payload is returned starts at the old last block if that
    was free (at the old epilogue if not), is in use, has exactly the
    requested number of words and ends at the new epilogue. *)
Theorem malloc_extends_after_miss (fuel : nat) (h : heap)
        (B : gmap Z (Z * status)) (n : Z) (reads : list Z) (h0 : heap) :
  well_formed h B -> 0 < n < 2 ^ 33 - 19 ->
  find_fit fuel h (request_words n) = Done (NULL, reads) h0 ->
  let last_free := negb (last h =? NULL) && (bt_used h (last h) =? 0) in
  (last_free = true ->
   needed_bytes h n = request_size n - WSIZE * bt_size h (last h)
   /\ 0 < needed_bytes h n)
  /\ (last_free = false -> needed_bytes h n = request_size n)
  /\ exists p h',
       malloc fuel h n = Done p h'
       /\ (p = NULL <-> fst (mem_sbrk h (needed_bytes h n)) = SBRK_FAILED)
       /\ (p = NULL -> h' = h)
       /\ (p <> NULL ->
           mem_brk h' = mem_brk h + needed_bytes h n
           /\ p = (if last_free then last h else heap_epilogue h) + WSIZE
           /\ bt_size h' (p - WSIZE) = request_words n
           /\ bt_used h' (p - WSIZE) = USED
           /\ p - WSIZE + WSIZE * request_words n = heap_epilogue h'
           /\ exists B', well_formed h' B'
                         /\ B' !! (p - WSIZE)
                            = Some (request_words n, Used)).
Proof.
  intros WF Hn Hff last_free.
  pose proof WF as ((F & HI) & _).
  pose proof (Inv_geometry h B F HI) as G.
  destruct (request_facts n Hn) as (Es & Ew4 & Ew & Ep & Em).
  destruct (find_fit_spec h B F (request_words n) HI fuel NULL reads h0
              ltac:(lia) Hff) as (_ & [(_ & Hmiss) | (N & _)]);
    [|congruence].
  destruct (needed_facts h B n WF Hn Hmiss) as (Nm & Nl & Nf & Nn).
  assert (last_free = true
          <-> last h <> NULL /\ bt_used h (last h) = 0) as Hlf.
  { unfold last_free.
    destruct (Z.eqb_spec (last h) NULL); cbn [negb andb];
      [split; [discriminate | tauto]|].
    destruct (Z.eqb_spec (bt_used h (last h)) 0); split; try tauto;
      discriminate. }
  split.
  { intros E. apply Hlf in E. rewrite (Nf E). unfold WSIZE. split; lia. }
  split.
  { intros E. apply Nn. rewrite <- Hlf, E. discriminate. }
  destruct (malloc_miss fuel h B n reads h0 WF Hn Hff) as (Hfail & Hok).
  pose proof (sbrk_fails_iff h B (needed_bytes h n) G ltac:(lia)) as Hsb.
  destruct (Z_lt_le_dec (mem_max_addr h) (mem_brk h + needed_bytes h n))
    as [Hlt | Hle].
  - exists NULL, h. split; [apply (Hfail Hlt)|].
    split; [tauto|]. split; [reflexivity|]. intros N. congruence.
  - destruct (Hok Hle) as (h' & B' & a & Hrun & Ea & Na & WF' & Ha & _ & Hend
                           & _ & _ & Eb & _).
    pose proof WF' as ((F' & HI') & _).
    pose proof (block_bounds h' B' (Inv_geometry _ _ _ HI') _ _ _ Ha) as Hb.
    destruct (Inv_headers h' B' F' HI' _ _ _ Ha) as (Hs & Hu & _).
    exists (a + WSIZE), h'. split; [exact Hrun|].
    split; [split; [unfold WSIZE, NULL; lia | lia]|].
    split; [unfold WSIZE, NULL; lia|].
    intros _. replace (a + WSIZE - WSIZE) with a by lia.
    split; [exact Eb|]. split; [fold last_free in Ea; congruence|].
    split; [exact Hs|]. split; [exact Hu|].
    split; [unfold WSIZE; exact Hend|].
    exists B'. auto.
Qed.

Lemma malloc_extends_after_miss_witness :
  well_formed h_free8 B_free8 /\ 0 < 100 < 2 ^ 33 - 19
  /\ find_fit 8 h_free8 (request_words 100)
     = Done (NULL, [3; 4; 5; 6; 7; 8; 9; 10; 10]) h_free8
  /\ let h := h_free8 in
     let n := 100 in
     let last_free := negb (last h =? NULL) && (bt_used h (last h) =? 0) in
     (last_free = true ->
      needed_bytes h n = request_size n - WSIZE * bt_size h (last h)
      /\ 0 < needed_bytes h n)
     /\ (last_free = false -> needed_bytes h n = request_size n)
     /\ exists p h',
          malloc 8 h n = Done p h'
          /\ (p = NULL <-> fst (mem_sbrk h (needed_bytes h n)) = SBRK_FAILED)
          /\ (p = NULL -> h' = h)
          /\ (p <> NULL ->
              mem_brk h' = mem_brk h + needed_bytes h n
              /\ p = (if last_free then last h else heap_epilogue h) + WSIZE
              /\ bt_size h' (p - WSIZE) = request_words n
              /\ bt_used h' (p - WSIZE) = USED
              /\ p - WSIZE + WSIZE * request_words n = heap_epilogue h'
              /\ exists B', well_formed h' B'
                            /\ B' !! (p - WSIZE)
                               = Some (request_words n, Used)).
Proof.
  assert (find_fit 8 h_free8 (request_words 100)
          = Done (NULL, [3; 4; 5; 6; 7; 8; 9; 10; 10]) h_free8) as Hff
    by (vm_compute; reflexivity).
  split; [exact well_formed_h_free8|]. split; [lia|].
  split; [exact Hff|].
  apply (malloc_extends_after_miss 8 h_free8 B_free8 100
           [3; 4; 5; 6; 7; 8; 9; 10; 10] h_free8 well_formed_h_free8);
    [lia | exact Hff].
Defined.

(** ** Reallocation *)

(** C10, on a well-formed heap whose old payload holds 32-bit words, for
    requests whose rounded size is below 2^33 bytes, with more fuel than
    the heap has blocks: the inner [malloc] returns.  If it returns a
    block, [realloc] returns its payload, the words of the new payload up
    to the shorter of the two payloads are those of the old payload, and
    the old block has become part of a free block on a list.  If it
    returns NULL, so does [realloc], and the heap is left as it was. *)
Theorem realloc_copies_then_frees (fuel : nat) (h : heap)
        (B : gmap Z (Z * status)) (p so n : Z) :
  well_formed h B -> B !! (p - WSIZE) = Some (so, Used) ->
  0 < n < 2 ^ 33 - 19 ->
  (forall i, 0 <= i < so - 1 ->
     to_word (load h (p + 4 * i)) = load h (p + 4 * i)) ->
  (size B < fuel)%nat ->
  exists q h1,
    malloc fuel h n = Done q h1
    /\ (q <> NULL ->
        exists h' B' sn,
          realloc fuel h p n = Done q h'
          /\ well_formed h' B'
          /\ B' !! (q - WSIZE) = Some (sn, Used)
          /\ n <= 4 * sn - 4
          /\ (forall i, 0 <= i < Z.min (so - 1) (sn - 1) ->
                load h' (q + 4 * i) = load h (p + 4 * i))
          /\ (forall s, B' !! (p - WSIZE) <> Some (s, Used))
          /\ (exists a t, B' !! a = Some (t, Listed)
                          /\ a <= p - WSIZE
                          /\ p - WSIZE + 4 * so <= a + 4 * t))
    /\ (q = NULL -> realloc fuel h p n = Done NULL h).
Proof.
  intros WF Hp Hn Hwd Hfuel.
  destruct (malloc_returns fuel h B n WF Hn Hfuel) as (q & h1 & Hm).
  exists q, h1. split; [exact Hm|]. split.
  - intros Nq. apply (realloc_moves fuel h B p so n q h1); assumption.
  - intros ->.
    destruct (malloc_spec fuel h B n NULL h1 WF Hn Hm) as [(_ & ->) | (N & _)];
      [|congruence].
    apply realloc_fails; [|lia|exact Hm].
    pose proof WF as ((F & HI) & _).
    pose proof (block_bounds h B (Inv_geometry _ _ _ HI) _ _ _ Hp).
    unfold WSIZE, NULL in *. lia.
Qed.

Lemma realloc_copies_then_frees_witness :
  well_formed h_a B_a /\ B_a !! (4192 - WSIZE) = Some (4, Used)
  /\ 0 < 24 < 2 ^ 33 - 19
  /\ (forall i, 0 <= i < 4 - 1 ->
        to_word (load h_a (4192 + 4 * i)) = load h_a (4192 + 4 * i))
  /\ (size B_a < 8)%nat
  /\ exists q h1,
       malloc 8 h_a 24 = Done q h1
       /\ (q <> NULL ->
           exists h' B' sn,
             realloc 8 h_a 4192 24 = Done q h'
             /\ well_formed h' B'
             /\ B' !! (q - WSIZE) = Some (sn, Used)
             /\ 24 <= 4 * sn - 4
             /\ (forall i, 0 <= i < Z.min (4 - 1) (sn - 1) ->
                   load h' (q + 4 * i) = load h_a (4192 + 4 * i))
             /\ (forall s, B' !! (4192 - WSIZE) <> Some (s, Used))
             /\ (exists a t, B' !! a = Some (t, Listed)
                             /\ a <= 4192 - WSIZE
                             /\ 4192 - WSIZE + 4 * 4 <= a + 4 * t))
       /\ (q = NULL -> realloc 8 h_a 4192 24 = Done NULL h_a).
Proof.
  assert (B_a !! (4192 - WSIZE) = Some (4, Used)) as Hp
    by (vm_compute; reflexivity).
  assert (forall i, 0 <= i < 4 - 1 ->
            to_word (load h_a (4192 + 4 * i)) = load h_a (4192 + 4 * i))
    as Hwd.
  { intros i Hi.
    assert (i = 0 \/ i = 1 \/ i = 2) as [-> | [-> | ->]] by lia;
      vm_compute; reflexivity. }
  assert (size B_a < 8)%nat as Hfuel
    by (unfold B_a; rewrite map_size_singleton; lia).
  split; [exact well_formed_h_a|]. split; [exact Hp|]. split; [lia|].
  split; [exact Hwd|]. split; [exact Hfuel|].
  apply (realloc_copies_then_frees 8 h_a B_a 4192 4 24 well_formed_h_a Hp);
    [lia | exact Hwd | exact Hfuel].
Defined.

(** * Further properties of the block layer and the lists *)

(** ** Rounding *)

(** X1: on [size_t] values, [round_up] gives the least multiple of 16 that
    is not below its argument, as long as that multiple is below 2^64; for
    the fifteen values above 2^64 - 16 the sum wraps and the result
    is 0. *)
Theorem round_up_rounds (x : Z) :
  0 <= x < 2 ^ 64 ->
  (x <= 2 ^ 64 - 16 ->
   round_up x mod 16 = 0 /\ x <= round_up x < x + 16)
  /\ (2 ^ 64 - 16 < x -> round_up x = 0).
Proof.
  intros Hx. unfold round_up. split.
  - intros Hle.
    rewrite to_size_small by (unfold ALIGNMENT; lia).
    rewrite land_align by (unfold ALIGNMENT; lia).
    unfold ALIGNMENT.
    pose proof (Z.div_mod (x + 16 - 1) 16 ltac:(lia)).
    pose proof (Z.mod_pos_bound (x + 16 - 1) 16 ltac:(lia)).
    split; [|lia].
    rewrite Z.mul_comm. apply Z.mod_mul. lia.
  - intros Hgt.
    assert (to_size (x + ALIGNMENT - 1) = x + 15 - 2 ^ 64) as ->.
    { unfold to_size, ALIGNMENT.
      replace (x + 16 - 1) with (x + 15 - 2 ^ 64 + 1 * 2 ^ 64) by lia.
      rewrite Z.mod_add by lia. apply Z.mod_small. lia. }
    rewrite land_align by lia.
    rewrite Z.div_small by lia. reflexivity.
Qed.

Lemma round_up_rounds_witness :
  0 <= 20 < 2 ^ 64
  /\ (20 <= 2 ^ 64 - 16 ->
      round_up 20 mod 16 = 0 /\ 20 <= round_up 20 < 20 + 16)
  /\ (2 ^ 64 - 16 < 20 -> round_up 20 = 0).
Proof.
  split; [lia|]. apply (round_up_rounds 20). lia.
Defined.

(** ** Boundary tags *)

Lemma pf_bit_of_word (v : Z) : hdr_pf (to_word v) = hdr_pf v.
Proof.
  unfold to_word, hdr_pf.
  pose proof (Z.div_mod (v + 2 ^ 31) (2 ^ 32) ltac:(lia)) as Hd.
  set (k := (v + 2 ^ 31) / 2 ^ 32) in *.
  replace ((v + 2 ^ 31) mod 2 ^ 32 - 2 ^ 31) with (v - 2 ^ 32 * k) by lia.
  destruct (word_split v) as (Ev & Hr).
  replace (v - 2 ^ 32 * k) with (4 * (v / 4 - 2 ^ 30 * k) + v mod 4) by lia.
  rewrite Ev at 3.
  change PREVFREE with (4 * 0 + 2).
  rewrite !land_word by lia. rewrite !Z.land_0_r. reflexivity.
Qed.

Lemma pf_bit_set (w : Z) : hdr_pf (Z.lor w PREVFREE) = PREVFREE.
Proof.
  rewrite set_pf_parts.
  destruct (hdr_decompose w) as (_ & Hs & Hu & _).
  replace (hdr_size w + hdr_used w + 2) with (hdr_size w + (hdr_used w + 2))
    by lia.
  destruct (pack_parts (hdr_size w) (hdr_used w + 2) Hs ltac:(lia))
    as (_ & _ & _ & ->).
  destruct Hu as [-> | ->]; reflexivity.
Qed.

Lemma pf_bit_cleared (w : Z) : hdr_pf (Z.land w (Z.lnot PREVFREE)) = 0.
Proof.
  unfold hdr_pf. rewrite <- Z.land_assoc.
  change (Z.land (Z.lnot PREVFREE) PREVFREE) with 0.
  apply Z.land_0_r.
Qed.

(** X2: what [bt_make] writes can be read back.  For a block at a
    non-null address, a size that is a multiple of 4 words and fits a
    header, and any two flag bits: the header gives back the size and both
    flags, [bt_next] is the word behind the block (NULL at the epilogue), a
    free block gets a footer equal to its header, and the block behind, if
    there is one, has PREVFREE set exactly when the new block is free. *)
Theorem bt_make_reads_back (h : heap) (bt words flags : Z) :
  0 < bt -> words mod 4 = 0 -> 4 <= words <= 2 ^ 31 - 4 ->
  0 <= flags < 4 ->
  let h' := bt_make h bt words flags in
  bt_size h' bt = words
  /\ bt_used h' bt = flags mod 2
  /\ bt_get_prevfree h' bt = 2 * (flags / 2)
  /\ bt_next h' bt
     = (if bt + WSIZE * words =? heap_epilogue h then NULL
        else bt + WSIZE * words)
  /\ (flags mod 2 = 0 -> load h' (bt_footer h' bt) = load h' bt)
  /\ (bt_next h' bt <> NULL ->
      bt_get_prevfree h' (bt_next h' bt)
      = (if flags mod 2 =? 0 then PREVFREE else 0)).
Proof.
  intros Hbt Hw4 Hw Hf h'.
  assert (words mod 4 = 0 /\ 4 <= words <= 2 ^ 31 - 4) as Hw' by auto.
  destruct (packed_word words flags Hw' Hf) as (_ & Pw & Ps & Pu & Pp).
  destruct (bt_make_globals h bt words flags) as ((_ & Ee & _) & _).
  fold h' in Ee.
  assert (load h' bt = words + flags
          /\ (flags mod 2 = 0 -> load h' (bt + 4 * words - 4) = words + flags)
          /\ (bt + 4 * words <> heap_epilogue h ->
              hdr_pf (load h' (bt + 4 * words))
              = (if flags mod 2 =? 0 then PREVFREE else 0)))
    as (Lh & Lf & Ln).
  { destruct (Z.eq_dec (bt + 4 * words) (heap_epilogue h)) as [E | N].
    - unfold h'. rewrite (bt_make_at_end h bt words flags Hw' Hf E).
      split; [|split; [|contradiction]].
      + rewrite load_PUT_ne by lia. rewrite load_PUT_eq. exact Pw.
      + intros _. rewrite load_PUT_eq. exact Pw.
    - assert (bt + 4 * words <> NULL) as N0 by (unfold NULL; lia).
      pose proof (Z.mod_pos_bound flags 2 ltac:(lia)) as Hm.
      destruct (Z.eq_dec (flags mod 2) 0) as [E0 | E1].
      + unfold h'. rewrite (bt_make_free h bt words flags Hw' Hf N N0 E0).
        rewrite E0. cbn [Z.eqb].
        split; [|split].
        * rewrite !load_PUT_ne by lia. rewrite load_PUT_eq. exact Pw.
        * intros _. rewrite load_PUT_eq. exact Pw.
        * intros _. rewrite load_PUT_ne by lia. rewrite load_PUT_eq.
          rewrite pf_bit_of_word, <- set_pf_parts. apply pf_bit_set.
      + assert (flags mod 2 = 1) as E by lia.
        unfold h'. rewrite (bt_make_used h bt words flags Hw' Hf N N0 E).
        rewrite E. cbn [Z.eqb].
        split; [|split; [lia|]].
        * rewrite load_PUT_ne by lia. rewrite load_PUT_eq. exact Pw.
        * intros _. rewrite load_PUT_eq.
          rewrite pf_bit_of_word, <- clr_pf_parts. apply pf_bit_cleared. }
  assert (bt_size h' bt = words) as Es
    by (rewrite bt_size_load, Lh; exact Ps).
  assert (bt_next h' bt
          = (if bt + WSIZE * words =? heap_epilogue h then NULL
             else bt + WSIZE * words)) as En.
  { unfold bt_next, bt_footer. rewrite Es, Ee.
    replace (bt + WSIZE * words - WSIZE + WSIZE) with (bt + WSIZE * words)
      by lia.
    reflexivity. }
  split; [exact Es|].
  split; [rewrite bt_used_load, Lh; exact Pu|].
  split; [rewrite bt_get_prevfree_load, Lh; exact Pp|].
  split; [exact En|].
  split.
  - intros E0. unfold bt_footer. rewrite Es, Lh. unfold WSIZE.
    apply (Lf E0).
  - rewrite En. unfold WSIZE.
    destruct (Z.eqb_spec (bt + 4 * words) (heap_epilogue h)) as [E | N];
      [congruence|].
    intros _. rewrite bt_get_prevfree_load. apply (Ln N).
Qed.

Lemma bt_make_reads_back_witness :
  0 < 4188 /\ 8 mod 4 = 0 /\ 4 <= 8 <= 2 ^ 31 - 4 /\ 0 <= 2 < 4
  /\ let h' := bt_make h_a 4188 8 2 in
     bt_size h' 4188 = 8
     /\ bt_used h' 4188 = 2 mod 2
     /\ bt_get_prevfree h' 4188 = 2 * (2 / 2)
     /\ bt_next h' 4188
        = (if 4188 + WSIZE * 8 =? heap_epilogue h_a then NULL
           else 4188 + WSIZE * 8)
     /\ (2 mod 2 = 0 -> load h' (bt_footer h' 4188) = load h' 4188)
     /\ (bt_next h' 4188 <> NULL ->
         bt_get_prevfree h' (bt_next h' 4188)
         = (if 2 mod 2 =? 0 then PREVFREE else 0)).
Proof.
  split; [lia|]. split; [reflexivity|]. split; [lia|]. split; [lia|].
  apply (bt_make_reads_back h_a 4188 8 2); [lia | reflexivity | lia | lia].
Defined.

(** ** Links *)

(** X3: a link is the distance of its target from [heap_start], in words,
    stored as a 32-bit number.  Storing a pointer that lies at or above
    [heap_start], a whole number of words from it and less than 2^33 bytes
    away, and reading the link gives the pointer back; storing
    [heap_start - 1], the end mark, reads back as NULL.  The two links of
    a block do not disturb each other. *)
Theorem links_read_back (h : heap) (bt p : Z) :
  heap_start h <= p -> (p - heap_start h) mod WSIZE = 0 ->
  p - heap_start h < 2 ^ 33 ->
  get_free_list_next (set_free_list_next h bt p) bt = p
  /\ get_free_list_prev (set_free_list_prev h bt p) bt = p
  /\ get_free_list_next (set_free_list_next h bt (heap_start h - WSIZE)) bt
     = NULL
  /\ get_free_list_prev (set_free_list_prev h bt (heap_start h - WSIZE)) bt
     = NULL
  /\ get_free_list_prev (set_free_list_next h bt p) bt
     = get_free_list_prev h bt
  /\ get_free_list_next (set_free_list_prev h bt p) bt
     = get_free_list_next h bt.
Proof.
  intros Hp Hm Hlt. unfold WSIZE in *.
  pose proof (Z.div_mod (p - heap_start h) 4 ltac:(lia)) as Hd.
  assert (to_word (ptr_diff p (heap_start h)) = (p - heap_start h) / 4
          /\ 0 <= (p - heap_start h) / 4) as (Ew & H0).
  { unfold ptr_diff, WSIZE. split; [apply to_word_small|]; lia. }
  assert (to_word (ptr_diff (heap_start h - 4) (heap_start h)) = -1) as Es.
  { unfold ptr_diff, WSIZE.
    replace (heap_start h - 4 - heap_start h) with (-1 * 4) by lia.
    rewrite Z.div_mul by lia. reflexivity. }
  unfold get_free_list_next, get_free_list_prev, set_free_list_next,
    set_free_list_prev, WSIZE.
  change (heap_start (PUT h ?a ?v)) with (heap_start h).
  rewrite !load_PUT_eq, Ew, Es.
  rewrite !load_PUT_ne by lia.
  destruct (Z.ltb_spec ((p - heap_start h) / 4) 0); [lia|].
  repeat split; try reflexivity; lia.
Qed.

Lemma links_read_back_witness :
  heap_start h_a <= 4204 /\ (4204 - heap_start h_a) mod WSIZE = 0
  /\ 4204 - heap_start h_a < 2 ^ 33
  /\ get_free_list_next (set_free_list_next h_a 4188 4204) 4188 = 4204
  /\ get_free_list_prev (set_free_list_prev h_a 4188 4204) 4188 = 4204
  /\ get_free_list_next
       (set_free_list_next h_a 4188 (heap_start h_a - WSIZE)) 4188 = NULL
  /\ get_free_list_prev
       (set_free_list_prev h_a 4188 (heap_start h_a - WSIZE)) 4188 = NULL
  /\ get_free_list_prev (set_free_list_next h_a 4188 4204) 4188
     = get_free_list_prev h_a 4188
  /\ get_free_list_next (set_free_list_prev h_a 4188 4204) 4188
     = get_free_list_next h_a 4188.
Proof.
  assert (heap_start h_a = 4188) as E by (vm_compute; reflexivity).
  split; [rewrite E; lia|]. split; [rewrite E; reflexivity|].
  split; [rewrite E; lia|].
  apply (links_read_back h_a 4188 4204);
    rewrite E; [lia | reflexivity | lia].
Defined.

(** ** The neighbours of a block *)

Lemma block_aligned (h : heap) (B : gmap Z (Z * status)) :
  geometry h B -> covered h B ->
  forall a sz st, B !! a = Some (sz, st) -> a mod 16 = 12.
Proof.
  intros G Hcov.
  destruct (geo_epilogue h B G) as (_ & He).
  assert (forall n : nat, forall a sz st,
            B !! a = Some (sz, st) ->
            heap_epilogue h - a <= Z.of_nat n -> a mod 16 = 12) as Hind.
  { induction n as [|n IH]; intros a sz st Ha Hn;
      pose proof (block_bounds h B G a sz st Ha) as Hb; [lia|].
    pose proof (Z.div_mod sz 4 ltac:(lia)) as Hd.
    pose proof (Z.div_mod a 16 ltac:(lia)) as Hda.
    pose proof (Z.mod_pos_bound a 16 ltac:(lia)) as Hpa.
    unfold covered, WSIZE in Hcov.
    destruct (Hcov a sz st Ha) as [E | [[sn stn] Hnx]].
    - pose proof (Z.div_mod (heap_epilogue h) 16 ltac:(lia)). lia.
    - pose proof (IH _ _ _ Hnx ltac:(lia)) as Hnm.
      pose proof (Z.div_mod (a + 4 * sz) 16 ltac:(lia)). lia. }
  intros a sz st Ha.
  pose proof (block_bounds h B G a sz st Ha) as Hb.
  apply (Hind (Z.to_nat (heap_epilogue h - a)) a sz st Ha). lia.
Qed.



(** ** The lists, last in first out *)

Lemma Inv_ext (h : heap) (B : gmap Z (Z * status)) (F F' : Z -> list Z) :
  (forall i, F' i = F i) -> Inv h B F -> Inv h B F'.
Proof.
  intros E (G & HH & Hlen & Hbk & Hcomp).
  split; [exact G|]. split; [exact HH|]. split; [exact Hlen|].
  split.
  - intros j Hj. rewrite E. apply (Hbk j Hj).
  - intros a s Ha. rewrite E. apply (Hcomp a s Ha).
Qed.







(** * Further properties of the operations *)

Lemma state_h_loose :
  covered h_loose B_loose /\ last_ok h_loose B_loose
  /\ (forall c szc, B_loose !! c = Some (szc, Loose) -> c = 4188).
Proof.
  split; [|split].
  - intros a sz st Ha. the_block Ha. left. closed.
  - right. exists 4, Loose. split; closed.
  - intros c szc Hc. unfold B_loose in Hc.
    apply lookup_singleton_Some in Hc. symmetry. apply Hc.
Qed.

(** ** Coalescing *)



(** ** Freeing *)

(** X9: [free] of the payload of a block in use, on a well-formed heap:
    the call returns, the heap is well-formed again, the block is no
    longer in use and lies within a listed free block, and every other
    block in use is still in use, with its size and its payload
    unchanged. *)
Theorem free_releases (h : heap) (B : gmap Z (Z * status)) (bt sz : Z) :
  well_formed h B -> B !! bt = Some (sz, Used) ->
  exists h' B' a total,
    free h (bt_payload bt) = Done tt h'
    /\ well_formed h' B'
    /\ B' !! a = Some (total, Listed)
    /\ a <= bt /\ bt + WSIZE * sz <= a + WSIZE * total
    /\ (forall c szc, B' !! c = Some (szc, Used)
          <-> c <> bt /\ B !! c = Some (szc, Used))
    /\ (forall c szc y, B !! c = Some (szc, Used) -> c <> bt ->
          c < y < c + WSIZE * szc -> load h' y = load h y).
Proof.
  intros WF Hbt.
  destruct (free_spec h B bt sz WF Hbt)
    as (h' & B' & a & total & Hrun & WF' & Hsg & Hfr & Hin & Hout & Ha
        & Ha1 & Ha2).
  exists h', B', a, total. unfold bt_payload, WSIZE in *.
  split; [exact Hrun|]. split; [exact WF'|]. split; [exact Ha|].
  split; [exact Ha1|]. split; [exact Ha2|]. split; [|exact Hfr].
  intros c szc. split; [apply Hout|].
  intros (N & Hc). apply (Hin c szc N Hc).
Qed.

Lemma free_releases_witness :
  well_formed h_a B_a /\ B_a !! 4188 = Some (4, Used)
  /\ exists h' B' a total,
       free h_a (bt_payload 4188) = Done tt h'
       /\ well_formed h' B'
       /\ B' !! a = Some (total, Listed)
       /\ a <= 4188 /\ 4188 + WSIZE * 4 <= a + WSIZE * total
       /\ (forall c szc, B' !! c = Some (szc, Used)
             <-> c <> 4188 /\ B_a !! c = Some (szc, Used))
       /\ (forall c szc y, B_a !! c = Some (szc, Used) -> c <> 4188 ->
             c < y < c + WSIZE * szc -> load h' y = load h_a y).
Proof.
  assert (B_a !! 4188 = Some (4, Used)) as Hb by (vm_compute; reflexivity).
  split; [exact well_formed_h_a|]. split; [exact Hb|].
  apply (free_releases h_a B_a 4188 4 well_formed_h_a Hb).
Defined.

(** ** Searching *)

(** X10: [find_fit] is a first-fit search that misses only when nothing
    fits.  On a heap whose lists are in order, for a size of 3 words or
    more that fits a header, and with more fuel than the heap has blocks:
    the call returns without changing the heap; NULL means that every
    listed block is smaller than the size asked for, and any other result
    is a listed block at least that large. *)
Theorem find_fit_finds (fuel : nat) (h : heap) (B : gmap Z (Z * status))
        (F : Z -> list Z) (words : Z) :
  Inv h B F -> 3 <= words < 2 ^ 31 -> (size B < fuel)%nat ->
  exists r reads,
    find_fit fuel h words = Done (r, reads) h
    /\ (r = NULL ->
        forall a sz, B !! a = Some (sz, Listed) -> sz < words)
    /\ (r <> NULL ->
        exists sz, B !! r = Some (sz, Listed) /\ words <= sz).
Proof.
  intros HI Hw Hfuel.
  destruct (find_fit_returns h B F words HI fuel Hw Hfuel)
    as (r & reads & Hff).
  exists r, reads. split; [exact Hff|].
  destruct (find_fit_spec h B F words HI fuel r reads h Hw Hff)
    as (_ & [(-> & Hall) | (N & Hfit)]).
  - split; [intros _; exact Hall | intros N; congruence].
  - split; [intros E; congruence | intros _; exact Hfit].
Qed.

Lemma find_fit_finds_witness :
  Inv h_free8 B_free8 F_free8 /\ 3 <= 8 < 2 ^ 31 /\ (size B_free8 < 8)%nat
  /\ exists r reads,
       find_fit 8 h_free8 8 = Done (r, reads) h_free8
       /\ (r = NULL ->
           forall a sz, B_free8 !! a = Some (sz, Listed) -> sz < 8)
       /\ (r <> NULL ->
           exists sz, B_free8 !! r = Some (sz, Listed) /\ 8 <= sz).
Proof.
  assert (size B_free8 < 8)%nat as Hfuel
    by (unfold B_free8; rewrite map_size_singleton; lia).
  split; [exact Inv_h_free8|]. split; [lia|]. split; [exact Hfuel|].
  apply (find_fit_finds 8 h_free8 B_free8 F_free8 8 Inv_h_free8);
    [lia | exact Hfuel].
Defined.

(** ** Extending the heap *)

(** X11: [extend_heap] on a well-formed heap, for a positive multiple of
    16 bytes.  If the provider has no room for that many bytes the call
    returns NULL and leaves the heap as it was.  Otherwise it returns (its
    assertion on the alignment of the epilogue holds) the start of a
    listed free block that ends at the new epilogue; the break and the
    epilogue have moved up by exactly the bytes asked for, the block
    starts at the old last block if that was free and at the old epilogue
    if not, the heap is well-formed, and the blocks in use and their
    payloads are unchanged. *)
Theorem extend_heap_grows (h : heap) (B : gmap Z (Z * status)) (size : Z) :
  well_formed h B -> size mod 16 = 0 -> 16 <= size ->
  (mem_max_addr h < mem_brk h + size -> extend_heap h size = Done NULL h)
  /\ (mem_brk h + size <= mem_max_addr h ->
      exists h' B' a total,
        extend_heap h size = Done a h'
        /\ a <> NULL
        /\ well_formed h' B'
        /\ heap_epilogue h' = heap_epilogue h + size
        /\ mem_brk h' = mem_brk h + size
        /\ B' !! a = Some (total, Listed)
        /\ a + WSIZE * total = heap_epilogue h'
        /\ (last h <> NULL /\ bt_used h (last h) = 0 -> a = last h)
        /\ (~ (last h <> NULL /\ bt_used h (last h) = 0) ->
            a = heap_epilogue h)
        /\ (forall c szc,
              B !! c = Some (szc, Used) <-> B' !! c = Some (szc, Used))
        /\ payload_frame B h h').
Proof.
  intros WF Hm Hs. split.
  - intros Hfail. apply extend_heap_fails; lia.
  - intros Hok.
    destruct (extend_heap_spec h B size WF Hm Hs Hok)
      as (h' & B' & a & total & Hrun & WF' & _ & Ee & Eb & _ & Hfr & Hu
          & Ha & Hat & Hlf & Hnlf).
    exists h', B', a, total.
    split; [exact Hrun|]. split.
    { intros ->. pose proof WF' as ((F' & HI') & _).
      rewrite (null_not_block h' B' (Inv_geometry _ _ _ HI')) in Ha.
      discriminate. }
    split; [exact WF'|]. split; [exact Ee|]. split; [exact Eb|].
    split; [exact Ha|]. split; [unfold WSIZE; lia|].
    split; [exact Hlf|]. split; [exact Hnlf|]. split; [exact Hu | exact Hfr].
Qed.

Lemma extend_heap_grows_witness :
  well_formed h_a B_a /\ 32 mod 16 = 0 /\ 16 <= 32
  /\ (mem_max_addr h_a < mem_brk h_a + 32 ->
      extend_heap h_a 32 = Done NULL h_a)
  /\ (mem_brk h_a + 32 <= mem_max_addr h_a ->
      exists h' B' a total,
        extend_heap h_a 32 = Done a h'
        /\ a <> NULL
        /\ well_formed h' B'
        /\ heap_epilogue h' = heap_epilogue h_a + 32
        /\ mem_brk h' = mem_brk h_a + 32
        /\ B' !! a = Some (total, Listed)
        /\ a + WSIZE * total = heap_epilogue h'
        /\ (last h_a <> NULL /\ bt_used h_a (last h_a) = 0 -> a = last h_a)
        /\ (~ (last h_a <> NULL /\ bt_used h_a (last h_a) = 0) ->
            a = heap_epilogue h_a)
        /\ (forall c szc,
              B_a !! c = Some (szc, Used) <-> B' !! c = Some (szc, Used))
        /\ payload_frame B_a h_a h').
Proof.
  split; [exact well_formed_h_a|]. split; [reflexivity|]. split; [lia|].
  apply (extend_heap_grows h_a B_a 32 well_formed_h_a); [reflexivity | lia].
Defined.

(** ** Allocating *)

(** X12: [malloc] on a well-formed heap, for a request whose rounded size
    fits a block header, with more fuel than the heap has blocks.  The
    call returns (no assertion fails).  It returns NULL only if no listed
    block is large enough and the provider has no room for the missing
    bytes, and then the heap is as it was.  Otherwise the result is a
    16-byte aligned payload of a block in use that was not in use before
    and holds at least the bytes asked for; the heap is well-formed; every
    block that was in use still is, with its size, does not overlap the
    new block, and has its payload unchanged; and no other block has come
    into use. *)
Theorem malloc_allocates (fuel : nat) (h : heap) (B : gmap Z (Z * status))
        (n : Z) :
  well_formed h B -> 0 < n < 2 ^ 33 - 19 -> (size B < fuel)%nat ->
  exists q h',
    malloc fuel h n = Done q h'
    /\ (q = NULL ->
        h' = h
        /\ mem_max_addr h < mem_brk h + needed_bytes h n
        /\ forall a sz, B !! a = Some (sz, Listed) -> sz < request_words n)
    /\ (q <> NULL ->
        q mod 16 = 0
        /\ exists B' szq,
             well_formed h' B'
             /\ B' !! (q - WSIZE) = Some (szq, Used)
             /\ n <= WSIZE * szq - WSIZE
             /\ (forall s, B !! (q - WSIZE) <> Some (s, Used))
             /\ (forall c szc, B !! c = Some (szc, Used) ->
                   B' !! c = Some (szc, Used)
                   /\ (c + WSIZE * szc <= q - WSIZE
                       \/ q - WSIZE + WSIZE * szq <= c))
             /\ (forall c szc, c <> q - WSIZE ->
                   B' !! c = Some (szc, Used) -> B !! c = Some (szc, Used))
             /\ payload_frame B h h').
Proof.
  intros WF Hn Hfuel.
  pose proof WF as ((F & HI) & _).
  pose proof (Inv_geometry h B F HI) as G.
  destruct (request_facts n Hn) as (Es & Ew4 & Ew & Ep & Em).
  destruct (malloc_returns fuel h B n WF Hn Hfuel) as (q & h' & Hm).
  exists q, h'. split; [exact Hm|]. split.
  - intros ->.
    destruct (find_fit_returns h B F (request_words n) HI fuel ltac:(lia)
                Hfuel) as (r & reads & Hff).
    destruct (Z.eq_dec r NULL) as [-> | N].
    + destruct (find_fit_spec h B F (request_words n) HI fuel NULL reads h
                  ltac:(lia) Hff) as (_ & [(_ & Hmiss) | (N & _)]);
        [|congruence].
      destruct (malloc_miss fuel h B n reads h WF Hn Hff) as (Hfail & Hok).
      destruct (Z_lt_le_dec (mem_max_addr h) (mem_brk h + needed_bytes h n))
        as [Hlt | Hle].
      * rewrite (Hfail Hlt) in Hm. inversion Hm; subst.
        split; [reflexivity|]. split; [exact Hlt | exact Hmiss].
      * exfalso. destruct (Hok Hle) as (h1 & B1 & a & Hrun & _ & _ & WF1
                                      & Ha & _).
        rewrite Hrun in Hm. inversion Hm as [[E1 E2]].
        pose proof WF1 as ((F1 & HI1) & _).
        pose proof (block_bounds h1 B1 (Inv_geometry _ _ _ HI1) _ _ _ Ha).
        unfold WSIZE, NULL in *. lia.
    + exfalso.
      destruct (malloc_hit fuel h B n r reads h WF Hn Hff N)
        as (h1 & B1 & sz & szq & Hrun & Hbt & _).
      rewrite Hrun in Hm. inversion Hm as [[E1 E2]].
      pose proof (block_bounds h B G _ _ _ Hbt).
      unfold WSIZE, NULL in *. lia.
  - intros Nq.
    destruct (malloc_spec fuel h B n q h' WF Hn Hm)
      as [(E & _) | (_ & B' & szq & WF' & Hq & Hle & Hnew & Hfr & _ & Hu
                     & Hback)]; [contradiction|].
    pose proof WF' as ((F' & HI') & Hcov' & _).
    pose proof (Inv_geometry h' B' F' HI') as G'.
    pose proof (block_aligned h' B' G' Hcov' _ _ _ Hq) as Hal.
    split.
    { unfold WSIZE in Hal.
      pose proof (Z.div_mod (q - 4) 16 ltac:(lia)).
      pose proof (Z.div_mod q 16 ltac:(lia)).
      pose proof (Z.mod_pos_bound q 16 ltac:(lia)). lia. }
    exists B', szq. split; [exact WF'|]. split; [exact Hq|].
    split; [unfold WSIZE; lia|]. split; [exact Hnew|].
    split; [|split; [exact Hback | exact Hfr]].
    intros c szc Hc. split; [apply (Hu c szc Hc)|].
    assert (c <> q - WSIZE) as Nc by (intros ->; apply (Hnew szc Hc)).
    destruct (sep h' B' _ _ _ _ _ _ G' (Hu c szc Hc) Hq Nc) as (Ho & _).
    unfold WSIZE. exact Ho.
Qed.

Lemma malloc_allocates_witness :
  well_formed h_free8 B_free8 /\ 0 < 8 < 2 ^ 33 - 19
  /\ (size B_free8 < 8)%nat
  /\ exists q h',
       malloc 8 h_free8 8 = Done q h'
       /\ (q = NULL ->
           h' = h_free8
           /\ mem_max_addr h_free8 < mem_brk h_free8 + needed_bytes h_free8 8
           /\ forall a sz, B_free8 !! a = Some (sz, Listed) ->
                sz < request_words 8)
       /\ (q <> NULL ->
           q mod 16 = 0
           /\ exists B' szq,
                well_formed h' B'
                /\ B' !! (q - WSIZE) = Some (szq, Used)
                /\ 8 <= WSIZE * szq - WSIZE
                /\ (forall s, B_free8 !! (q - WSIZE) <> Some (s, Used))
                /\ (forall c szc, B_free8 !! c = Some (szc, Used) ->
                      B' !! c = Some (szc, Used)
                      /\ (c + WSIZE * szc <= q - WSIZE
                          \/ q - WSIZE + WSIZE * szq <= c))
                /\ (forall c szc, c <> q - WSIZE ->
                      B' !! c = Some (szc, Used) ->
                      B_free8 !! c = Some (szc, Used))
                /\ payload_frame B_free8 h_free8 h').
Proof.
  assert (size B_free8 < 8)%nat as Hfuel
    by (unfold B_free8; rewrite map_size_singleton; lia).
  split; [exact well_formed_h_free8|]. split; [lia|]. split; [exact Hfuel|].
  apply (malloc_allocates 8 h_free8 B_free8 8 well_formed_h_free8);
    [lia | exact Hfuel].
Defined.

(** X13: freeing what [malloc] has just returned gives the blocks in use
    back as they were.  On a well-formed heap, for a request whose rounded
    size fits a block header: if [malloc] returns a payload, [free] of it
    returns, the heap is well-formed, the blocks in use are exactly those
    from before the [malloc], and their payloads are unchanged. *)
Theorem free_undoes_malloc (fuel : nat) (h : heap) (B : gmap Z (Z * status))
        (n q : Z) (h1 : heap) :
  well_formed h B -> 0 < n < 2 ^ 33 - 19 ->
  malloc fuel h n = Done q h1 -> q <> NULL ->
  exists h2 B2,
    free h1 q = Done tt h2
    /\ well_formed h2 B2
    /\ (forall c szc,
          B2 !! c = Some (szc, Used) <-> B !! c = Some (szc, Used))
    /\ payload_frame B h h2.
Proof.
  intros WF Hn Hm Nq.
  destruct (malloc_spec fuel h B n q h1 WF Hn Hm)
    as [(E & _) | (_ & B1 & szq & WF1 & Hq & Hle & Hnew & Hfr & _ & Hu
                   & Hback)]; [contradiction|].
  destruct (free_spec h1 B1 (q - WSIZE) szq WF1 Hq)
    as (h2 & B2 & a & total & Hrun & WF2 & Hsg & Hfr2 & Hin & Hout & _).
  replace (q - WSIZE + WSIZE) with q in Hrun by lia.
  exists h2, B2. split; [exact Hrun|]. split; [exact WF2|]. split.
  - intros c szc. split.
    + intros Hc. destruct (Hout c szc Hc) as (N & Hc1).
      apply (Hback c szc N Hc1).
    + intros Hc. apply Hin; [|apply (Hu c szc Hc)].
      intros ->. apply (Hnew szc Hc).
  - intros c szc y Hc Hy.
    assert (c <> q - WSIZE) as Nc by (intros ->; apply (Hnew szc Hc)).
    rewrite (Hfr2 c szc y (Hu c szc Hc) Nc) by (unfold WSIZE in Hy; lia).
    apply (Hfr c szc y Hc Hy).
Qed.

Lemma free_undoes_malloc_witness :
  well_formed h_a B_a /\ 0 < 8 < 2 ^ 33 - 19
  /\ malloc 8 h_a 8 = Done 4208 h_ab /\ 4208 <> NULL
  /\ exists h2 B2,
       free h_ab 4208 = Done tt h2
       /\ well_formed h2 B2
       /\ (forall c szc,
             B2 !! c = Some (szc, Used) <-> B_a !! c = Some (szc, Used))
       /\ payload_frame B_a h_a h2.
Proof.
  assert (malloc 8 h_a 8 = Done 4208 h_ab) as Hm by (vm_compute; reflexivity).
  assert (4208 <> NULL) as Nq by (unfold NULL; lia).
  split; [exact well_formed_h_a|]. split; [lia|]. split; [exact Hm|].
  split; [exact Nq|].
  apply (free_undoes_malloc 8 h_a B_a 8 4208 h_ab well_formed_h_a);
    [lia | exact Hm | exact Nq].
Defined.

(** ** Initialising *)

Lemma mem_sbrk_serves (h : heap) (incr : Z) :
  0 <= incr -> mem_brk h + incr <= mem_max_addr h ->
  mem_sbrk h incr = (mem_brk h, set_brk h (mem_brk h + incr)).
Proof.
  intros H0 H1. unfold mem_sbrk.
  destruct (Z.ltb_spec incr 0); [lia|].
  destruct (Z.ltb_spec (mem_max_addr h) (mem_brk h + incr)); [lia|].
  reflexivity.
Qed.

Lemma mm_init_state (base limit : Z) :
  0 < base -> (base + 80) mod 16 <= 12 -> base + 96 <= limit ->
  mm_init (fresh_heap base limit)
  = (0, let s := base + 80 + (12 - (base + 80) mod 16) in
        mkHeap {[ s := 1 ]} (s + 4) limit s s NULL
               (replicate 10 (s - 4)) base NULL).
Proof.
  intros Hb Hr Hl.
  pose proof (Z.mod_pos_bound (base + 80) 16 ltac:(lia)) as Hm.
  assert (init_padding ((base + 80) mod 16) = 12 - (base + 80) mod 16) as Ep.
  { unfold init_padding.
    destruct (Z.ltb_spec 12 ((base + 80) mod 16)); [lia|].
    apply to_size_small. lia. }
  unfold mm_init, fresh_heap, mem_sbrk, set_table_addr, set_brk,
    N_BUCKETS, PTR_SIZE, WSIZE.
  cbn [mem mem_brk mem_max_addr heap_start heap_epilogue last
       segregated_list table_addr past_table].
  change (10 * 8) with 80.
  change (80 <? 0) with false. change (0 <? 0) with false.
  change (4 <? 0) with false. cbn [orb].
  destruct (Z.ltb_spec limit (base + 80)); [lia|].
  destruct (Z.eqb_spec base NULL) as [E | _]; [unfold NULL in E; lia|].
  cbn [mem mem_brk mem_max_addr heap_start heap_epilogue last
       segregated_list table_addr past_table].
  replace (base + 80 + 0) with (base + 80) by lia.
  destruct (Z.ltb_spec limit (base + 80)); [lia|].
  destruct (Z.eqb_spec (base + 80) NULL) as [E | _];
    [unfold NULL in E; lia|].
  cbn [mem mem_brk mem_max_addr heap_start heap_epilogue last
       segregated_list table_addr past_table].
  rewrite Ep.
  destruct (Z.ltb_spec (12 - (base + 80) mod 16) 0); [lia|].
  destruct (Z.ltb_spec limit (base + 80 + (12 - (base + 80) mod 16)));
    [lia|].
  cbn [orb].
  destruct (Z.eqb_spec (base + 80) NULL) as [E | _];
    [unfold NULL in E; lia|].
  cbn [mem mem_brk mem_max_addr heap_start heap_epilogue last
       segregated_list table_addr past_table].
  destruct (Z.ltb_spec limit (base + 80 + (12 - (base + 80) mod 16) + 4));
    [lia|].
  cbv zeta.
  unfold set_segregated_list, set_last, PUT, set_mem, set_heap_epilogue,
    set_heap_start.
  cbn [mem mem_brk mem_max_addr heap_start heap_epilogue last
       segregated_list table_addr past_table].
  rewrite insert_empty. reflexivity.
Qed.

Lemma mm_init_layout (base limit : Z) :
  0 < base -> (base + 80) mod 16 <= 12 -> base + 96 <= limit ->
  limit - base < 2 ^ 33 ->
  exists h,
    mm_init (fresh_heap base limit) = (0, h)
    /\ well_formed h ∅
    /\ last h = NULL
    /\ (forall j, 0 <= j < N_BUCKETS -> read_bucket h j = heap_start h - WSIZE)
    /\ load h (heap_epilogue h) = USED
    /\ heap_epilogue h = heap_start h
    /\ (heap_start h + WSIZE) mod 16 = 0
    /\ table_addr h = base
    /\ mem_brk h <= base + 96.
Proof.
  intros Hb Hr Hl Hsz.
  pose proof (Z.mod_pos_bound (base + 80) 16 ltac:(lia)) as Hm.
  pose proof (Z.div_mod (base + 80) 16 ltac:(lia)) as Hd.
  rewrite (mm_init_state base limit Hb Hr Hl). cbv zeta.
  set (s := base + 80 + (12 - (base + 80) mod 16)).
  assert (s mod 16 = 12) as Hs.
  { replace s with (12 + ((base + 80) / 16) * 16) by (unfold s; lia).
    rewrite Z.mod_add by lia. reflexivity. }
  assert (forall j, 0 <= j < N_BUCKETS ->
            read_bucket (mkHeap {[ s := 1 ]} (s + 4) limit s s NULL
                           (replicate 10 (s - 4)) base NULL) j = s - 4)
    as Hbk.
  { intros j Hj. unfold read_bucket, N_BUCKETS in *.
    cbn [segregated_list past_table].
    destruct (Z.leb_spec 0 j); [|lia].
    destruct (Z.ltb_spec j 10); [|lia]. cbn [andb].
    rewrite (lookup_replicate_2 10 (s - 4) (Z.to_nat j)) by lia.
    reflexivity. }
  eexists. split; [reflexivity|].
  split.
  { split.
    - exists (fun _ => []). split; [|split].
      + constructor; cbn [heap_start heap_epilogue mem_brk mem_max_addr
                          past_table]; unfold WSIZE.
        * lia.
        * lia.
        * unfold s. lia.
        * reflexivity.
        * intros a sz st H. rewrite lookup_empty in H. discriminate.
        * intros a sza sta b szb stb H. rewrite lookup_empty in H.
          discriminate.
      + intros a sz st H. rewrite lookup_empty in H. discriminate.
      + split; [reflexivity|]. split.
        * intros j Hj. split; [|split; [|split]].
          -- rewrite (Hbk j Hj). reflexivity.
          -- exact I.
          -- constructor.
          -- intros a [].
        * intros a sz H. rewrite lookup_empty in H. discriminate.
    - split; [|split].
      + intros a sz st H. rewrite lookup_empty in H. discriminate.
      + left. reflexivity.
      + intros a sz st H. rewrite lookup_empty in H. discriminate. }
  split; [reflexivity|].
  split; [intros j Hj; rewrite (Hbk j Hj); reflexivity|].
  split.
  { unfold load. cbn [mem heap_epilogue]. rewrite lookup_singleton_eq.
    reflexivity. }
  split; [reflexivity|].
  split.
  { cbn [heap_start]. unfold WSIZE.
    replace (s + 4) with (((base + 80) / 16 + 1) * 16) by (unfold s; lia).
    apply Z.mod_mul. lia. }
  split; [reflexivity|].
  cbn [mem_brk]. unfold s. lia.
Qed.

(** X14: [mm_init] on a provider that has handed out nothing, with room
    for the table, the padding and the epilogue word, and with a break
    that leaves a residue of at most 4 modulo 16 behind the bucket table
    (so that the padding is [12 - residue] bytes and the eight bytes
    behind the table lie inside it).  The call returns 0 and leaves a
    well-formed heap without any block: every bucket holds the end mark,
    [last] is unset, the epilogue word says USED, and the first payload to
    come will be 16-byte aligned. *)
Theorem mm_init_well_formed (base limit : Z) :
  0 < base -> (base + 80) mod 16 <= 4 -> base + 96 <= limit ->
  limit - base < 2 ^ 33 ->
  exists h,
    mm_init (fresh_heap base limit) = (0, h)
    /\ well_formed h ∅
    /\ last h = NULL
    /\ (forall j, 0 <= j < N_BUCKETS -> read_bucket h j = heap_start h - WSIZE)
    /\ load h (heap_epilogue h) = USED
    /\ heap_epilogue h = heap_start h
    /\ (heap_start h + WSIZE) mod 16 = 0
    /\ table_addr h = base
    /\ table_addr h + N_BUCKETS * PTR_SIZE + 8 <= heap_start h
    /\ mem_brk h = heap_epilogue h + WSIZE.
Proof.
  intros Hb Hr Hl Hsz.
  pose proof (Z.mod_pos_bound (base + 80) 16 ltac:(lia)) as Hm.
  destruct (mm_init_layout base limit Hb ltac:(lia) Hl Hsz)
    as (h & E & WF & H1 & H2 & H3 & H4 & H5 & H6 & H7).
  exists h. split; [exact E|]. split; [exact WF|]. split; [exact H1|].
  split; [exact H2|]. split; [exact H3|]. split; [exact H4|].
  split; [exact H5|]. split; [exact H6|].
  rewrite (mm_init_state base limit Hb ltac:(lia) Hl) in E.
  cbv zeta in E. inversion E; subst h.
  cbn [table_addr heap_start heap_epilogue mem_brk].
  unfold N_BUCKETS, PTR_SIZE, WSIZE. split; lia.
Qed.

Lemma mm_init_well_formed_witness :
  exists h,
    mm_init (fresh_heap 4096 65536) = (0, h)
    /\ well_formed h ∅
    /\ last h = NULL
    /\ (forall j, 0 <= j < N_BUCKETS -> read_bucket h j = heap_start h - WSIZE)
    /\ load h (heap_epilogue h) = USED
    /\ heap_epilogue h = heap_start h
    /\ (heap_start h + WSIZE) mod 16 = 0
    /\ table_addr h = 4096
    /\ table_addr h + N_BUCKETS * PTR_SIZE + 8 <= heap_start h
    /\ mem_brk h = heap_epilogue h + WSIZE.
Proof.
  apply (mm_init_well_formed 4096 65536);
    [lia | vm_compute; discriminate | lia | vm_compute; reflexivity].
Defined.

(** ** Placing *)

(** X21: [place] on a listed free block of a well-formed heap that holds
    the words needed.  The call returns and the heap is well-formed again.
    If at least 16 words are left over, the block is in use at the size
    needed and the leftover is a listed free block right behind it;
    otherwise the block is in use at its full size.  The globals other
    than [last] and the table stay, the other blocks keep their status,
    and the payloads in use are unchanged. *)
Theorem place_hands_out (h : heap) (B : gmap Z (Z * status))
        (bt sz words : Z) :
  well_formed h B -> B !! bt = Some (sz, Listed) ->
  words mod 4 = 0 -> 4 <= words <= sz ->
  exists h' B',
    place h bt words = Done tt h'
    /\ well_formed h' B' /\ same_globals h h' /\ payload_frame B h h'
    /\ (16 <= sz - words ->
        B' !! bt = Some (words, Used)
        /\ B' !! (bt + WSIZE * words) = Some (sz - words, Listed))
    /\ (sz - words < 16 -> B' !! bt = Some (sz, Used))
    /\ (forall c szc, c <> bt ->
          (B' !! c = Some (szc, Used) <-> B !! c = Some (szc, Used)))
    /\ (forall c szc, c <> bt -> c <> bt + WSIZE * words ->
          B !! c = Some (szc, Listed) -> B' !! c = Some (szc, Listed)).
Proof.
  intros WF Hbt Hw4 Hw.
  destruct (place_spec_full h B bt sz words WF Hbt Hw4 Hw)
    as (h' & B' & Hrun & WF' & Hsg & Hfr & Hb & Hu & Hback & Hrem & Hl).
  exists h', B'. unfold WSIZE.
  split; [exact Hrun|]. split; [exact WF'|]. split; [exact Hsg|].
  split; [exact Hfr|]. split.
  { intros H. destruct (Z.leb_spec 16 (sz - words)); [|lia].
    split; [exact Hb | exact (Hrem H)]. }
  split.
  { intros H. destruct (Z.leb_spec 16 (sz - words)); [lia | exact Hb]. }
  split; [|exact Hl].
  intros c szc N. split; [apply (Hback c szc N) | apply (Hu c szc)].
Qed.

Lemma place_hands_out_witness :
  well_formed h_free8 B_free8 /\ B_free8 !! 4188 = Some (8, Listed)
  /\ 4 mod 4 = 0 /\ 4 <= 4 <= 8
  /\ exists h' B',
       place h_free8 4188 4 = Done tt h'
       /\ well_formed h' B' /\ same_globals h_free8 h'
       /\ payload_frame B_free8 h_free8 h'
       /\ (16 <= 8 - 4 ->
           B' !! 4188 = Some (4, Used)
           /\ B' !! (4188 + WSIZE * 4) = Some (8 - 4, Listed))
       /\ (8 - 4 < 16 -> B' !! 4188 = Some (8, Used))
       /\ (forall c szc, c <> 4188 ->
             (B' !! c = Some (szc, Used) <-> B_free8 !! c = Some (szc, Used)))
       /\ (forall c szc, c <> 4188 -> c <> 4188 + WSIZE * 4 ->
             B_free8 !! c = Some (szc, Listed) ->
             B' !! c = Some (szc, Listed)).
Proof.
  assert (B_free8 !! 4188 = Some (8, Listed)) as Hb by reflexivity.
  split; [exact well_formed_h_free8|]. split; [exact Hb|].
  split; [reflexivity|]. split; [lia|].
  apply (place_hands_out h_free8 B_free8 4188 8 4 well_formed_h_free8 Hb);
    [reflexivity | lia].
Defined.

(** ** Clearing a payload *)

Section Memset.
Variable (dst : Z).

Lemma zero_out (l : list nat) :
  forall h0 x,
  (forall i, In i l -> x <> dst + WSIZE * Z.of_nat i) ->
  load (fold_left (fun h' i => PUT h' (dst + WSIZE * Z.of_nat i) 0) l h0) x
  = load h0 x.
Proof.
  induction l as [|a l IH]; intros h0 x Hx; [reflexivity|].
  cbn [fold_left]. rewrite IH by (intros i Hi; apply Hx; right; exact Hi).
  apply load_PUT_ne. apply Hx. left. reflexivity.
Qed.

Lemma zero_in (l : list nat) :
  forall h0 i, In i l ->
  load (fold_left (fun h' i => PUT h' (dst + WSIZE * Z.of_nat i) 0) l h0)
       (dst + WSIZE * Z.of_nat i) = 0.
Proof.
  induction l as [|a l IH]; intros h0 i Hi; [destruct Hi|].
  cbn [fold_left].
  destruct (in_dec Nat.eq_dec i l) as [Hin | Hout]; [apply IH; exact Hin|].
  destruct Hi as [-> | Hin]; [|contradiction].
  rewrite zero_out.
  - rewrite load_PUT_eq. reflexivity.
  - intros j Hj E. apply Hout.
    assert (j = i) as -> by (unfold WSIZE in E; lia). exact Hj.
Qed.

Lemma zero_globals (l : list nat) :
  forall h0,
  same_globals h0
    (fold_left (fun h' i => PUT h' (dst + WSIZE * Z.of_nat i) 0) l h0)
  /\ last (fold_left (fun h' i => PUT h' (dst + WSIZE * Z.of_nat i) 0) l h0)
     = last h0
  /\ segregated_list
       (fold_left (fun h' i => PUT h' (dst + WSIZE * Z.of_nat i) 0) l h0)
     = segregated_list h0.
Proof.
  induction l as [|a l IH]; intros h0.
  - split; [apply same_globals_refl | auto].
  - cbn [fold_left].
    destruct (IH (PUT h0 (dst + WSIZE * Z.of_nat a) 0)) as (H1 & H2 & H3).
    split; [|split; [rewrite H2 | rewrite H3]; reflexivity].
    apply (same_globals_trans _ (PUT h0 (dst + WSIZE * Z.of_nat a) 0));
      [|exact H1].
    apply same_globals_PUT.
Qed.

End Memset.

(** The low-order bytes that [memset0] clears in the word a count ends
    in. *)
Lemma cleared_low_bytes (w r : Z) :
  0 < r < 4 ->
  to_word (Z.land w (Z.lnot (2 ^ (8 * r) - 1))) mod 2 ^ (8 * r) = 0.
Proof.
  intros Hr.
  set (v := Z.land w (Z.lnot (2 ^ (8 * r) - 1))).
  assert (v mod 2 ^ (8 * r) = 0) as Hv.
  { unfold v. rewrite <- Z.land_ones by lia.
    rewrite <- Z.land_assoc.
    replace (2 ^ (8 * r) - 1) with (Z.ones (8 * r))
      by (rewrite Z.ones_equiv; lia).
    rewrite (Z.land_comm (Z.lnot _)), Z.land_lnot_diag.
    apply Z.land_0_r. }
  assert (2 ^ 32 = 2 ^ (8 * r) * 2 ^ (32 - 8 * r)) as E32
    by (rewrite <- Z.pow_add_r by lia; f_equal; lia).
  assert (0 < 2 ^ (8 * r)) as Hp by (apply Z.pow_pos_nonneg; lia).
  assert (2 ^ 31 = 2 ^ (8 * r) * 2 ^ (31 - 8 * r)) as E31
    by (rewrite <- Z.pow_add_r by lia; f_equal; lia).
  unfold to_word.
  pose proof (Z.div_mod (v + 2 ^ 31) (2 ^ 32) ltac:(lia)) as Hd.
  replace ((v + 2 ^ 31) mod 2 ^ 32 - 2 ^ 31)
    with (v + (- ((v + 2 ^ 31) / 2 ^ 32) * 2 ^ (32 - 8 * r)) * 2 ^ (8 * r))
    by (rewrite E32 in Hd at 1; nia).
  rewrite Z.mod_add by lia. exact Hv.
Qed.

Lemma memset0_spec (h : heap) (dst n : Z) :
  0 <= n ->
  (forall i, 0 <= i -> 4 * i + 4 <= n ->
     load (memset0 h dst n) (dst + 4 * i) = 0)
  /\ (n mod 4 <> 0 ->
      load (memset0 h dst n) (dst + 4 * (n / 4)) mod 2 ^ (8 * (n mod 4)) = 0)
  /\ (forall x, ~ (dst <= x < dst + n) -> load (memset0 h dst n) x = load h x)
  /\ same_globals h (memset0 h dst n)
  /\ last (memset0 h dst n) = last h
  /\ segregated_list (memset0 h dst n) = segregated_list h.
Proof.
  intros Hn.
  pose proof (Z.div_mod n 4 ltac:(lia)) as Hd.
  pose proof (Z.mod_pos_bound n 4 ltac:(lia)) as Hm.
  assert (0 <= n / 4) as Hq by (apply Z.div_pos; lia).
  set (h1 := fold_left (fun h' i => PUT h' (dst + WSIZE * Z.of_nat i) 0)
                       (seq 0 (Z.to_nat (n / WSIZE))) h).
  assert (forall i, 0 <= i < n / 4 -> load h1 (dst + 4 * i) = 0) as Hin.
  { intros i Hi.
    pose proof (zero_in dst (seq 0 (Z.to_nat (n / WSIZE))) h (Z.to_nat i))
      as H.
    rewrite Z2Nat.id in H by lia. unfold WSIZE in H at 3. apply H.
    apply in_seq. unfold WSIZE. lia. }
  assert (forall x, ~ (dst <= x < dst + 4 * (n / 4)) -> load h1 x = load h x)
    as Hout.
  { intros x Hx. apply zero_out. intros i Hi E. apply in_seq in Hi.
    unfold WSIZE in *. lia. }
  destruct (zero_globals dst (seq 0 (Z.to_nat (n / WSIZE))) h)
    as (Hg & Hl & Hs).
  fold h1 in Hg, Hl, Hs.
  replace (memset0 h dst n)
    with (if n mod 4 =? 0 then h1
          else PUT h1 (dst + 4 * (n / 4))
                 (Z.land (load h1 (dst + 4 * (n / 4)))
                         (Z.lnot (2 ^ (8 * (n mod 4)) - 1))))
    by reflexivity.
  destruct (Z.eqb_spec (n mod 4) 0) as [E0 | N0].
  - split; [intros i Hi0 Hi; apply Hin; lia|].
    split; [intros N; contradiction|].
    split; [intros x Hx; apply Hout; lia|].
    split; [exact Hg|]. split; [exact Hl | exact Hs].
  - split.
    { intros i Hi0 Hi. rewrite load_PUT_ne by lia. apply Hin. lia. }
    split.
    { intros _. rewrite load_PUT_eq. apply cleared_low_bytes. lia. }
    split.
    { intros x Hx. rewrite load_PUT_ne by lia. apply Hout. lia. }
    split; [|split; [exact Hl | exact Hs]].
    apply (same_globals_trans _ h1); [exact Hg | apply same_globals_PUT].
Qed.

(** ** Allocating a cleared block *)

Lemma malloc_zero (fuel : nat) (h : heap) : malloc fuel h 0 = Done NULL h.
Proof. reflexivity. Qed.

Lemma calloc_spec (fuel : nat) (h : heap) (B : gmap Z (Z * status))
      (k n q : Z) (h' : heap) :
  well_formed h B -> 0 <= k * n < 2 ^ 33 - 19 ->
  calloc fuel h k n = Done q h' ->
  (q = NULL /\ h' = h)
  \/ (q <> NULL /\ 0 < k * n
      /\ exists B' szq,
           well_formed h' B'
           /\ B' !! (q - WSIZE) = Some (szq, Used)
           /\ k * n + 4 <= 4 * szq
           /\ (forall s, B !! (q - WSIZE) <> Some (s, Used))
           /\ (forall i, 0 <= i -> 4 * i + 4 <= k * n ->
                 load h' (q + 4 * i) = 0)
           /\ ((k * n) mod 4 <> 0 ->
               load h' (q + 4 * (k * n / 4)) mod 2 ^ (8 * ((k * n) mod 4))
               = 0)
           /\ payload_frame B h h'
           /\ heap_start h' = heap_start h
           /\ (forall c szc, B !! c = Some (szc, Used) ->
                 B' !! c = Some (szc, Used))
           /\ (forall c szc, c <> q - WSIZE -> B' !! c = Some (szc, Used) ->
                 B !! c = Some (szc, Used))).
Proof.
  intros WF Hkn Hc. unfold calloc in Hc.
  rewrite (to_size_small (k * n)) in Hc by lia.
  destruct (Z.eq_dec (k * n) 0) as [E0 | N0].
  { rewrite E0, malloc_zero in Hc. cbn in Hc. inversion Hc. left. auto. }
  assert (0 < k * n < 2 ^ 33 - 19) as Hn by lia.
  destruct (malloc fuel h (k * n)) as [q1 h1| |] eqn:Hm;
    cbn [bind] in Hc; try discriminate.
  destruct (malloc_spec fuel h B (k * n) q1 h1 WF Hn Hm)
    as [(-> & ->) | (Nq & B1 & szq & WF1 & Hq & Hle & Hnew & Hfr & Est & Hu
                     & Hback)].
  { cbn in Hc. inversion Hc. left. auto. }
  destruct (Z.eqb_spec q1 NULL) as [E | _]; [contradiction|].
  cbn [negb] in Hc. inversion Hc; subst q h'. clear Hc.
  right. split; [exact Nq|]. split; [lia|].
  destruct (request_facts (k * n) Hn) as (Es & _ & _ & Ep & _).
  destruct (memset0_spec h1 q1 (k * n) ltac:(lia))
    as (Hz & Hzl & Hout & Hg & Hl & Hs).
  pose proof WF1 as ((F1 & HI1) & _).
  pose proof (Inv_geometry h1 B1 F1 HI1) as G1.
  exists B1, szq.
  split.
  { apply (well_formed_payload_write h1 _ B1 (q1 - WSIZE) szq WF1 Hq Hg Hl Hs).
    intros x Hx. apply Hout. unfold WSIZE in *. lia. }
  split; [exact Hq|]. split; [lia|]. split; [exact Hnew|].
  split; [exact Hz|]. split; [exact Hzl|].
  split.
  { intros a sz x Ha Hx. rewrite Hout; [apply (Hfr a sz x Ha Hx)|].
    pose proof (Hu a sz Ha) as Ha1.
    assert (q1 - WSIZE <> a) as N.
    { intros E. rewrite E in Hnew. apply (Hnew sz Ha). }
    destruct (sep h1 B1 _ _ _ _ _ _ G1 Hq Ha1 N) as (Ho & _).
    unfold WSIZE in *. lia. }
  split; [destruct Hg as (Eg & _); congruence|].
  split; [exact Hu | exact Hback].
Qed.

(** X15: on a well-formed heap, [calloc(k, n)] with a product below
    [2^33 - 19] that returns a payload has allocated a block that holds
    [k * n] bytes, and these bytes are zero: every whole word, and the
    low-order bytes of the word the count ends in.  The heap stays
    well-formed and the payloads of the other blocks in use are as they
    were.  A NULL result leaves the heap as it was. *)
Theorem calloc_zeroes (fuel : nat) (h : heap) (B : gmap Z (Z * status))
        (k n q : Z) (h' : heap) :
  well_formed h B -> 0 <= k * n < 2 ^ 33 - 19 ->
  calloc fuel h k n = Done q h' ->
  (q = NULL /\ h' = h)
  \/ (q <> NULL
      /\ exists B' szq,
           well_formed h' B'
           /\ B' !! (q - WSIZE) = Some (szq, Used)
           /\ k * n + 4 <= 4 * szq
           /\ (forall s, B !! (q - WSIZE) <> Some (s, Used))
           /\ (forall i, 0 <= i -> 4 * i + 4 <= k * n ->
                 load h' (q + 4 * i) = 0)
           /\ ((k * n) mod 4 <> 0 ->
               load h' (q + 4 * (k * n / 4)) mod 2 ^ (8 * ((k * n) mod 4))
               = 0)
           /\ payload_frame B h h').
Proof.
  intros WF Hkn Hc.
  destruct (calloc_spec fuel h B k n q h' WF Hkn Hc)
    as [H | (Nq & _ & B' & szq & H1 & H2 & H3 & H4 & H5 & H6 & H7 & _)];
    [left; exact H|].
  right. split; [exact Nq|]. exists B', szq. auto 10.
Qed.

Lemma calloc_zeroes_witness :
  well_formed h_free8 B_free8 /\ 0 <= 2 * 5 < 2 ^ 33 - 19
  /\ calloc 8 h_free8 2 5
     = Done 4192 (state_after (calloc 8 h_free8 2 5) h_free8)
  /\ ((4192 = NULL /\ state_after (calloc 8 h_free8 2 5) h_free8 = h_free8)
      \/ (4192 <> NULL
          /\ exists B' szq,
               well_formed (state_after (calloc 8 h_free8 2 5) h_free8) B'
               /\ B' !! (4192 - WSIZE) = Some (szq, Used)
               /\ 2 * 5 + 4 <= 4 * szq
               /\ (forall s, B_free8 !! (4192 - WSIZE) <> Some (s, Used))
               /\ (forall i, 0 <= i -> 4 * i + 4 <= 2 * 5 ->
                     load (state_after (calloc 8 h_free8 2 5) h_free8)
                          (4192 + 4 * i) = 0)
               /\ ((2 * 5) mod 4 <> 0 ->
                   load (state_after (calloc 8 h_free8 2 5) h_free8)
                        (4192 + 4 * (2 * 5 / 4))
                     mod 2 ^ (8 * ((2 * 5) mod 4)) = 0)
               /\ payload_frame B_free8 h_free8
                    (state_after (calloc 8 h_free8 2 5) h_free8))).
Proof.
  assert (calloc 8 h_free8 2 5
          = Done 4192 (state_after (calloc 8 h_free8 2 5) h_free8)) as Hc
    by (vm_compute; reflexivity).
  split; [exact well_formed_h_free8|]. split; [lia|]. split; [exact Hc|].
  apply (calloc_zeroes 8 h_free8 B_free8 2 5 4192 _ well_formed_h_free8);
    [lia | exact Hc].
Defined.

(** ** The layout of a served heap *)

Lemma null_not_payload (h : heap) (B : gmap Z (Z * status)) (s : Z)
      (st : status) :
  well_formed h B -> B !! (NULL - WSIZE) <> Some (s, st).
Proof.
  intros ((F & HI) & _) E.
  pose proof (block_bounds h B (Inv_geometry h B F HI) _ _ _ E).
  unfold NULL, WSIZE in *. lia.
Qed.

Lemma NoDup_remove_all (x : Z) (l : list Z) :
  List.NoDup l -> List.NoDup (remove Z.eq_dec x l).
Proof.
  induction 1 as [|a l Ha Hl IH]; [constructor|].
  cbn [remove]. destruct (Z.eq_dec x a) as [E | N]; [exact IH|].
  constructor; [|exact IH].
  intros H. apply in_remove in H. apply Ha. apply H.
Qed.

Section Keep.
Variables (h : heap) (B : gmap Z (Z * status)) (live : list Z).
Hypothesis WF : well_formed h B.
Hypothesis Hlive :
  forall p, In p live <-> exists sz, B !! (p - WSIZE) = Some (sz, Used).
Hypothesis Hnd : List.NoDup live.

Lemma null_not_live : ~ In NULL live.
Proof.
  intros H. apply Hlive in H. destruct H as (sz & H).
  exact (null_not_payload h B sz Used WF H).
Qed.

Lemma keep_malloc (fuel : nat) (n q : Z) (h' : heap) :
  0 <= n < 2 ^ 33 - 19 -> malloc fuel h n = Done q h' ->
  exists B', well_formed h' B'
    /\ (forall p, In p (if q =? NULL then live else q :: live)
                  <-> exists sz, B' !! (p - WSIZE) = Some (sz, Used))
    /\ List.NoDup (if q =? NULL then live else q :: live).
Proof.
  intros Hn Hm.
  destruct (Z.eq_dec n 0) as [-> | N0].
  { rewrite malloc_zero in Hm. injection Hm as <- <-.
    exists B. split; [exact WF|]. split; [exact Hlive | exact Hnd]. }
  destruct (malloc_spec fuel h B n q h' WF ltac:(lia) Hm)
    as [(-> & ->) | (Nq & B' & szq & WF' & Hq & _ & Hnew & _ & _ & Hu
                     & Hback)].
  { change (NULL =? NULL) with true. cbv iota.
    exists B. split; [exact WF|]. split; [exact Hlive | exact Hnd]. }
  destruct (Z.eqb_spec q NULL) as [E | _]; [contradiction|].
  exists B'. split; [exact WF'|]. split.
  - intros p. split.
    + intros [<- | Hin]; [exists szq; exact Hq|].
      apply Hlive in Hin. destruct Hin as (sz & Hp).
      exists sz. apply (Hu _ _ Hp).
    + intros (sz & Hp).
      destruct (Z.eq_dec p q) as [-> | N]; [left; reflexivity|].
      right. apply Hlive. exists sz.
      apply (Hback (p - WSIZE) sz ltac:(lia) Hp).
  - constructor; [|exact Hnd].
    intros Hin. apply Hlive in Hin. destruct Hin as (sz & Hp).
    exact (Hnew sz Hp).
Qed.

Lemma keep_calloc (fuel : nat) (k n q : Z) (h' : heap) :
  0 <= k * n < 2 ^ 33 - 19 -> calloc fuel h k n = Done q h' ->
  exists B', well_formed h' B'
    /\ (forall p, In p (if q =? NULL then live else q :: live)
                  <-> exists sz, B' !! (p - WSIZE) = Some (sz, Used))
    /\ List.NoDup (if q =? NULL then live else q :: live).
Proof.
  intros Hn Hc.
  destruct (calloc_spec fuel h B k n q h' WF Hn Hc)
    as [(-> & ->) | (Nq & _ & B' & szq & WF' & Hq & _ & Hnew & _ & _ & _ & _
                     & Hu & Hback)].
  { change (NULL =? NULL) with true. cbv iota.
    exists B. split; [exact WF|]. split; [exact Hlive | exact Hnd]. }
  destruct (Z.eqb_spec q NULL) as [E | _]; [contradiction|].
  exists B'. split; [exact WF'|]. split.
  - intros p. split.
    + intros [<- | Hin]; [exists szq; exact Hq|].
      apply Hlive in Hin. destruct Hin as (sz & Hp).
      exists sz. apply (Hu _ _ Hp).
    + intros (sz & Hp).
      destruct (Z.eq_dec p q) as [-> | N]; [left; reflexivity|].
      right. apply Hlive. exists sz.
      apply (Hback (p - WSIZE) sz ltac:(lia) Hp).
  - constructor; [|exact Hnd].
    intros Hin. apply Hlive in Hin. destruct Hin as (sz & Hp).
    exact (Hnew sz Hp).
Qed.

Lemma keep_free (p : Z) (h' : heap) :
  p = NULL \/ In p live -> free h p = Done tt h' ->
  exists B', well_formed h' B'
    /\ (forall x, In x (remove Z.eq_dec p live)
                  <-> exists sz, B' !! (x - WSIZE) = Some (sz, Used))
    /\ List.NoDup (remove Z.eq_dec p live).
Proof.
  intros [-> | Hin] Hf.
  { change (free h NULL) with (Done tt h) in Hf. injection Hf as <-.
    rewrite (notin_remove Z.eq_dec live NULL null_not_live).
    exists B. split; [exact WF|]. split; [exact Hlive | exact Hnd]. }
  pose proof Hin as Hp. apply Hlive in Hp. destruct Hp as (sz & Hp).
  destruct (free_spec h B (p - WSIZE) sz WF Hp)
    as (h2 & B' & a & total & Hrun & WF' & _ & _ & Hu & Hback & _).
  replace (p - WSIZE + WSIZE) with p in Hrun by lia.
  rewrite Hrun in Hf. inversion Hf; subst h2.
  exists B'. split; [exact WF'|].
  split; [|apply NoDup_remove_all; exact Hnd].
  intros x. split.
  - intros Hx. apply in_remove in Hx. destruct Hx as (Hx & N).
    apply Hlive in Hx. destruct Hx as (s & Hx).
    exists s. apply (Hu (x - WSIZE) s ltac:(lia) Hx).
  - intros (s & Hx). destruct (Hback _ _ Hx) as (N & Hx0).
    apply in_in_remove; [lia|]. apply Hlive. exists s. exact Hx0.
Qed.

Lemma keep_realloc (fuel : nat) (p n q : Z) (h' : heap) :
  p = NULL \/ In p live -> 0 <= n < 2 ^ 33 - 19 ->
  realloc fuel h p n = Done q h' ->
  exists B', well_formed h' B'
    /\ (forall x, In x (if n =? 0 then remove Z.eq_dec p live
                        else if q =? NULL then live
                        else q :: remove Z.eq_dec p live)
                  <-> exists sz, B' !! (x - WSIZE) = Some (sz, Used))
    /\ List.NoDup (if n =? 0 then remove Z.eq_dec p live
                   else if q =? NULL then live
                   else q :: remove Z.eq_dec p live).
Proof.
  intros Hp Hn Hr.
  destruct (Z.eqb_spec n 0) as [-> | N0].
  { unfold realloc in Hr. change (0 =? 0) with true in Hr. cbv iota in Hr.
    destruct (free h p) as [[] h1| |] eqn:Hf; cbn [bind] in Hr;
      try discriminate.
    injection Hr as <- <-. apply (keep_free p h1 Hp Hf). }
  destruct Hp as [-> | Hin].
  { assert (realloc fuel h NULL n = malloc fuel h n) as E.
    { unfold realloc. destruct (Z.eqb_spec n 0); [contradiction|].
      reflexivity. }
    rewrite E in Hr.
    rewrite (notin_remove Z.eq_dec live NULL null_not_live).
    apply (keep_malloc fuel n q h' Hn Hr). }
  pose proof Hin as Hp. apply Hlive in Hp. destruct Hp as (so & Hp).
  assert (p <> NULL) as Np by (intros ->; exact (null_not_live Hin)).
  destruct (malloc fuel h n) as [q1 h1| |] eqn:Hm.
  2:{ unfold realloc in Hr. destruct (Z.eqb_spec n 0); [contradiction|].
      destruct (Z.eqb_spec p NULL); [contradiction|].
      rewrite Hm in Hr. discriminate. }
  2:{ unfold realloc in Hr. destruct (Z.eqb_spec n 0); [contradiction|].
      destruct (Z.eqb_spec p NULL); [contradiction|].
      rewrite Hm in Hr. discriminate. }
  destruct (Z.eq_dec q1 NULL) as [-> | Nq].
  { rewrite (realloc_fails fuel h p n h1 Np N0 Hm) in Hr.
    inversion Hr; subst q h'.
    destruct (malloc_spec fuel h B n NULL h1 WF ltac:(lia) Hm)
      as [(_ & ->) | (N & _)]; [|contradiction].
    change (NULL =? NULL) with true. cbv iota.
    exists B. split; [exact WF|]. split; [exact Hlive | exact Hnd]. }
  assert (forall s, B !! (q1 - WSIZE) <> Some (s, Used)) as Hfresh.
  { destruct (malloc_spec fuel h B n q1 h1 WF ltac:(lia) Hm)
      as [(E & _) | (_ & B1 & s1 & _ & _ & _ & Hnew & _)];
      [contradiction | exact Hnew]. }
  destruct (realloc_moves_full fuel h B p so n q1 h1 WF Hp ltac:(lia) Hm Nq)
    as (h2 & B' & sn & Hrun & WF' & Hq & _ & _ & Hgone & _ & Hu & Hback & _).
  rewrite Hrun in Hr. inversion Hr; subst q1 h2.
  destruct (Z.eqb_spec q NULL) as [E | _]; [contradiction|].
  exists B'. split; [exact WF'|]. split.
  - intros x. split.
    + intros [<- | Hx]; [exists sn; exact Hq|].
      apply in_remove in Hx. destruct Hx as (Hx & N).
      apply Hlive in Hx. destruct Hx as (s & Hx).
      exists s. apply (Hu (x - WSIZE) s ltac:(lia) Hx).
    + intros (s & Hx).
      destruct (Hback _ _ Hx) as [E | (N & Hx0)];
        [left; lia|].
      right. apply in_in_remove; [lia|]. apply Hlive. exists s. exact Hx0.
  - constructor; [|apply NoDup_remove_all; exact Hnd].
    intros Hx. apply in_remove in Hx. destruct Hx as (Hx & N).
    apply Hlive in Hx. destruct Hx as (s & Hx).
    exact (Hfresh s Hx).
Qed.

Lemma keep_store (p i v : Z) :
  In p live -> 0 <= i < bt_size h (p - WSIZE) - 1 ->
  well_formed (PUT h (p + WSIZE * i) v) B.
Proof.
  intros Hin Hi. apply Hlive in Hin. destruct Hin as (sz & Hp).
  pose proof WF as ((F & HI) & _).
  destruct (Inv_headers h B F HI _ _ _ Hp) as (Es & _).
  apply (well_formed_payload_write h _ B (p - WSIZE) sz WF Hp).
  - apply same_globals_PUT.
  - reflexivity.
  - reflexivity.
  - intros x Hx. apply load_PUT_ne. unfold WSIZE in *. lia.
Qed.

End Keep.

Lemma served_layout (live : list Z) (h : heap) :
  served live h ->
  exists B, well_formed h B
    /\ (forall p, In p live
                  <-> exists sz, B !! (p - WSIZE) = Some (sz, Used))
    /\ List.NoDup live.
Proof.
  induction 1 as [base limit h Hb Hr Hl Hsz Hi
                 | fuel live h n p h' _ (B & WF & Hlive & Hnd) Hn Hm
                 | fuel live h k n p h' _ (B & WF & Hlive & Hnd) Hn Hc
                 | live h p h' _ (B & WF & Hlive & Hnd) Hp Hf
                 | fuel live h p n q h' _ (B & WF & Hlive & Hnd) Hp Hn Hr
                 | live h p i v _ (B & WF & Hlive & Hnd) Hin Hi].
  - destruct (mm_init_layout base limit Hb ltac:(lia) Hl Hsz)
      as (h0 & E & WF & _).
    rewrite E in Hi. inversion Hi; subst h0.
    exists ∅. split; [exact WF|]. split; [|constructor].
    intros p. split; [intros []|].
    intros (sz & H). rewrite lookup_empty in H. discriminate.
  - exact (keep_malloc h B live WF Hlive Hnd fuel n p h' Hn Hm).
  - exact (keep_calloc h B live WF Hlive Hnd fuel k n p h' Hn Hc).
  - exact (keep_free h B live WF Hlive Hnd p h' Hp Hf).
  - exact (keep_realloc h B live WF Hlive Hnd fuel p n q h' Hp Hn Hr).
  - exists B. split; [|split; [exact Hlive | exact Hnd]].
    exact (keep_store h B live WF Hlive p i v Hin Hi).
Qed.

(** ** The number of blocks

    Blocks take at least 16 bytes each and do not overlap, so a heap has at
    most one block for every 16 bytes between [heap_start] and the
    epilogue. *)
Lemma blocks_bound (h : heap) (B : gmap Z (Z * status)) :
  geometry h B ->
  Z.of_nat (size B) <= (heap_epilogue h - heap_start h) / 16.
Proof.
  intros G.
  set (N := (heap_epilogue h - heap_start h) / 16).
  set (f := fun a : Z => Z.to_nat ((a - heap_start h) / 16)).
  assert (forall a sz st, B !! a = Some (sz, st) ->
            0 <= (a - heap_start h) / 16 < N) as Hrange.
  { intros a sz st Ha.
    pose proof (block_bounds h B G a sz st Ha) as Hb.
    split; [apply Z.div_pos; lia|]. unfold N.
    replace (heap_epilogue h - heap_start h)
      with ((heap_epilogue h - heap_start h - 16) + 1 * 16) by lia.
    rewrite Z.div_add by lia.
    pose proof (Z.div_le_mono (a - heap_start h)
                  (heap_epilogue h - heap_start h - 16) 16 ltac:(lia)
                  ltac:(lia)).
    lia. }
  assert (0 <= N) as HN.
  { unfold N. apply Z.div_pos; [|lia].
    destruct (geo_epilogue h B G). lia. }
  rewrite <- (length_map_to_list B), <- (length_fmap fst (map_to_list B)).
  rewrite <- (length_fmap f ((map_to_list B).*1)).
  assert (length (f <$> (map_to_list B).*1) <= length (seq 0 (Z.to_nat N)))%nat
    as Hlen.
  { apply submseteq_length, NoDup_submseteq.
    - apply NoDup_fmap_2_strong; [|apply NoDup_fst_map_to_list].
      intros a b Ha Hb E.
      apply list_elem_of_fmap in Ha. destruct Ha as ([a' [sza sta]] & -> & Ha).
      apply list_elem_of_fmap in Hb. destruct Hb as ([b' [szb stb]] & -> & Hb).
      apply elem_of_map_to_list in Ha. apply elem_of_map_to_list in Hb.
      cbn [fst] in *.
      destruct (Z.eq_dec a' b') as [Eab | Nab]; [exact Eab|]. exfalso.
      pose proof (block_bounds h B G _ _ _ Ha) as Hba.
      pose proof (block_bounds h B G _ _ _ Hb) as Hbb.
      destruct (sep h B _ _ _ _ _ _ G Ha Hb Nab) as (Ho & _).
      unfold f in E. apply Z2Nat.inj in E;
        [|apply Z.div_pos; lia|apply Z.div_pos; lia].
      pose proof (Z.div_mod (a' - heap_start h) 16 ltac:(lia)).
      pose proof (Z.div_mod (b' - heap_start h) 16 ltac:(lia)).
      pose proof (Z.mod_pos_bound (a' - heap_start h) 16 ltac:(lia)).
      pose proof (Z.mod_pos_bound (b' - heap_start h) 16 ltac:(lia)).
      lia.
    - intros x Hx.
      apply list_elem_of_fmap in Hx. destruct Hx as (a & -> & Ha).
      apply list_elem_of_fmap in Ha. destruct Ha as ([a' [sz st]] & -> & Ha).
      apply elem_of_map_to_list in Ha. cbn [fst].
      apply list_elem_of_In, in_seq. unfold f.
      pose proof (Hrange _ _ _ Ha). lia. }
  rewrite length_seq in Hlen. lia.
Qed.

(** ** Three served states *)

Lemma served_h_init : served [] h_init.
Proof.
  apply (served_init 4096 65536);
    [lia | vm_compute; discriminate | lia | vm_compute; reflexivity
    | vm_compute; reflexivity].
Qed.

Lemma served_h_a : served [4192] h_a.
Proof.
  apply (served_malloc 8 [] h_init 8 4192 h_a served_h_init);
    [lia | vm_compute; reflexivity].
Qed.

Lemma served_h_ab : served [4208; 4192] h_ab.
Proof.
  apply (served_malloc 8 [4192] h_a 8 4208 h_ab served_h_a);
    [lia | vm_compute; reflexivity].
Qed.

(** ** What a client can rely on

    The statements of this part speak about served runs and about the
    words of the heap only. *)










